(** * CameraSensor: a shallow embedding of
      client/js/lib/sim/sensors/CameraSensor.js

    The sensor is a thin layer over three collaborators: a camera, a
    renderer obtained from a factory, and the scene state handed in by the
    simulator.  JavaScript values are modelled by [value], numbers by
    IEEE-754 binary64 floats, plain objects by finite maps from property
    names to values.  Three kinds of numbers are held as the integers
    they are: the pixel dimensions a renderer reports, array indices, and
    the frame counter, which starts at 0 and only ever changes by [++];
    where one of them is used as a number it goes through [Js.of_int],
    and [++] is the binary64 sum.  Objects live in a store and are known
    by their identity, so that the caller's configuration and the copies
    made of it are told apart; every call on a collaborator is recorded
    in a trace.

    The definitions come first: the language runtime, the collaborators,
    the sensor itself, a concrete host to run it on, and the vocabulary of
    the statements.  The lemmas and theorems follow. *)

From Stdlib Require Import ZArith List Floats Uint63 DecimalString DecimalPos
  DecimalN Lia.
From stdpp Require Import base functions gmap strings list.

Set Warnings "-inexact-float,-register-all".

Local Open Scope Z_scope.

(** ** JavaScript numbers and integer conversions *)

Module Js.

(** The JavaScript number for the integer [z]: the binary64 value
    nearest to [z], ties to even, an infinity past the largest number.
    It is [z] itself whenever [z] is a binary64 value, as every integer
    up to [2^53] in absolute value is. *)
Definition of_int (z : Z) : float :=
  SF2Prim (binary_normalize prec emax z 0 false).

(** Truncation toward zero of a finite number; [0] for NaN and the
    infinities (the integer part used by ToUint8 and ToInt32). *)
Definition truncate (x : float) : Z :=
  match Prim2SF x with
  | S754_finite s m e =>
      let mag := Z.shiftl (Zpos m) e in if s then - mag else mag
  | _ => 0
  end.

(** ToUint8: what a store into a [Uint8Array] element does to a number. *)
Definition ToUint8 (x : float) : Z := truncate x mod 256.

(** ToInt32 of an integer-valued number. *)
Definition ToInt32 (z : Z) : Z :=
  let m := z mod 2 ^ 32 in if m <? 2 ^ 31 then m else m - 2 ^ 32.

(** [x << k] : both operands go through the 32-bit conversions, the shift
    count is taken modulo 32 and the result is again a signed 32-bit
    integer. *)
Definition shl (x k : Z) : Z :=
  ToInt32 (Z.shiftl (ToInt32 x) (Z.land k 31)).

(** The integers up to [2^53] in absolute value: each of them is a
    number, and a number with such a value is rendered as a string by
    writing the integer out in decimal. *)
Definition safe (z : Z) : bool := Z.abs z <=? 2 ^ 53.

(** The decimal numeral of a natural number and of an integer
    (["7"], ["-12"]). *)
Definition numeral (n : N) : string :=
  NilZero.string_of_uint (N.to_uint n).

Definition int_numeral (z : Z) : string :=
  NilZero.string_of_int (Z.to_int z).

(** The integer a number is, when it is one of the safe integers
    ([-0] counts as [0]). *)
Definition as_integer (x : float) : option Z :=
  let z := truncate x in
  if PrimFloat.eqb (of_int z) x && safe z then Some z else None.

(** [n++] for a number that holds the integer [n]: the binary64 sum of
    the number and 1, read back as an integer.  Below [2^53] the sum is
    exact (see [increment_exact]); at [2^53] it is [2^53] again, since
    [2^53 + 1] is not a number and the tie goes to the even
    neighbour. *)
Definition increment (n : N) : N :=
  Z.to_N (truncate (of_int (Z.of_N n) + 1)).

End Js.

Arguments Js.increment : simpl never.

(** ** Typed arrays *)

(** A [Uint8Array] is a view on an [ArrayBuffer]: its elements, each in
    [0, 255], are a stretch of the buffer's bytes, and the buffer may hold
    other bytes before and after them.  The array's [buffer] property is
    the whole buffer.  The operations below work on the list of elements,
    whose length is fixed: reading outside [0, length) yields [undefined]
    (here [None]); a store outside the range is ignored. *)
Module TypedArray.

Record view := { before : list Z; elements : list Z; after : list Z }.

Definition buffer (a : view) : list Z := before a ++ elements a ++ after a.

Definition get (p : list Z) (k : Z) : option Z :=
  if k <? 0 then None else p !! Z.to_nat k.

Definition set (p : list Z) (k : Z) (x : float) : list Z :=
  if k <? 0 then p else <[Z.to_nat k := Js.ToUint8 x]> p.

(** An element used as an arithmetic operand: [undefined] becomes NaN. *)
Definition operand (p : list Z) (k : Z) : float :=
  match get p k with
  | Some v => Js.of_int v
  | None => nan
  end.

(** [p.slice(0, end)] for a non-negative [end]: the elements of a new
    array, which has a buffer of its own of exactly these bytes. *)
Definition slice0 (p : list Z) (e : Z) : list Z := take (Z.to_nat e) p.

End TypedArray.

(** ** Grayscale packing (the ["gray"] case of [__getFrame]) *)

Module Gray.

(** [0.2126 * r + 0.7152 * g + 0.0722 * b], evaluated left to right in
    double precision as the source expression is. *)
Definition luma (r g b : float) : float :=
  (0.2126 * r + 0.7152 * g + 0.0722 * b)%float.

(** The byte a pixel with channels [r g b] is packed to. *)
Definition luma_byte (r g b : Z) : Z :=
  Js.ToUint8 (luma (Js.of_int r) (Js.of_int g) (Js.of_int b)).

(** One iteration of the loop body:
      var b = i << 2;
      p[i] = 0.2126 * p[b] + 0.7152 * p[b+1] + 0.0722 * p[b+2]; *)
Definition body (p : list Z) (i : Z) : list Z :=
  let b := Js.shl i 2 in
  TypedArray.set p i
    (luma (TypedArray.operand p b)
          (TypedArray.operand p (b + 1))
          (TypedArray.operand p (b + 2))).

(** [for (var i = 0; i < ngraypixels; i++) body], where
    [ngraypixels = p.length / 4] is a number that need not be an integer:
    [i < p.length / 4] is [4 * i < p.length].  The array length does not
    change, so [fuel = p.length] iterations always suffice
    (see [loop_fuel]). *)
Fixpoint loop (fuel : nat) (len : Z) (i : Z) (p : list Z) : list Z :=
  match fuel with
  | O => p
  | S fuel' =>
      if 4 * i <? len then loop fuel' len (i + 1) (body p i) else p
  end.

(** The whole case, on the elements [p] of the rendered array: the
    packed prefix, copied out by [p.slice(0, ngraypixels)] (the end index
    is truncated to an integer); the frame's data is the buffer of that
    copy. *)
Definition pack (p : list Z) : list Z :=
  let len := Z.of_nat (length p) in
  TypedArray.slice0 (loop (length p) len 0 p) (len / 4).

End Gray.

(** ** JavaScript values *)

(** Arrays are immutable values here: the sensor never stores into an
    array that a configuration holds.  [VRef] stands for any other object
    (a vector, a scene graph), known by its identity only; it has none of
    the properties the sensor reads. *)
Inductive value :=
| VUndefined
| VNull
| VBool (b : bool)
| VNum (x : float)
| VStr (s : string)
| VArr (elems : list value)
| VRef (o : nat).

(** A plain object: its own enumerable properties. *)
Abbreviation obj := (gmap string value).

Inductive exn :=
| TypeError (msg : string)
| RangeError (msg : string).

Definition is_undefined (v : value) : bool :=
  match v with VUndefined => true | _ => false end.

(** [o.k] on a plain object. *)
Definition get (o : obj) (k : string) : value := default VUndefined (o !! k).

Definition ToBoolean (v : value) : bool :=
  match v with
  | VUndefined | VNull => false
  | VBool b => b
  | VNum x => negb (PrimFloat.eqb x 0 || PrimFloat.is_nan x)
  | VStr s => negb (String.eqb s "")
  | VArr _ | VRef _ => true
  end.

(** [v === 's'] for a string literal ['s']. *)
Definition is_string (v : value) (s : string) : bool :=
  match v with VStr t => String.eqb t s | _ => false end.

(** [n !== v] for an integer number [n]. *)
Definition differs_from (n : Z) (v : value) : bool :=
  match v with
  | VNum x => negb (PrimFloat.eqb (Js.of_int n) x)
  | _ => true
  end.

(** [v[i]]: a TypeError on [undefined] and [null]. *)
Definition index (v : value) (i : nat) : exn + value :=
  match v with
  | VUndefined | VNull => inl (TypeError "Cannot read properties of undefined")
  | VArr l => inr (default VUndefined (l !! i))
  | VStr s =>
      inr (match String.get i s with
           | Some c => VStr (String c EmptyString)
           | None => VUndefined
           end)
  | _ => inr VUndefined
  end.

(** [v.length > n]: a TypeError on [undefined] and [null]; a value with
    no length compares as [undefined > n], which is false. *)
Definition length_exceeds (v : value) (n : nat) : exn + bool :=
  match v with
  | VUndefined | VNull => inl (TypeError "Cannot read properties of undefined")
  | VArr l => inr (n <? length l)%nat
  | VStr s => inr (n <? String.length s)%nat
  | _ => inr false
  end.

(** ** Helpers from util/util (lodash) *)

Module Util.

(** Modelled from the spec: util/util (lodash with additions) is not
    among the sources.  [_.defaults(dest, src)] fills in defaults: every
    property of [src] is assigned to [dest] where [dest] resolves it to
    [undefined]; [_.defaults(dest, a, b)] is [defaults (defaults dest a) b]. *)
Definition defaults (dest src : obj) : obj :=
  merge (fun d s =>
           match d, s with
           | Some v, Some _ => if is_undefined v then s else d
           | Some _, None => d
           | None, _ => s
           end) dest src.

(** Modelled from the spec: util/util is not among the sources.
    [_.clone(o)] of a plain object is a copy: a new object with the same
    properties (the new identity is given where the copy is stored). *)
Definition clone (o : obj) : obj := o.

Fixpoint repeat_string (n : nat) (chars : string) : string :=
  match n with
  | O => EmptyString
  | S n' => chars +:+ repeat_string n' chars
  end.

Fixpoint take_string (n : nat) (s : string) : string :=
  match n, s with
  | S n', String c s' => String c (take_string n' s')
  | _, _ => EmptyString
  end.

(** Modelled from the spec: util/util is not among the sources.
    [_.padStart(s, len, chars)] pads on the left: [s] itself when it is
    already [len] long, else [chars] repeated and cut to the missing
    length, then [s]. *)
Definition padStart (s : string) (len : nat) (chars : string) : string :=
  let n := String.length s in
  if (len <=? n)%nat then s
  else take_string (len - n) (repeat_string (len - n) chars) +:+ s.

End Util.

(** ** Collaborators *)

(** The fields of a camera that this file reads or writes.  The three
    constructor arguments that come from the configuration are kept as the
    values handed over. *)
Record Camera := {
  cam_fov : value;
  aspect : float;
  cam_near : value;
  cam_far : value;
  position : value;
  cam_name : value;
  isEquirectangular : value;
  isArrayCamera : bool;
  userData_shape : value;
  userData_imageShape : value
}.

(** Modelled from the spec: gfx/Camera is not among the sources; a single
    perspective camera is built from fov, aspect, near and far, starts at
    the origin and is not an array camera. *)
Definition Camera_new (fov : value) (asp : float) (near far : value) : Camera :=
  {| cam_fov := fov; aspect := asp; cam_near := near; cam_far := far;
     position := VArr [VNum 0; VNum 0; VNum 0];
     cam_name := VStr ""; isEquirectangular := VUndefined;
     isArrayCamera := false;
     userData_shape := VUndefined; userData_imageShape := VUndefined |}.

Definition set_aspect (a : float) (c : Camera) : Camera :=
  {| cam_fov := cam_fov c; aspect := a; cam_near := cam_near c;
     cam_far := cam_far c; position := position c; cam_name := cam_name c;
     isEquirectangular := isEquirectangular c;
     isArrayCamera := isArrayCamera c;
     userData_shape := userData_shape c;
     userData_imageShape := userData_imageShape c |}.

Definition set_position (v : value) (c : Camera) : Camera :=
  {| cam_fov := cam_fov c; aspect := aspect c; cam_near := cam_near c;
     cam_far := cam_far c; position := v; cam_name := cam_name c;
     isEquirectangular := isEquirectangular c;
     isArrayCamera := isArrayCamera c;
     userData_shape := userData_shape c;
     userData_imageShape := userData_imageShape c |}.

Definition set_name_and_flag (n e : value) (c : Camera) : Camera :=
  {| cam_fov := cam_fov c; aspect := aspect c; cam_near := cam_near c;
     cam_far := cam_far c; position := position c; cam_name := n;
     isEquirectangular := e;
     isArrayCamera := isArrayCamera c;
     userData_shape := userData_shape c;
     userData_imageShape := userData_imageShape c |}.

(** A scene-graph node whose visibility can be toggled. *)
Record DebugNode := { visible : value }.

Record Scene := { scene_name : value; scene_graph : nat }.

(** The scene state handed to [getFrame]: it may carry a debug node and a
    nested full scene, and has a name of its own. *)
Record SceneState := {
  debugNode : option DebugNode;
  fullScene : option Scene;
  state_name : value
}.

Definition set_visible (v : value) (st : SceneState) : SceneState :=
  {| debugNode := match debugNode st with
                  | Some _ => Some {| visible := v |}
                  | None => None
                  end;
     fullScene := fullScene st;
     state_name := state_name st |}.

(** [sceneState.fullScene || sceneState]: what is handed to the renderer. *)
Inductive RenderTarget :=
| FullScene (s : Scene)
| StateItself.

Definition target_of (st : SceneState) : RenderTarget :=
  match fullScene st with
  | Some s => FullScene s
  | None => StateItself
  end.

Definition target_name (st : SceneState) (t : RenderTarget) : value :=
  match t with
  | FullScene s => scene_name s
  | StateItself => state_name st
  end.

Record Opts := { opt_showDebugNode : value }.

(** What this file needs from its surroundings: the constants module, the
    language runtime's conversions of values this model leaves open, the
    array-camera factory, and the renderer with its factory.  A renderer
    is opaque apart from its reported size, a width and a height in whole
    pixels; each of its methods may change it.  [setSize] is handed the
    two values the sensor was given, whatever they are. *)
Class Host (R : Type) := {
  metersToVirtualUnit : float;
  isBrowser : bool;
  hostToNumber : value -> float;
  hostToString : value -> string;
  createArrayCamera : obj -> Camera;
  getRenderer : obj -> Opts -> R;
  width : R -> Z;
  height : R -> Z;
  rendererSetSize : R -> value -> value -> R;
  renderToRawPixels :
    R -> SceneState -> RenderTarget -> Camera -> TypedArray.view * R;
  renderToBuffer : R -> SceneState -> RenderTarget -> Camera -> value * R;
  renderToPng : R -> SceneState -> RenderTarget -> Camera -> string -> value * R;
  render : R -> SceneState -> RenderTarget -> Camera -> value * R
}.

(** Calls on collaborators, in the order they happen.  A render call
    carries the scene state as it is at the moment of the call. *)
Inductive event :=
| ConsoleLog (msg : string)
| ConsoleError (msg : string)
| CreateArrayCamera (cameraConfig : obj)
| NewCamera (fov : value) (asp : float) (near far : value)
| PositionCopy (cam : nat) (v : value)
| LookAt (cam : nat) (from orientation0 : value)
| UpdateMatrix (cam : nat)
| UpdateProjectionMatrix (cam : nat) (asp : float)
| ResizeCameras (cam : nat) (w h : value)
| GetRenderer (rendererConfig : nat) (props : obj)
| RendererSetSize (r : nat) (w h : value)
| RenderToRawPixels (r : nat) (st : SceneState) (t : RenderTarget) (cam : nat)
| RenderToBuffer (r : nat) (st : SceneState) (t : RenderTarget) (cam : nat)
| RenderToPng (r : nat) (st : SceneState) (t : RenderTarget) (cam : nat)
              (file : string)
| Render (r : nat) (st : SceneState) (t : RenderTarget) (cam : nat).

(** The scene state a render call saw, if the event is one. *)
Definition rendered_state (e : event) : option SceneState :=
  match e with
  | RenderToRawPixels _ st _ _ | RenderToBuffer _ st _ _
  | RenderToPng _ st _ _ _ | Render _ st _ _ => Some st
  | _ => None
  end.

(** ** The sensor *)

Section Sensor.

Context {R : Type} `{!Host R}.

(** Conversions of the language runtime.  Strings and objects used as
    numbers, and objects and numbers other than the safe integers used
    as strings, are left to the host. *)
Definition ToNumber (v : value) : float :=
  match v with
  | VUndefined => nan
  | VNull => 0%float
  | VBool b => if b then 1%float else 0%float
  | VNum x => x
  | _ => hostToNumber v
  end.

Definition NumberToString (x : float) : string :=
  match Js.as_integer x with
  | Some z => Js.int_numeral z
  | None => hostToString (VNum x)
  end.

Definition ToString (v : value) : string :=
  match v with
  | VUndefined => "undefined"
  | VNull => "null"
  | VBool b => if b then "true" else "false"
  | VNum x => NumberToString x
  | VStr s => s
  | _ => hostToString v
  end.

(** The frame counter as a string: the string of the number that holds
    it.  Up to [2^53], where the counter stops, that is its decimal
    numeral (see [counter_numeral]). *)
Definition CounterToString (n : N) : string :=
  NumberToString (Js.of_int (Z.of_N n)).

(** The store: plain objects, cameras, renderers and scene states, each
    known by an identity; [next] is the first identity not yet in use. *)
Record World := {
  objects : nat -> obj;
  cameras : nat -> Camera;
  renderers : nat -> R;
  scenes : nat -> SceneState;
  next : nat;
  trace : list event
}.

Definition with_objects (f : nat -> obj) (W : World) : World :=
  {| objects := f; cameras := cameras W; renderers := renderers W;
     scenes := scenes W; next := next W; trace := trace W |}.

Definition with_cameras (f : nat -> Camera) (W : World) : World :=
  {| objects := objects W; cameras := f; renderers := renderers W;
     scenes := scenes W; next := next W; trace := trace W |}.

Definition with_renderers (f : nat -> R) (W : World) : World :=
  {| objects := objects W; cameras := cameras W; renderers := f;
     scenes := scenes W; next := next W; trace := trace W |}.

Definition with_scenes (f : nat -> SceneState) (W : World) : World :=
  {| objects := objects W; cameras := cameras W; renderers := renderers W;
     scenes := f; next := next W; trace := trace W |}.

Definition with_next (n : nat) (W : World) : World :=
  {| objects := objects W; cameras := cameras W; renderers := renderers W;
     scenes := scenes W; next := n; trace := trace W |}.

Definition with_trace (t : list event) (W : World) : World :=
  {| objects := objects W; cameras := cameras W; renderers := renderers W;
     scenes := scenes W; next := next W; trace := t |}.

(** Computations that read and change the store and may throw. *)
Inductive result (A : Type) :=
| Ok (a : A) (W : World)
| Throw (e : exn) (W : World).
Arguments Ok {A} a W.
Arguments Throw {A} e W.

Definition M (A : Type) : Type := World -> result A.

Definition ret {A} (a : A) : M A := fun W => Ok a W.

Definition bind {A B} (m : M A) (k : A -> M B) : M B :=
  fun W => match m W with
           | Ok a W' => k a W'
           | Throw e W' => Throw e W'
           end.

Notation "'do' x <- m ; k" := (bind m (fun x => k))
  (at level 10, x name, m at level 100, k at level 200).
Notation "'do' ' pat <- m ; k" := (bind m (fun x => match x with pat => k end))
  (at level 10, pat pattern, m at level 100, k at level 200).
Notation "m ;; k" := (bind m (fun _ => k))
  (at level 100, k at level 200, right associativity).

Definition world_of {A} (r : result A) : World :=
  match r with Ok _ W | Throw _ W => W end.

Definition emit (e : event) : M unit :=
  fun W => Ok tt (with_trace (trace W ++ [e]) W).

Definition lift {A} (x : exn + A) : M A :=
  fun W => match x with inl e => Throw e W | inr a => Ok a W end.

Definition read_object (l : nat) : M obj := fun W => Ok (objects W l) W.
Definition read_camera (l : nat) : M Camera := fun W => Ok (cameras W l) W.
Definition read_renderer (l : nat) : M R := fun W => Ok (renderers W l) W.
Definition read_scene (l : nat) : M SceneState := fun W => Ok (scenes W l) W.

Definition write_object (l : nat) (o : obj) : M unit :=
  fun W => Ok tt (with_objects (<[l := o]> (objects W)) W).
Definition write_camera (l : nat) (c : Camera) : M unit :=
  fun W => Ok tt (with_cameras (<[l := c]> (cameras W)) W).
Definition write_renderer (l : nat) (r : R) : M unit :=
  fun W => Ok tt (with_renderers (<[l := r]> (renderers W)) W).
Definition write_scene (l : nat) (st : SceneState) : M unit :=
  fun W => Ok tt (with_scenes (<[l := st]> (scenes W)) W).

(** A new object identity. *)
Definition fresh : M nat := fun W => Ok (next W) (with_next (S (next W)) W).

(** [o.k = v] and [delete o.k] on the plain object [l]. *)
Definition set_prop (l : nat) (k : string) (v : value) : M unit :=
  do o <- read_object l; write_object l (<[k := v]> o).
Definition delete_prop (l : nat) (k : string) : M unit :=
  do o <- read_object l; write_object l (delete k o).
Definition get_prop (l : nat) (k : string) : M value :=
  do o <- read_object l; ret (get o k).

(** The sensor object.  [name] and [config] are set by the base
    constructor; [config], [camera] and [renderer] are references;
    [numFramesRendered] is the integer the counter holds. *)
Record CameraSensor := {
  name : value;
  config : nat;
  showDebugNode : bool;
  camera : nat;
  renderer : nat;
  numFramesRendered : N
}.

Inductive Data :=
| Bytes (buffer : list Z)
| Other (v : value).

Record Frame := {
  type : string;
  data : Data;
  encoding : value;
  shape : list Z
}.

(** [CameraSensor.prototype.setSize], for any two values as width and
    height. *)
Definition setSize (this : CameraSensor) (w h : value) : M unit :=
  emit (ConsoleLog ("resize sensor " +:+ ToString (name this) +:+ " to "
                    +:+ ToString w +:+ "x" +:+ ToString h)) ;;
  do cam <- read_camera (camera this);
  let a := (ToNumber w / ToNumber h)%float in
  write_camera (camera this) (set_aspect a cam) ;;
  emit (UpdateProjectionMatrix (camera this) a) ;;
  (if isArrayCamera cam then emit (ResizeCameras (camera this) w h)
   else ret tt) ;;
  do r <- read_renderer (renderer this);
  if differs_from (width r) w || differs_from (height r) h then
    write_renderer (renderer this) (rendererSetSize r w h) ;;
    emit (RendererSetSize (renderer this) w h)
  else ret tt.

(** One renderer call: the renderer sees the scene state as it is now,
    and is left in the state its method returns. *)
Definition call_renderer {A} (this : CameraSensor) (sceneState : nat)
    (method : R -> SceneState -> RenderTarget -> Camera -> A * R)
    (ev : nat -> SceneState -> RenderTarget -> nat -> event) : M A :=
  do st <- read_scene sceneState;
  do r <- read_renderer (renderer this);
  do cam <- read_camera (camera this);
  emit (ev (renderer this) st (target_of st) (camera this)) ;;
  let '(a, r') := method r st (target_of st) cam in
  write_renderer (renderer this) r' ;;
  ret a.

(** [CameraSensor.prototype.__getFrame] *)
Definition __getFrame (this : CameraSensor) (sceneState : nat) : M Frame :=
  do st <- read_scene sceneState;
  let scene := target_of st in
  do enc <- get_prop (config this) "encoding";
  let sceneId := target_name st scene in
  do '(pixels, numChannels) <-
    (if is_string enc "rgba" then
       do p <- call_renderer this sceneState renderToRawPixels RenderToRawPixels;
       ret (Bytes (TypedArray.buffer p), 4)
     else if is_string enc "gray" then
       do p <- call_renderer this sceneState renderToRawPixels RenderToRawPixels;
       ret (Bytes (Gray.pack (TypedArray.elements p)), 1)
     else if is_string enc "pngbuf" then
       do v <- call_renderer this sceneState renderToBuffer RenderToBuffer;
       ret (Other v, 4)
     else if is_string enc "pngfile" then
       let pngfile := ToString sceneId +:+ "_" +:+ ToString (name this)
                      +:+ ".png" in
       do v <- call_renderer this sceneState
                 (fun r st t c => renderToPng r st t c pngfile)
                 (fun r st t c => RenderToPng r st t c pngfile);
       ret (Other v, 4)
     else if is_string enc "pngseq" then
       let pngseq := ToString sceneId +:+ "_" +:+ ToString (name this) +:+ "_"
                     +:+ Util.padStart
                           (CounterToString (numFramesRendered this)) 5 "0"
                     +:+ ".png" in
       do v <- call_renderer this sceneState
                 (fun r st t c => renderToPng r st t c pngseq)
                 (fun r st t c => RenderToPng r st t c pngseq);
       ret (Other v, 4)
     else if is_string enc "screen" then
       do v <- call_renderer this sceneState render Render;
       ret (Other v, 4)
     else
       emit (ConsoleError ("Invalid encoding: " +:+ ToString enc)) ;;
       ret (Other VNull, 4));
  do r <- read_renderer (renderer this);
  ret {| type := "color"; data := pixels; encoding := enc;
         shape := [width r; height r; numChannels] |}.

(** [this.numFramesRendered++] *)
Definition count_frame (this : CameraSensor) : CameraSensor :=
  {| name := name this; config := config this;
     showDebugNode := showDebugNode this; camera := camera this;
     renderer := renderer this;
     numFramesRendered := Js.increment (numFramesRendered this) |}.

(** The first conditional of [getFrame]: remember the debug node's
    visibility and force it to the sensor's flag. *)
Definition overrideDebugNode (this : CameraSensor) (sceneState : nat)
  : M value :=
  do st <- read_scene sceneState;
  match debugNode st with
  | Some d =>
      write_scene sceneState (set_visible (VBool (showDebugNode this)) st) ;;
      ret (visible d)
  | None => ret VUndefined
  end.

(** The second conditional of [getFrame]: put the remembered visibility
    back. *)
Definition restoreDebugNode (sceneState : nat) (debugNodeVisibility : value)
  : M unit :=
  do st <- read_scene sceneState;
  match debugNode st with
  | Some _ => write_scene sceneState (set_visible debugNodeVisibility st)
  | None => ret tt
  end.

(** [CameraSensor.prototype.getFrame]: the frame together with the sensor
    as the call leaves it. *)
Definition getFrame (this : CameraSensor) (sceneState : nat)
  : M (Frame * CameraSensor) :=
  do debugNodeVisibility <- overrideDebugNode this sceneState;
  do result <- __getFrame this sceneState;
  let this' := count_frame this in
  restoreDebugNode sceneState debugNodeVisibility ;;
  ret (result, this').

(** [CameraSensor.prototype.getShape] *)
Definition getShape (this : CameraSensor) : M (list Z) :=
  do r <- read_renderer (renderer this);
  ret [width r; height r; 4].

(** [CameraSensor.prototype.getDataRange] *)
Definition getDataRange (this : CameraSensor) : list Z := [0; 255].

Record Metadata := {
  md_name : value;
  md_type : value;
  md_shape : list Z;
  md_dataType : value;
  md_dataRange : list Z
}.

(** [CameraSensor.prototype.getMetadata] *)
Definition getMetadata (this : CameraSensor) : M Metadata :=
  do cfg <- read_object (config this);
  do sh <- getShape this;
  let dt := get cfg "datatype" in
  ret {| md_name := name this;
         md_type := get cfg "type";
         md_shape := sh;
         md_dataType := if ToBoolean dt then dt else VStr "uint8";
         md_dataRange := getDataRange this |}.

(** [CameraSensor.prototype.createPixelBuffer] *)
Definition createPixelBuffer (this : CameraSensor) : M (list Z) :=
  do r <- read_renderer (renderer this);
  let n := 4 * width r * height r in
  if n <? 0 then (fun W => Throw (RangeError "Invalid typed array length") W)
  else ret (replicate (Z.to_nat n) 0).

(** The defaults of the camera configuration: fov in degrees, near and
    far in meters. *)
Definition camera_defaults : obj :=
  <["fov" := VNum 45]> (<["near" := VNum 0.001]> (<["far" := VNum 20]> ∅)).

(** The constructor [CameraSensor(config, opts)] follows, block by block.
    [config] is the identity of the caller's configuration object.  Calls
    on collaborators are taken to return and to leave the plain objects
    they are handed as they are. *)

(** The private working copy [cameraConfig]: the configuration with the
    defaults filled in, near and far converted to virtual units, and
    width and height taken from the resolution. *)
Definition cameraConfigFor (config : nat) : M nat :=
  do cfg <- read_object config;
  do cameraConfig <- fresh;
  write_object cameraConfig
    (Util.defaults (Util.defaults ∅ cfg) camera_defaults) ;;
  do near <- get_prop cameraConfig "near";
  set_prop cameraConfig "near"
    (VNum (ToNumber near * metersToVirtualUnit)%float) ;;
  do far <- get_prop cameraConfig "far";
  set_prop cameraConfig "far"
    (VNum (ToNumber far * metersToVirtualUnit)%float) ;;
  do res <- get_prop cameraConfig "resolution";
  do w <- lift (index res 0);
  set_prop cameraConfig "width" w ;;
  do res <- get_prop cameraConfig "resolution";
  do h <- lift (index res 1);
  set_prop cameraConfig "height" h ;;
  ret cameraConfig.

(** The branch for several positions: an array camera, and a copy of the
    configuration for the renderer factory.  The result is the camera and
    the renderer configuration. *)
Definition arrayCameraFor (config cameraConfig : nat) : M (nat * nat) :=
  do cc <- read_object cameraConfig;
  emit (CreateArrayCamera cc) ;;
  do cam <- fresh;
  write_camera cam (createArrayCamera cc) ;;
  do cfg <- read_object config;
  do rendererConfig <- fresh;
  write_object rendererConfig (Util.clone cfg) ;;
  do c <- read_camera cam;
  set_prop rendererConfig "cameraArrayShape" (userData_shape c) ;;
  do c <- read_camera cam;
  set_prop rendererConfig "resolution" (userData_imageShape c) ;;
  do hint <- get_prop rendererConfig "renderer";
  (if negb isBrowser && is_string hint "main"
   then delete_prop rendererConfig "renderer"
   else ret tt) ;;
  ret (cam, rendererConfig).

(** The branch for one position: a perspective camera; the renderer
    configuration is the caller's object itself. *)
Definition singleCameraFor (config cameraConfig : nat) : M (nat * nat) :=
  do fov <- get_prop cameraConfig "fov";
  do cw <- get_prop cameraConfig "width";
  do ch <- get_prop cameraConfig "height";
  do cnear <- get_prop cameraConfig "near";
  do cfar <- get_prop cameraConfig "far";
  let asp := (ToNumber cw / ToNumber ch)%float in
  emit (NewCamera fov asp cnear cfar) ;;
  do cam <- fresh;
  write_camera cam (Camera_new fov asp cnear cfar) ;;
  do pos <- get_prop cameraConfig "position";
  do camPos <- lift (index pos 0);
  do c <- read_camera cam;
  write_camera cam (set_position camPos c) ;;
  emit (PositionCopy cam camPos) ;;
  do orientation <- get_prop cameraConfig "orientation";
  (if ToBoolean orientation then
     do c <- read_camera cam;
     do orientation <- get_prop cameraConfig "orientation";
     do o0 <- lift (index orientation 0);
     emit (LookAt cam (position c) o0)
   else ret tt) ;;
  emit (UpdateMatrix cam) ;;
  do c <- read_camera cam;
  emit (UpdateProjectionMatrix cam (aspect c)) ;;
  ret (cam, config).

(** [this.renderer = opts.getRenderer(rendererConfig, opts)] *)
Definition obtainRenderer (rendererConfig : nat) (opts : Opts) : M nat :=
  do props <- read_object rendererConfig;
  emit (GetRenderer rendererConfig props) ;;
  do r <- fresh;
  write_renderer r (getRenderer props opts) ;;
  ret r.

(** The resizing at the end of the constructor: when the renderer's
    width or height is not the [width] or [height] of the renderer
    configuration, the sensor is resized to the renderer's size. *)
Definition reconcileSize (this : CameraSensor) (rendererConfig : nat)
  : M unit :=
  do rr <- read_renderer (renderer this);
  do rw <- get_prop rendererConfig "width";
  do rr' <- read_renderer (renderer this);
  do rh <- get_prop rendererConfig "height";
  if differs_from (width rr) rw || differs_from (height rr') rh
  then
    do r1 <- read_renderer (renderer this);
    do r2 <- read_renderer (renderer this);
    setSize this (VNum (Js.of_int (width r1))) (VNum (Js.of_int (height r2)))
  else ret tt.

(** Modelled from the spec: sim/sensors/Sensor is not among the sources;
    the base constructor keeps the reference to the configuration and
    copies its name ([this.config = config; this.name = config.name]), the
    two fields the methods of this file read. *)
Definition Sensor_call (config : nat) : M value := get_prop config "name".

Definition CameraSensor_new (config : nat) (opts : Opts) : M CameraSensor :=
  do sensorName <- Sensor_call config;
  let showDebug := ToBoolean (opt_showDebugNode opts) in
  do cameraConfig <- cameraConfigFor config;
  do pos <- get_prop cameraConfig "position";
  do isArray <- lift (length_exceeds pos 1);
  do '(cam, rendererConfig) <-
    (if isArray then arrayCameraFor config cameraConfig
     else singleCameraFor config cameraConfig);
  do cfgName <- get_prop config "name";
  do equi <- get_prop cameraConfig "isEquirectangular";
  do c <- read_camera cam;
  write_camera cam (set_name_and_flag cfgName equi c) ;;
  do r <- obtainRenderer rendererConfig opts;
  let this := {| name := sensorName; config := config;
                 showDebugNode := showDebug; camera := cam; renderer := r;
                 numFramesRendered := 0 |} in
  reconcileSize this rendererConfig ;;
  ret this.

End Sensor.

Arguments World R : clear implicits.
Arguments result R A : clear implicits.
Arguments M R A : clear implicits.
Arguments Ok {R A} a W.
Arguments Throw {R A} e W.

(** ** A concrete host

    A renderer that clamps the requested resolution to 1024 pixels a side
    and draws the same two pixels whatever the scene, into an array that
    is a view on a larger buffer. *)

Module Demo.

Record Renderer := { r_width : Z; r_height : Z; r_frames : nat }.

Definition dimension (v : value) : Z :=
  match v with
  | VNum x => Z.min (Js.truncate x) 1024
  | _ => 300
  end.

Definition factory (props : obj) (_ : Opts) : Renderer :=
  match get props "resolution" with
  | VArr [w; h] =>
      {| r_width := dimension w; r_height := dimension h; r_frames := 0 |}
  | _ => {| r_width := 300; r_height := 150; r_frames := 0 |}
  end.

(** The size [setSize] takes from a value: its integer part. *)
Definition pixels (v : value) : Z :=
  match v with
  | VNum x => Js.truncate x
  | _ => 0
  end.

(** The rendered array: two pixels, followed in their buffer by four
    bytes that are not part of the array. *)
Definition rendered : TypedArray.view :=
  {| TypedArray.before := [];
     TypedArray.elements := [255; 255; 255; 255; 10; 200; 30; 0];
     TypedArray.after := [9; 9; 9; 9] |}.

Definition drawn (r : Renderer) : Renderer :=
  {| r_width := r_width r; r_height := r_height r;
     r_frames := S (r_frames r) |}.

Definition arrayCamera (cc : obj) : Camera :=
  {| cam_fov := get cc "fov"; aspect := 1%float;
     cam_near := get cc "near"; cam_far := get cc "far";
     position := VArr [VNum 0; VNum 0; VNum 0];
     cam_name := VStr ""; isEquirectangular := VUndefined;
     isArrayCamera := true;
     userData_shape := VArr [VNum 2; VNum 1];
     userData_imageShape := VArr [VNum 1280; VNum 480] |}.

#[global] Instance host : Host Renderer := {|
  metersToVirtualUnit := 100%float;
  isBrowser := false;
  hostToNumber := fun _ => nan;
  hostToString := fun _ => "[object Object]";
  createArrayCamera := arrayCamera;
  getRenderer := factory;
  width := r_width;
  height := r_height;
  rendererSetSize := fun r w h =>
    {| r_width := pixels w; r_height := pixels h; r_frames := r_frames r |};
  renderToRawPixels := fun r _ _ _ => (rendered, drawn r);
  renderToBuffer := fun r _ _ _ => (VRef 900, drawn r);
  renderToPng := fun r _ _ _ _ => (VRef 901, drawn r);
  render := fun r _ _ _ => (VUndefined, drawn r)
|}.

Definition configuration (enc : string) (positions : list value) : obj :=
  <["name" := VStr "cam0"]>
    (<["type" := VStr "color"]>
       (<["position" := VArr positions]>
          (<["orientation" := VArr [VArr [VNum 0; VNum 0; VNum (-1)]]]>
             (<["resolution" := VArr [VNum 640; VNum 480]]>
                (<["renderer" := VStr "main"]>
                   (<["encoding" := VStr enc]> ∅)))))).

Definition origin : value := VArr [VNum 0; VNum 0.6; VNum 0].

Definition scene (node : option DebugNode) : SceneState :=
  {| debugNode := node;
     fullScene := Some {| scene_name := VStr "scene1"; scene_graph := 7 |};
     state_name := VUndefined |}.

Definition camera0 : Camera :=
  Camera_new (VNum 45) (640 / 480)%float (VNum 0.1) (VNum 2000).

(** A world with one configuration (identity 0), one camera, one
    renderer and one scene state. *)
Definition world (enc : string) (positions : list value)
    (node : option DebugNode) : World Renderer :=
  {| objects := fun _ => configuration enc positions;
     cameras := fun _ => camera0;
     renderers := fun _ =>
       {| r_width := 640; r_height := 480; r_frames := 0 |};
     scenes := fun _ => scene node;
     next := 1;
     trace := [] |}.

Definition sensor (frames : N) : CameraSensor :=
  {| name := VStr "cam0"; config := 0; showDebugNode := false;
     camera := 0; renderer := 0; numFramesRendered := frames |}.

Definition opts : Opts := {| opt_showDebugNode := VUndefined |}.

Definition shown : option DebugNode := Some {| visible := VBool true |}.

Definition bogus_world : World Renderer := world "bogus" [origin] None.
Definition pngseq_world : World Renderer := world "pngseq" [origin] shown.
Definition gray_world : World Renderer := world "gray" [origin] shown.
Definition rgba_world : World Renderer := world "rgba" [origin] None.
Definition array_world : World Renderer :=
  world "rgba" [origin; VArr [VNum 1; VNum 0.6; VNum 0]] None.

(** A world like [world], for any configuration object. *)
Definition world_with (cfg : obj) (node : option DebugNode) : World Renderer :=
  {| objects := fun _ => cfg;
     cameras := fun _ => camera0;
     renderers := fun _ =>
       {| r_width := 640; r_height := 480; r_frames := 0 |};
     scenes := fun _ => scene node;
     next := 1;
     trace := [] |}.

(** A configuration that names no encoding, and one without a
    resolution. *)
Definition unset_world : World Renderer :=
  world_with (delete "encoding" (configuration "rgba" [origin])) None.
Definition blind_world : World Renderer :=
  world_with (delete "resolution" (configuration "rgba" [origin])) None.

End Demo.

(** ** Vocabulary of the statements *)

Section Vocabulary.

Context {R : Type} `{!Host R}.

(** What iteration [k] stores, in terms of the elements [p0] of the
    array the renderer returned. *)
Definition packed (p0 : list Z) (k : Z) : Z :=
  Js.ToUint8
    (Gray.luma (TypedArray.operand p0 (4 * k))
               (TypedArray.operand p0 (4 * k + 1))
               (TypedArray.operand p0 (4 * k + 2))).

(** Loop invariant before iteration [i]: elements below [i] hold their
    packed values, and everything from [i] on is still as rendered. *)
Definition inv (p0 : list Z) (i : Z) (q : list Z) : Prop :=
  length q = length p0
  /\ (forall k, 0 <= k < i -> q !! Z.to_nat k = Some (packed p0 k))
  /\ (forall k, i <= k -> TypedArray.get q k = TypedArray.get p0 k).

(** A computation returns, and its value and final store satisfy [P]. *)
Definition returns {A} (r : result R A) (P : A -> World R -> Prop) : Prop :=
  match r with
  | Ok a W => P a W
  | Throw _ _ => False
  end.

(** The events a computation added to the trace. *)
Definition added (W W' : World R) (evs : list event) : Prop :=
  trace W' = trace W ++ evs.

(** What [__getFrame] leaves alone and what it reports, whatever the
    encoding: it always returns, touches no scene state, plain object or
    camera, changes no renderer but the sensor's own, and every render
    call it makes sees the scene state it was started in. *)
Definition capture_frame (this : CameraSensor) (ss : nat) (W : World R)
    (f : Frame) (W' : World R) : Prop :=
  scenes W' = scenes W
  /\ objects W' = objects W
  /\ cameras W' = cameras W
  /\ next W' = next W
  /\ (forall l, l <> renderer this -> renderers W' l = renderers W l)
  /\ (exists evs,
        added W W' evs
        /\ forall e st, e ∈ evs -> rendered_state e = Some st ->
                        st = scenes W ss)
  /\ type f = "color"
  /\ encoding f = get (objects W (config this)) "encoding"
  /\ exists c, shape f = [width (renderers W' (renderer this));
                          height (renderers W' (renderer this)); c].

(** The two conditionals around the capture, as functions on the store. *)
Definition saved_visibility (ss : nat) (W : World R) : value :=
  match debugNode (scenes W ss) with
  | Some d => visible d
  | None => VUndefined
  end.

Definition overridden (this : CameraSensor) (ss : nat) (W : World R) : World R :=
  match debugNode (scenes W ss) with
  | Some _ =>
      with_scenes
        (<[ss := set_visible (VBool (showDebugNode this)) (scenes W ss)]>
           (scenes W)) W
  | None => W
  end.

Definition restored (ss : nat) (v : value) (W : World R) : World R :=
  match debugNode (scenes W ss) with
  | Some _ => with_scenes (<[ss := set_visible v (scenes W ss)]> (scenes W)) W
  | None => W
  end.

(** The file a frame of a PNG sequence is written to. *)
Definition sequence_file (this : CameraSensor) (st : SceneState) : string :=
  ToString (target_name st (target_of st)) +:+ "_" +:+ ToString (name this)
  +:+ "_" +:+ Util.padStart (CounterToString (numFramesRendered this)) 5 "0"
  +:+ ".png".

(** The events of one [setSize] call. *)
Definition resize_events (this : CameraSensor) (w h : value) (W : World R)
  : list event :=
  let r := renderers W (renderer this) in
  [ConsoleLog ("resize sensor " +:+ ToString (name this) +:+ " to "
               +:+ ToString w +:+ "x" +:+ ToString h);
   UpdateProjectionMatrix (camera this) (ToNumber w / ToNumber h)%float]
  ++ (if isArrayCamera (cameras W (camera this))
      then [ResizeCameras (camera this) w h] else [])
  ++ (if differs_from (width r) w || differs_from (height r) h
      then [RendererSetSize (renderer this) w h] else []).

(** The store after one [setSize] call. *)
Definition resized (this : CameraSensor) (w h : value) (W : World R)
  : World R :=
  let r := renderers W (renderer this) in
  let W1 :=
    with_trace (trace W ++ resize_events this w h W)
      (with_cameras
         (<[camera this :=
              set_aspect (ToNumber w / ToNumber h)%float
                (cameras W (camera this))]> (cameras W)) W) in
  if differs_from (width r) w || differs_from (height r) h
  then with_renderers
         (<[renderer this := rendererSetSize r w h]> (renderers W)) W1
  else W1.

(** The renderer's reported size as the values [renderer.width] and
    [renderer.height]. *)
Definition width_of (r : R) : value := VNum (Js.of_int (width r)).
Definition height_of (r : R) : value := VNum (Js.of_int (height r)).

Definition with_default (v d : value) : value :=
  if is_undefined v then d else v.

(** The working copy the constructor builds from the configuration [cfg]
    whose resolution holds [w] and [h]. *)
Definition working_copy (cfg : obj) (w h : value) : obj :=
  let d := Util.defaults (Util.defaults ∅ cfg) camera_defaults in
  <["height" := h]>
    (<["width" := w]>
       (<["far" := VNum (ToNumber (get d "far") * metersToVirtualUnit)%float]>
          (<["near" := VNum (ToNumber (get d "near")
                             * metersToVirtualUnit)%float]> d))).

(** The copy of [cfg] handed to the renderer factory for the array camera
    [cam]. *)
Definition renderer_copy (cfg : obj) (cam : Camera) : obj :=
  let o := <["resolution" := userData_imageShape cam]>
             (<["cameraArrayShape" := userData_shape cam]> (Util.clone cfg)) in
  if negb isBrowser && is_string (get cfg "renderer") "main"
  then delete "renderer" o else o.

(** What a block of the constructor leaves alone when all it does to
    plain objects is to write the one at [c]. *)
Definition only_object (c : nat) (W W1 : World R) : Prop :=
  (forall l, l <> c -> objects W1 l = objects W l)
  /\ cameras W1 = cameras W
  /\ renderers W1 = renderers W
  /\ scenes W1 = scenes W
  /\ trace W1 = trace W
  /\ next W1 = S (next W).

(** The camera the single-position branch builds from the working copy
    [o], placed at [camPos]. *)
Definition single_camera (o : obj) (camPos : value) : Camera :=
  set_position camPos
    (Camera_new (get o "fov")
       (ToNumber (get o "width") / ToNumber (get o "height"))%float
       (get o "near") (get o "far")).

(** What a block leaves alone when all it does to the store is to
    create the camera [c] and to call collaborators. *)
Definition only_camera (c : nat) (W W1 : World R) : Prop :=
  objects W1 = objects W
  /\ (forall l, l <> c -> cameras W1 l = cameras W l)
  /\ renderers W1 = renderers W
  /\ scenes W1 = scenes W
  /\ next W1 = S (next W).

(** Whether the constructor resizes: the renderer's size against the
    [width] and [height] properties of the renderer configuration. *)
Definition size_differs (r : R) (props : obj) : bool :=
  differs_from (width r) (get props "width")
  || differs_from (height r) (get props "height").

(** What the constructor leaves alone on every outcome: what existed
    before the call, and the scene states. *)
Definition kept (W W' : World R) : Prop :=
  (next W <= next W')%nat
  /\ (forall l, (l < next W)%nat ->
        objects W' l = objects W l
        /\ cameras W' l = cameras W l
        /\ renderers W' l = renderers W l)
  /\ scenes W' = scenes W.

(** A successful construction, from the configuration [objects W config]:
    [W1] is the store when the renderer factory has just returned, [rc]
    the renderer configuration it was given, [evs] the collaborator calls
    before it. *)
Definition constructed (config : nat) (opts : Opts) (W : World R)
    (this : CameraSensor) (W' : World R) : Prop :=
  let cfg := objects W config in
  let n := next W in
  exists w h isArray W1 rc evs,
    let wc := working_copy cfg w h in
    let r := renderers W1 (renderer this) in
    index (get cfg "resolution") 0 = inr w
    /\ index (get cfg "resolution") 1 = inr h
    /\ length_exceeds (get cfg "position") 1 = inr isArray
    /\ this = {| name := get cfg "name"; config := config;
                 showDebugNode := ToBoolean (opt_showDebugNode opts);
                 camera := S n;
                 renderer := if isArray then S (S (S n)) else S (S n);
                 numFramesRendered := 0 |}
    /\ objects W1 n = wc
    /\ (if isArray then
          rc = S (S n)
          /\ objects W1 rc = renderer_copy cfg (createArrayCamera wc)
          /\ cameras W1 (S n)
             = set_name_and_flag (get cfg "name")
                 (get cfg "isEquirectangular") (createArrayCamera wc)
          /\ evs = [CreateArrayCamera wc]
        else
          rc = config
          /\ exists camPos evs',
               index (get cfg "position") 0 = inr camPos
               /\ cameras W1 (S n)
                  = set_name_and_flag (get cfg "name")
                      (get cfg "isEquirectangular") (single_camera wc camPos)
               /\ evs = NewCamera (get wc "fov")
                          (ToNumber (get wc "width")
                           / ToNumber (get wc "height"))%float
                          (get wc "near") (get wc "far") :: evs')
    /\ (forall e, e ∈ evs -> forall rc' props, e <> GetRenderer rc' props)
    /\ trace W1 = trace W ++ evs ++ [GetRenderer rc (objects W1 rc)]
    /\ r = getRenderer (objects W1 rc) opts
    /\ kept W W1
    /\ W' = if size_differs r (objects W1 rc)
            then resized this (width_of r) (height_of r) W1
            else W1.

(** A value whose properties can be read ([undefined] and [null] throw). *)
Definition has_properties (v : value) : Prop :=
  v <> VUndefined /\ v <> VNull.

(** The resize rule in the words of the specification, for a
    configuration with one position: when the renderer reports the
    width and height of the resolution asked for, nothing is resized at
    construction, that is, [setSize], which starts by logging, is not
    called. *)
Definition spec_resize_rule (config : nat) (opts : Opts) (W : World R) : Prop :=
  returns (CameraSensor_new config opts W) (fun this W' =>
    forall w h evs,
      index (get (objects W config) "resolution") 0 = inr w ->
      index (get (objects W config) "resolution") 1 = inr h ->
      differs_from (width (renderers W' (renderer this))) w = false ->
      differs_from (height (renderers W' (renderer this))) h = false ->
      added W W' evs ->
      forall msg, ConsoleLog msg ∉ evs).


End Vocabulary.

(** ** More vocabulary: encodings, call sequences, frame sequences *)

Section Usage.

Context {R : Type} `{!Host R}.

(** The six encodings [__getFrame] has a case for. *)
Definition encodings : list string :=
  ["rgba"; "gray"; "pngbuf"; "pngfile"; "pngseq"; "screen"].

(** Whether an event is a call of one of the renderer's drawing methods. *)
Definition is_render_call (e : event) : bool :=
  match rendered_state e with Some _ => true | None => false end.

(** Whether an event is a call of a method of the renderer. *)
Definition is_renderer_method (e : event) : bool :=
  match e with
  | RendererSetSize _ _ _ => true
  | _ => is_render_call e
  end.

(** Whether an event is a call of the renderer factory. *)
Definition is_factory_call (e : event) : bool :=
  match e with GetRenderer _ _ => true | _ => false end.

(** The file the "pngfile" encoding writes to. *)
Definition single_file (this : CameraSensor) (st : SceneState) : string :=
  ToString (target_name st (target_of st)) +:+ "_" +:+ ToString (name this)
  +:+ ".png".

(** The sensor with its frame counter at [k]. *)
Definition at_frame (this : CameraSensor) (k : N) : CameraSensor :=
  {| name := name this; config := config this;
     showDebugNode := showDebugNode this; camera := camera this;
     renderer := renderer this; numFramesRendered := k |}.

(** [n] successive [getFrame] calls on one scene state, each on the sensor
    as the call before left it: the frames in order and the sensor after
    the last call. *)
Fixpoint getFrames (n : nat) (this : CameraSensor) (sceneState : nat)
  : M R (list Frame * CameraSensor) :=
  match n with
  | O => ret ([], this)
  | S n' =>
      bind (getFrame this sceneState) (fun '(f, this') =>
      bind (getFrames n' this' sceneState) (fun '(fs, this'') =>
      ret (f :: fs, this'')))
  end.

(** The calls of the single-position branch, in order, on the camera with
    identity [cam]: the constructor, the position copy, [lookAt] when the
    orientation is truthy, and the two matrix updates. *)
Definition camera_calls (fov : value) (asp : float) (near far : value)
    (orientation : value) (cam : nat) (camPos : value) : list event :=
  [NewCamera fov asp near far; PositionCopy cam camPos]
  ++ (if ToBoolean orientation
      then [LookAt cam camPos
              (match index orientation 0 with
               | inr v => v
               | inl _ => VUndefined
               end)]
      else [])
  ++ [UpdateMatrix cam; UpdateProjectionMatrix cam asp].

(** The calls of the single-position branch for the working copy [o]. *)
Definition camera_calls_for (o : obj) (cam : nat) (camPos : value)
  : list event :=
  camera_calls (get o "fov")
    (ToNumber (get o "width") / ToNumber (get o "height"))%float
    (get o "near") (get o "far") (get o "orientation") cam camPos.

End Usage.

(** The number a frame counter field stands for: the decimal number
    written in it, leading zeros and all. *)
Definition frame_number (s : string) : option N :=
  option_map N.of_uint (NilEmpty.uint_of_string s).

(** The gray levels: the values a byte can take. *)
Definition levels : list Z := map Z.of_nat (seq 0 256).

(** ** Examples *)

Example gray_2x1 :
  Gray.pack [255; 255; 255; 255; 10; 200; 30; 0] = [254; 147].
Proof. vm_compute. reflexivity. Qed.

Example padStart_7 : Util.padStart (Js.numeral 7) 5 "0" = "00007".
Proof. reflexivity. Qed.

Example padStart_123456 : Util.padStart (Js.numeral 123456) 5 "0" = "123456".
Proof. reflexivity. Qed.

(** [++] at the end of the exact range: [2^53 - 1] still advances, [2^53]
    stays where it is, and above it the counter moves in steps of the
    spacing of the numbers there. *)
Example increment_seven : Js.increment 7 = 8%N.
Proof. vm_compute. reflexivity. Qed.

Example increment_below : Js.increment (2 ^ 53 - 1) = (2 ^ 53)%N.
Proof. vm_compute. reflexivity. Qed.

Example increment_stuck : Js.increment (2 ^ 53) = (2 ^ 53)%N.
Proof. vm_compute. reflexivity. Qed.

Example increment_above : Js.increment (2 ^ 53 + 2) = (2 ^ 53 + 4)%N.
Proof. vm_compute. reflexivity. Qed.

(** The number for an integer that is not a binary64 value is a
    neighbour of it. *)
Example of_int_rounds :
  Js.truncate (Js.of_int (2 ^ 53 + 1)) = 2 ^ 53
  /\ Js.truncate (Js.of_int (2 ^ 63)) = 2 ^ 63
  /\ Js.as_integer (Js.of_int (2 ^ 63)) = None
  /\ Js.as_integer (Js.of_int 640) = Some 640
  /\ Js.as_integer (Js.of_int (- 2 ^ 53)) = Some (- 2 ^ 53).
Proof. vm_compute. repeat split; reflexivity. Qed.

(** ** Padding with zeros *)

Lemma take_repeat_zero (k : nat) :
  Util.take_string k (Util.repeat_string k "0") = Util.repeat_string k "0".
Proof. induction k as [|k IH]; simpl; [reflexivity | now f_equal]. Qed.

Lemma length_repeat_zero (k : nat) :
  String.length (Util.repeat_string k "0") = k.
Proof. induction k as [|k IH]; simpl; [reflexivity | now f_equal]. Qed.

Lemma length_append (s t : string) :
  String.length (s +:+ t) = (String.length s + String.length t)%nat.
Proof. induction s as [|c s IH]; simpl; [reflexivity | now f_equal]. Qed.

(** A string of at most five characters is padded to exactly five, with
    zeros in front. *)
Lemma padStart_zeros (s : string) :
  (String.length s <= 5)%nat ->
  Util.padStart s 5 "0"
  = Util.repeat_string (5 - String.length s) "0" +:+ s
  /\ String.length (Util.padStart s 5 "0") = 5%nat.
Proof.
  intros Hs. unfold Util.padStart.
  destruct (Nat.leb_spec 5 (String.length s)) as [Hge|Hlt].
  - replace (5 - String.length s)%nat with 0%nat by lia.
    split; [reflexivity | lia].
  - rewrite take_repeat_zero. split; [reflexivity|].
    rewrite length_append, length_repeat_zero. lia.
Qed.

(** ** Facts about the grayscale loop *)

Section GrayFacts.

Lemma shl_two_small (i : Z) : 0 <= i < 2 ^ 29 -> Js.shl i 2 = 4 * i.
Proof.
  intros Hi. unfold Js.shl, Js.ToInt32.
  change (Z.land 2 31) with 2.
  rewrite (Z.mod_small i) by lia.
  replace (i <? 2 ^ 31) with true by (symmetry; apply Z.ltb_lt; lia).
  rewrite Z.shiftl_mul_pow2 by lia.
  rewrite (Z.mod_small (i * 2 ^ 2)) by lia.
  replace (i * 2 ^ 2 <? 2 ^ 31) with true by (symmetry; apply Z.ltb_lt; lia).
  lia.
Qed.

Lemma shl_two_wrapped (i : Z) :
  2 ^ 29 <= i < 2 ^ 30 -> Js.shl i 2 = 4 * i - 2 ^ 32.
Proof.
  intros Hi. unfold Js.shl, Js.ToInt32.
  change (Z.land 2 31) with 2.
  rewrite (Z.mod_small i) by lia.
  replace (i <? 2 ^ 31) with true by (symmetry; apply Z.ltb_lt; lia).
  rewrite Z.shiftl_mul_pow2 by lia.
  rewrite (Z.mod_small (i * 2 ^ 2)) by lia.
  replace (i * 2 ^ 2 <? 2 ^ 31) with false by (symmetry; apply Z.ltb_ge; lia).
  lia.
Qed.

Lemma body_length (p : list Z) (i : Z) : length (Gray.body p i) = length p.
Proof.
  unfold Gray.body, TypedArray.set.
  destruct (i <? 0); [reflexivity | apply length_insert].
Qed.

Lemma loop_length (fuel : nat) (len : Z) :
  forall i p, length (Gray.loop fuel len i p) = length p.
Proof.
  induction fuel as [|fuel IH]; intros i p; simpl; [reflexivity|].
  destruct (4 * i <? len); [|reflexivity].
  rewrite IH. apply body_length.
Qed.

(** An iteration writes element [i] only. *)
Lemma body_other (p : list Z) (i : Z) (k : nat) :
  0 <= i -> k <> Z.to_nat i -> Gray.body p i !! k = p !! k.
Proof.
  intros Hi Hk. unfold Gray.body, TypedArray.set.
  destruct (i <? 0); [reflexivity|].
  apply list_lookup_insert_ne. congruence.
Qed.

(** Iterations from [i] on leave the elements below [i] alone. *)
Lemma loop_below (fuel : nat) (len : Z) :
  forall i p (k : nat),
    0 <= i -> Z.of_nat k < i ->
    Gray.loop fuel len i p !! k = p !! k.
Proof.
  induction fuel as [|fuel IH]; intros i p k Hi Hk; simpl; [reflexivity|].
  destruct (4 * i <? len); [|reflexivity].
  rewrite IH by lia. apply body_other; lia.
Qed.

(** Running [a] iterations and then the rest is running them all, as long
    as the loop condition holds for the first [a]. *)
Lemma loop_split (a : nat) (len : Z) :
  forall fuel i p,
    4 * (i + Z.of_nat a - 1) < len ->
    Gray.loop (a + fuel) len i p
    = Gray.loop fuel len (i + Z.of_nat a) (Gray.loop a len i p).
Proof.
  induction a as [|a IH]; intros fuel i p Hlen.
  - simpl. f_equal. lia.
  - change (S a + fuel)%nat with (S (a + fuel)).
    cbn [Gray.loop].
    replace (4 * i <? len) with true by (symmetry; apply Z.ltb_lt; lia).
    rewrite IH by lia. f_equal. lia.
Qed.

(** The loop condition fails before the fuel runs out: more fuel than the
    array is long changes nothing. *)
Lemma loop_fuel (fuel : nat) (len : Z) :
  forall i p extra,
    0 <= i -> len - 4 * i <= 4 * Z.of_nat fuel ->
    Gray.loop (fuel + extra) len i p = Gray.loop fuel len i p.
Proof.
  induction fuel as [|fuel IH]; intros i p extra Hi Hf.
  - simpl. destruct extra; simpl; [reflexivity|].
    replace (4 * i <? len) with false by (symmetry; apply Z.ltb_ge; lia).
    reflexivity.
  - cbn [Nat.add Gray.loop].
    destruct (4 * i <? len); [|reflexivity].
    apply IH; lia.
Qed.

(** In particular the array's own length is fuel enough. *)
Lemma loop_enough (p : list Z) (extra : nat) :
  Gray.loop (length p + extra) (Z.of_nat (length p)) 0 p
  = Gray.loop (length p) (Z.of_nat (length p)) 0 p.
Proof. apply loop_fuel; lia. Qed.

Lemma inv_init (p0 : list Z) : inv p0 0 p0.
Proof. repeat split; intros; first [lia | reflexivity]. Qed.

Lemma inv_operand (p0 q : list Z) (i k : Z) :
  inv p0 i q -> i <= k -> TypedArray.operand q k = TypedArray.operand p0 k.
Proof.
  intros (_ & _ & Hge) Hk. unfold TypedArray.operand. now rewrite Hge.
Qed.

Lemma body_inv (p0 q : list Z) (i : Z) :
  Z.of_nat (length p0) <= 2 ^ 31 ->
  0 <= i -> 4 * i < Z.of_nat (length p0) ->
  inv p0 i q -> inv p0 (i + 1) (Gray.body q i).
Proof.
  intros Hbound Hi Hlt Hinv.
  assert (Hb : Js.shl i 2 = 4 * i) by (apply shl_two_small; lia).
  pose proof Hinv as (Hlen & Hlow & Hhigh).
  unfold Gray.body. rewrite Hb.
  rewrite (inv_operand p0 q i (4 * i) Hinv) by lia.
  rewrite (inv_operand p0 q i (4 * i + 1) Hinv) by lia.
  rewrite (inv_operand p0 q i (4 * i + 2) Hinv) by lia.
  fold (packed p0 i).
  unfold TypedArray.set.
  replace (i <? 0) with false by (symmetry; apply Z.ltb_ge; lia).
  repeat split.
  - rewrite length_insert. exact Hlen.
  - intros k Hk. destruct (Z.eq_dec k i) as [->|Hne].
    + apply list_lookup_insert_eq. lia.
    + rewrite list_lookup_insert_ne by lia. apply Hlow. lia.
  - intros k Hk. rewrite <- Hhigh by lia.
    unfold TypedArray.get. destruct (k <? 0); [reflexivity|].
    apply list_lookup_insert_ne. lia.
Qed.

Lemma loop_inv (p0 : list Z) (fuel : nat) :
  Z.of_nat (length p0) <= 2 ^ 31 ->
  forall i q,
    0 <= i -> Z.of_nat (length p0) - 4 * i <= 4 * Z.of_nat fuel ->
    inv p0 i q ->
    exists j, i <= j /\ Z.of_nat (length p0) <= 4 * j
              /\ inv p0 j (Gray.loop fuel (Z.of_nat (length p0)) i q).
Proof.
  intros Hbound. induction fuel as [|fuel IH]; intros i q Hi Hf Hinv.
  - exists i. simpl. repeat split; try lia. all: apply Hinv.
  - cbn [Gray.loop]. destruct (Z.ltb_spec (4 * i) (Z.of_nat (length p0))) as [Hlt|Hge].
    + destruct (IH (i + 1) (Gray.body q i)) as (j & Hj & Hend & Hinvj);
        [lia | lia | now apply body_inv |].
      exists j. repeat split; try lia. all: apply Hinvj.
    + exists i. repeat split; try lia. all: apply Hinv.
Qed.

(** Below two gigabytes every output element is the luma of the rendered
    pixel it stands for. *)
Lemma pack_lookup (p : list Z) (k : Z) :
  Z.of_nat (length p) <= 2 ^ 31 ->
  0 <= k -> 4 * k + 3 < Z.of_nat (length p) ->
  Gray.pack p !! Z.to_nat k = Some (packed p k).
Proof.
  intros Hbound Hk Hlt. unfold Gray.pack, TypedArray.slice0.
  destruct (loop_inv p (length p) Hbound 0 p) as (j & Hj & Hend & Hinv);
    [lia | lia | apply inv_init |].
  destruct Hinv as (Hlen & Hlow & _).
  rewrite lookup_take_lt.
  - apply Hlow. lia.
  - assert (Hq : k + 1 <= Z.of_nat (length p) / 4) by (apply Z.div_le_lower_bound; lia).
    lia.
Qed.

Lemma pack_length (p : list Z) :
  length (Gray.pack p) = Z.to_nat (Z.of_nat (length p) / 4).
Proof.
  unfold Gray.pack, TypedArray.slice0.
  rewrite length_take, loop_length.
  assert (Z.of_nat (length p) / 4 <= Z.of_nat (length p)).
  { apply Z.div_le_upper_bound; lia. }
  lia.
Qed.

(** The array before iteration [a], as long as the loop gets that far. *)
Lemma loop_prefix_inv (p0 : list Z) (a : nat) :
  Z.of_nat (length p0) <= 2 ^ 31 ->
  forall i q,
    0 <= i -> 4 * (i + Z.of_nat a - 1) < Z.of_nat (length p0) ->
    inv p0 i q ->
    inv p0 (i + Z.of_nat a) (Gray.loop a (Z.of_nat (length p0)) i q).
Proof.
  intros Hbound. induction a as [|a IH]; intros i q Hi Hlt Hinv.
  - cbn [Gray.loop]. replace (i + Z.of_nat 0) with i by lia. exact Hinv.
  - cbn [Gray.loop].
    replace (4 * i <? Z.of_nat (length p0)) with true
      by (symmetry; apply Z.ltb_lt; lia).
    replace (i + Z.of_nat (S a)) with (i + 1 + Z.of_nat a) by lia.
    apply IH; [lia | lia |]. apply body_inv; [assumption | lia | lia | assumption].
Qed.

(** Past [2^29] the index [i << 2] is negative: the three operands are
    [undefined], their luma is NaN and the element stored is [0]. *)
Lemma body_wrapped (q : list Z) (i : Z) :
  2 ^ 29 <= i < 2 ^ 30 -> (Z.to_nat i < length q)%nat ->
  Gray.body q i !! Z.to_nat i = Some 0.
Proof.
  intros Hi Hlen. unfold Gray.body.
  rewrite shl_two_wrapped by assumption.
  unfold TypedArray.operand, TypedArray.get.
  replace (4 * i - 2 ^ 32 <? 0) with true by (symmetry; apply Z.ltb_lt; lia).
  replace (4 * i - 2 ^ 32 + 1 <? 0) with true by (symmetry; apply Z.ltb_lt; lia).
  replace (4 * i - 2 ^ 32 + 2 <? 0) with true by (symmetry; apply Z.ltb_lt; lia).
  unfold TypedArray.set.
  replace (i <? 0) with false by (symmetry; apply Z.ltb_ge; lia).
  change (Js.ToUint8 (Gray.luma nan nan nan)) with 0.
  now apply list_lookup_insert_eq.
Qed.

Lemma loop_wrapped (p : list Z) (k : Z) :
  2 ^ 29 <= k < 2 ^ 30 -> 4 * k < Z.of_nat (length p) ->
  Gray.loop (length p) (Z.of_nat (length p)) 0 p !! Z.to_nat k = Some 0.
Proof.
  intros Hk Hlt.
  set (len := Z.of_nat (length p)) in *.
  assert (Hfuel : length p = (Z.to_nat k + S (length p - Z.to_nat k - 1))%nat) by lia.
  rewrite Hfuel at 1.
  rewrite loop_split by lia.
  replace (0 + Z.of_nat (Z.to_nat k)) with k by lia.
  cbn [Gray.loop].
  replace (4 * k <? len) with true by (symmetry; apply Z.ltb_lt; lia).
  rewrite loop_below by lia.
  apply body_wrapped; [assumption|].
  rewrite loop_length. lia.
Qed.

Lemma pack_wrapped (p : list Z) (k : Z) :
  2 ^ 29 <= k < 2 ^ 30 -> 4 * k + 3 < Z.of_nat (length p) ->
  Gray.pack p !! Z.to_nat k = Some 0.
Proof.
  intros Hk Hlt. unfold Gray.pack, TypedArray.slice0.
  assert (Hq : k + 1 <= Z.of_nat (length p) / 4)
    by (apply Z.div_le_lower_bound; lia).
  rewrite lookup_take_lt by lia.
  apply loop_wrapped; [assumption | lia].
Qed.

End GrayFacts.

(** ** Numbers made from integers *)

(** Rounding an integer to a number never yields NaN, so that such a
    number is equal to itself under [===]. *)
Section Numbers.

Lemma shr_1_nonneg (mrs : shr_record) : 0 <= shr_m mrs -> 0 <= shr_m (shr_1 mrs).
Proof.
  destruct mrs as [m r s]. cbn. intros Hm.
  destruct m as [|[p|p|]|[p|p|]]; cbn; lia.
Qed.

Lemma iter_shr_1_nonneg (p : positive) :
  forall mrs, 0 <= shr_m mrs -> 0 <= shr_m (SpecFloat.iter_pos shr_1 p mrs).
Proof.
  induction p as [p IH|p IH|]; intros mrs Hm; cbn.
  - apply IH, IH. now apply shr_1_nonneg.
  - now apply IH, IH.
  - now apply shr_1_nonneg.
Qed.

Lemma shr_fexp_nonneg (pr em m e : Z) (l : location) :
  0 <= m -> 0 <= shr_m (fst (shr_fexp pr em m e l)).
Proof.
  intros Hm. unfold shr_fexp, shr.
  assert (H0 : 0 <= shr_m (shr_record_of_loc m l))
    by (destruct l as [|[| |]]; exact Hm).
  destruct (fexp pr em (Zdigits2 m + e) - e); cbn [fst]; try exact H0.
  now apply iter_shr_1_nonneg.
Qed.

Lemma round_nearest_even_nonneg (m : Z) (l : location) :
  0 <= m -> 0 <= round_nearest_even m l.
Proof.
  intros Hm. destruct l as [|[| |]]; cbn; try lia.
  destruct (Z.even m); lia.
Qed.

Lemma binary_round_aux_number (pr em : Z) (sx : bool) (m e : Z) (l : location) :
  0 <= m -> binary_round_aux pr em sx m e l <> S754_nan.
Proof.
  intros Hm. unfold binary_round_aux.
  pose proof (shr_fexp_nonneg pr em m e l Hm) as H1.
  destruct (shr_fexp pr em m e l) as [mrs' e']. cbn [fst] in H1.
  pose proof (shr_fexp_nonneg pr em
                (round_nearest_even (shr_m mrs') (loc_of_shr_record mrs'))
                e' loc_Exact (round_nearest_even_nonneg _ _ H1)) as H2.
  destruct (shr_fexp pr em _ e' loc_Exact) as [mrs'' e'']. cbn [fst] in H2.
  destruct (shr_m mrs''); try lia; try discriminate.
  destruct (e'' <=? em - pr); discriminate.
Qed.

Lemma binary_round_number (pr em : Z) (sx : bool) (m : positive) (e : Z) :
  binary_round pr em sx m e <> S754_nan.
Proof.
  unfold binary_round. destruct (shl_align m e _) as [mz ez].
  apply binary_round_aux_number. lia.
Qed.

Lemma binary_normalize_number (pr em m e : Z) (szero : bool) :
  binary_normalize pr em m e szero <> S754_nan.
Proof.
  destruct m; cbn; [discriminate | apply binary_round_number ..].
Qed.

Lemma SFeqb_refl (s : spec_float) : s <> S754_nan -> SFeqb s s = true.
Proof.
  intros Hs. unfold SFeqb. destruct s as [b|b| |b m e]; try contradiction.
  - reflexivity.
  - now destruct b.
  - cbn. rewrite Z.compare_refl, Pos.compare_cont_refl. now destruct b.
Qed.

Lemma eqb_number (x : float) : Prim2SF x <> S754_nan -> PrimFloat.eqb x x = true.
Proof. intros Hx. rewrite FloatAxioms.eqb_spec. now apply SFeqb_refl. Qed.

Lemma of_uint63_number (n : int) : Prim2SF (of_uint63 n) <> S754_nan.
Proof. rewrite FloatAxioms.of_uint63_spec. apply binary_normalize_number. Qed.

Lemma ldexp_number (x : float) (e : Z) :
  Prim2SF x <> S754_nan -> Prim2SF (Z.ldexp x e) <> S754_nan.
Proof.
  intros Hx. rewrite Z_ldexp_spec. unfold SFldexp.
  destruct (Prim2SF x); try assumption; try discriminate.
  apply binary_round_number.
Qed.

Lemma opp_number (x : float) :
  Prim2SF x <> S754_nan -> Prim2SF (- x) <> S754_nan.
Proof. intros Hx. rewrite FloatAxioms.opp_spec. now destruct (Prim2SF x). Qed.

Lemma of_int_number (z : Z) : Prim2SF (Js.of_int z) <> S754_nan.
Proof.
  unfold Js.of_int.
  pose proof (binary_normalize_number prec emax z 0 false) as Hn.
  destruct (binary_normalize prec emax z 0 false) as [b|b| |b m e];
    try contradiction.
  - destruct b; vm_compute; discriminate.
  - destruct b; vm_compute; discriminate.
  - cbn [SF2Prim].
    assert (Hf : Prim2SF (Z.ldexp (of_uint63 (of_Z (Z.pos m))) e) <> S754_nan)
      by (apply ldexp_number, of_uint63_number).
    destruct b; [now apply opp_number | exact Hf].
Qed.

Lemma of_int_eqb (z : Z) : PrimFloat.eqb (Js.of_int z) (Js.of_int z) = true.
Proof. apply eqb_number, of_int_number. Qed.


Lemma differs_from_own (n : Z) : differs_from n (VNum (Js.of_int n)) = false.
Proof. unfold differs_from. now rewrite of_int_eqb. Qed.

(** An integer up to [2^53] in absolute value is a number: rounding
    leaves it as it is, and its integer part is the integer again. *)

Lemma digits2_pos_iter (k p : positive) :
  digits2_pos (Pos.iter xO p k) = (digits2_pos p + k)%positive.
Proof.
  induction k as [|k IH] using Pos.peano_ind.
  - cbn. lia.
  - rewrite Pos.iter_succ. cbn [digits2_pos]. rewrite IH. lia.
Qed.

Lemma Zpos_iter (k p : positive) :
  Z.pos (Pos.iter xO p k) = Z.pos p * 2 ^ Z.pos k.
Proof.
  induction k as [|k IH] using Pos.peano_ind.
  - cbn. lia.
  - rewrite Pos.iter_succ, Pos2Z.inj_xO, IH, Pos2Z.inj_succ, Z.pow_succ_r by lia.
    lia.
Qed.

Lemma digits2_pos_lower (p : positive) :
  2 ^ (Z.pos (digits2_pos p) - 1) <= Z.pos p.
Proof.
  induction p as [p IH|p IH|]; cbn [digits2_pos]; [| |cbn; lia].
  - rewrite Pos2Z.inj_succ.
    replace (Z.succ (Z.pos (digits2_pos p)) - 1)
      with (Z.succ (Z.pos (digits2_pos p) - 1)) by lia.
    rewrite Z.pow_succ_r by lia. lia.
  - rewrite Pos2Z.inj_succ.
    replace (Z.succ (Z.pos (digits2_pos p)) - 1)
      with (Z.succ (Z.pos (digits2_pos p) - 1)) by lia.
    rewrite Z.pow_succ_r by lia. lia.
Qed.

Lemma digits2_pos_small (p : positive) :
  Z.pos p < 2 ^ 53 -> Z.pos (digits2_pos p) <= 53.
Proof.
  intros Hp. pose proof (digits2_pos_lower p) as Hl.
  destruct (Z.le_gt_cases (Z.pos (digits2_pos p)) 53) as [H|H]; [exact H|].
  assert (2 ^ 53 <= 2 ^ (Z.pos (digits2_pos p) - 1))
    by (apply Z.pow_le_mono_r; lia).
  lia.
Qed.

Lemma binary_round_aux_exact (sx : bool) (m : positive) (e : Z) :
  digits2_pos m = 53%positive -> -1074 <= e <= 971 ->
  binary_round_aux prec emax sx (Z.pos m) e loc_Exact = S754_finite sx m e.
Proof.
  intros Hd He.
  assert (Hf : fexp prec emax (Z.pos 53 + e) - e = 0).
  { unfold fexp, emin, prec, emax. lia. }
  unfold binary_round_aux, shr_fexp. cbn [Zdigits2 shr_record_of_loc].
  rewrite Hd, Hf. cbn [shr shr_m loc_of_shr_record round_nearest_even
                       Zdigits2 shr_record_of_loc].
  rewrite Hd, Hf. cbn [shr shr_m].
  replace (e <=? emax - prec) with true; [reflexivity|].
  symmetry. apply Z.leb_le. unfold emax, prec. lia.
Qed.

Lemma binary_round_exact (sx : bool) (p : positive) :
  Z.pos p < 2 ^ 53 ->
  exists m e,
    binary_round prec emax sx p 0 = S754_finite sx m e
    /\ - 52 <= e <= 0
    /\ Z.pos m = Z.pos p * 2 ^ (- e)
    /\ digits2_pos m = 53%positive.
Proof.
  intros Hp. pose proof (digits2_pos_small p Hp) as Hd.
  unfold binary_round.
  assert (Hf : fexp prec emax (Z.pos (digits2_pos p) + 0)
               = Z.pos (digits2_pos p) - 53).
  { unfold fexp, emin, prec, emax. lia. }
  rewrite Hf. unfold shl_align.
  destruct (Z.pos (digits2_pos p) - 53 - 0) as [|k|k] eqn:Hk; try lia.
  - assert (Hd53 : digits2_pos p = 53%positive) by lia.
    rewrite binary_round_aux_exact by (assumption || lia).
    exists p, 0. repeat split; first [lia | exact Hd53].
  - assert (Hdk : digits2_pos (Pos.iter xO p k) = 53%positive)
      by (rewrite digits2_pos_iter; lia).
    rewrite binary_round_aux_exact by (assumption || lia).
    eexists _, _. split; [reflexivity|]. split; [lia|]. split; [|exact Hdk].
    rewrite Zpos_iter. f_equal. f_equal. lia.
Qed.

Lemma truncate_finite (sx : bool) (m : positive) (e : Z) :
  valid_binary (S754_finite sx m e) = true ->
  Js.truncate (SF2Prim (S754_finite sx m e))
  = if sx then - Z.shiftl (Z.pos m) e else Z.shiftl (Z.pos m) e.
Proof. intros Hv. unfold Js.truncate. now rewrite Prim2SF_SF2Prim. Qed.

Lemma shiftl_exact (p m : positive) (e : Z) :
  - 52 <= e <= 0 -> Z.pos m = Z.pos p * 2 ^ (- e) ->
  Z.shiftl (Z.pos m) e = Z.pos p.
Proof.
  intros He ->. rewrite Z.shiftl_div_pow2 by lia. apply Z.div_mul.
  apply Z.pow_nonzero; lia.
Qed.

Lemma valid_exact (sx : bool) (m : positive) (e : Z) :
  - 52 <= e <= 0 -> digits2_pos m = 53%positive ->
  valid_binary (S754_finite sx m e) = true.
Proof.
  intros He Hd. unfold valid_binary, SpecFloat.valid_binary, bounded, canonical_mantissa.
  rewrite Hd. apply andb_true_iff. split.
  - apply Z.eqb_eq. unfold fexp, emin, prec, emax. lia.
  - apply Z.leb_le. unfold emax, prec. lia.
Qed.

Lemma of_int_exact_below (z : Z) :
  Z.abs z < 2 ^ 53 -> Js.truncate (Js.of_int z) = z.
Proof.
  intros Hz. unfold Js.of_int. destruct z as [|p|p]; [reflexivity| |];
    cbn [binary_normalize].
  - destruct (binary_round_exact false p Hz) as (m & e & -> & He & Hm & Hd).
    rewrite truncate_finite by now apply valid_exact.
    now apply shiftl_exact.
  - destruct (binary_round_exact true p Hz) as (m & e & -> & He & Hm & Hd).
    rewrite truncate_finite by now apply valid_exact.
    rewrite (shiftl_exact p) by assumption. reflexivity.
Qed.

Lemma of_int_exact (z : Z) :
  Js.safe z = true -> Js.truncate (Js.of_int z) = z.
Proof.
  unfold Js.safe. intros Hz. apply Z.leb_le in Hz.
  destruct (Z.eq_dec z (2 ^ 53)) as [->|H1]; [vm_compute; reflexivity|].
  destruct (Z.eq_dec z (- 2 ^ 53)) as [->|H2]; [vm_compute; reflexivity|].
  apply of_int_exact_below. lia.
Qed.

Lemma SFeqb_truncate (s t : spec_float) :
  SFeqb s t = true ->
  match s, t with
  | S754_finite sx m e, S754_finite sy m' e' => sx = sy /\ m = m' /\ e = e'
  | S754_finite _ _ _, _ | _, S754_finite _ _ _ => False
  | _, _ => True
  end.
Proof.
  unfold SFeqb, SFcompare.
  destruct s as [b|b| |sx m e], t as [b'|b'| |sy m' e']; try easy;
    try (match goal with |- context [if ?c then _ else _] => destruct c end;
         discriminate).
  destruct sx, sy; try discriminate;
    (destruct (Z.compare_spec e e') as [->|?|?]; try discriminate);
    (destruct (Pos.compare_cont Eq m m') eqn:Hc; try discriminate);
    apply Pos.compare_eq in Hc; now subst.
Qed.

Lemma eqb_truncate (x y : float) :
  PrimFloat.eqb x y = true -> Js.truncate x = Js.truncate y.
Proof.
  rewrite FloatAxioms.eqb_spec. intros H. apply SFeqb_truncate in H.
  unfold Js.truncate.
  destruct (Prim2SF x) as [b|b| |sx m e], (Prim2SF y) as [b'|b'| |sy m' e'];
    try easy.
  now destruct H as (-> & -> & ->).
Qed.

(** The sum of such a number and 1 is exact as long as it stays below
    [2^53]. *)

Lemma iter_pos_nat {A} (f : A -> A) (p : positive) :
  forall x, SpecFloat.iter_pos f p x = Nat.iter (Pos.to_nat p) f x.
Proof.
  induction p as [p IH|p IH|]; intros x; cbn [SpecFloat.iter_pos].
  - rewrite !IH, Pos2Nat.inj_xI.
    replace (S (2 * Pos.to_nat p)) with (Pos.to_nat p + S (Pos.to_nat p))%nat
      by lia.
    now rewrite Nat.iter_add, Nat.iter_succ_r.
  - rewrite !IH, Pos2Nat.inj_xO.
    replace (2 * Pos.to_nat p)%nat with (Pos.to_nat p + Pos.to_nat p)%nat
      by lia.
    now rewrite Nat.iter_add.
  - reflexivity.
Qed.

Lemma shr_nat (k : nat) :
  forall m,
    Nat.iter k shr_1 (Build_shr_record (Z.pos (Nat.iter k xO m)) false false)
    = Build_shr_record (Z.pos m) false false.
Proof.
  induction k as [|k IH]; intros m; [reflexivity|].
  rewrite Nat.iter_succ_r. cbn [Nat.iter nat_rect shr_1 orb]. apply IH.
Qed.

Lemma shr_exact (k m : positive) :
  SpecFloat.iter_pos shr_1 k
    (Build_shr_record (Z.pos (Pos.iter xO m k)) false false)
  = Build_shr_record (Z.pos m) false false.
Proof.
  rewrite iter_pos_nat, Pos2Nat.inj_iter. apply shr_nat.
Qed.

Lemma binary_round_aux_shift (sx : bool) (S m : positive) (e k : Z) :
  0 <= k -> Z.pos S = Z.pos m * 2 ^ k ->
  digits2_pos m = 53%positive -> -1074 <= e <= 971 ->
  binary_round_aux prec emax sx (Z.pos S) (e - k) loc_Exact
  = S754_finite sx m e.
Proof.
  intros Hk HS Hd He. destruct k as [|kp|kp]; [| |lia].
  - assert (S = m) as -> by lia. rewrite Z.sub_0_r.
    now apply binary_round_aux_exact.
  - assert (S = Pos.iter xO m kp) as ->.
    { apply Pos2Z.inj. now rewrite Zpos_iter. }
    assert (Hf : fexp prec emax (Z.pos (53 + kp) + (e - Z.pos kp))
                 - (e - Z.pos kp) = Z.pos kp).
    { unfold fexp, emin, prec, emax. lia. }
    unfold binary_round_aux, shr_fexp at 1.
    cbn [Zdigits2 shr_record_of_loc].
    rewrite digits2_pos_iter, Hd, Hf. cbn [shr].
    rewrite shr_exact.
    replace (e - Z.pos kp + Z.pos kp) with e by lia.
    assert (Hf0 : fexp prec emax (Z.pos 53 + e) - e = 0).
    { unfold fexp, emin, prec, emax. lia. }
    cbn [shr_m loc_of_shr_record round_nearest_even].
    unfold shr_fexp. cbn [Zdigits2 shr_record_of_loc].
    rewrite Hd, Hf0. cbn [shr shr_m].
    replace (e <=? emax - prec) with true; [reflexivity|].
    symmetry. apply Z.leb_le. unfold emax, prec. lia.
Qed.

Lemma binary_round_shift (sx : bool) (S m : positive) (e k : Z) :
  0 <= k <= 52 -> Z.pos S = Z.pos m * 2 ^ k ->
  digits2_pos m = 53%positive -> e = k - 52 ->
  binary_round prec emax sx S (-52) = S754_finite sx m e.
Proof.
  intros Hk HS Hd He.
  assert (HdS : Z.pos (digits2_pos S) = 53 + k).
  { destruct k as [|kp|kp]; [| |lia].
    - assert (S = m) as -> by lia. rewrite Hd. lia.
    - assert (S = Pos.iter xO m kp) as ->
        by (apply Pos2Z.inj; now rewrite Zpos_iter).
      rewrite digits2_pos_iter, Hd. lia. }
  unfold binary_round.
  assert (Hf : fexp prec emax (Z.pos (digits2_pos S) + -52) = k - 52).
  { rewrite HdS. unfold fexp, emin, prec, emax. lia. }
  rewrite Hf. unfold shl_align.
  destruct (k - 52 - -52) as [|kk|kk] eqn:Hkk; try lia.
  - replace (-52) with (e - k) at 1 by lia.
    apply binary_round_aux_shift; try assumption; lia.
  - replace (-52) with (e - k) at 1 by lia.
    apply binary_round_aux_shift; try assumption; lia.
Qed.

Lemma shl_align_value (m : positive) (e e' : Z) :
  e' <= e ->
  Z.pos (fst (shl_align m e e')) = Z.pos m * 2 ^ (e - e').
Proof.
  intros He. unfold shl_align.
  destruct (e' - e) as [|d|d] eqn:Hd; cbn [fst]; try lia.
  - replace (e - e') with 0 by lia. lia.
  - rewrite Zpos_iter. f_equal. f_equal. lia.
Qed.

Lemma Prim2SF_of_int (sx : bool) (p : positive) :
  Z.pos p < 2 ^ 53 ->
  exists m e,
    Prim2SF (Js.of_int (if sx then Z.neg p else Z.pos p)) = S754_finite sx m e
    /\ - 52 <= e <= 0
    /\ Z.pos m = Z.pos p * 2 ^ (- e)
    /\ digits2_pos m = 53%positive.
Proof.
  intros Hp.
  destruct (binary_round_exact sx p Hp) as (m & e & Hr & He & Hm & Hd).
  exists m, e. unfold Js.of_int.
  replace (binary_normalize prec emax (if sx then Z.neg p else Z.pos p) 0 false)
    with (binary_round prec emax sx p 0) by now destruct sx.
  rewrite Hr, Prim2SF_SF2Prim by now apply valid_exact. auto.
Qed.

Lemma add_one_exact (p : positive) :
  Z.pos p + 1 < 2 ^ 53 ->
  (Js.of_int (Z.pos p) + 1)%float = Js.of_int (Z.pos p + 1).
Proof.
  intros Hp. apply Prim2SF_inj.
  destruct (Prim2SF_of_int false p ltac:(lia)) as (m & e & Hx & He & Hm & Hd).
  destruct (Prim2SF_of_int false (p + 1) ltac:(lia))
    as (m' & e' & Hy & He' & Hm' & Hd').
  cbv iota in Hx, Hy.
  replace (Z.pos p + 1) with (Z.pos (p + 1)) by lia.
  rewrite Hy, FloatAxioms.add_spec, Hx.
  change (Prim2SF 1) with (S754_finite false 4503599627370496 (-52)).
  unfold SF64add, SFadd.
  replace (Z.min e (-52)) with (-52) by lia.
  cbn [cond_Zopp].
  change (fst (shl_align 4503599627370496 (-52) (-52)))
    with 4503599627370496%positive.
  cbn [Z.add binary_normalize].
  apply (binary_round_shift false _ m' e' (52 + e')); try assumption; try lia.
  rewrite Pos2Z.inj_add, shl_align_value by lia.
  rewrite Hm, Hm', <- !Z.mul_assoc, <- !Z.pow_add_r by lia.
  replace (- e + (e - -52)) with 52 by lia.
  replace (- e' + (52 + e')) with 52 by lia.
  lia.
Qed.

Lemma as_integer_of_int (z : Z) :
  Js.safe z = true -> Js.as_integer (Js.of_int z) = Some z.
Proof.
  intros Hz. unfold Js.as_integer. cbv zeta.
  now rewrite (of_int_exact z Hz), of_int_eqb, Hz.
Qed.

(** On such integers [!==] is inequality. *)
Lemma differs_from_integer (n m : Z) :
  Js.safe n = true -> Js.safe m = true ->
  differs_from n (VNum (Js.of_int m)) = negb (n =? m).
Proof.
  intros Hn Hm. unfold differs_from. f_equal.
  destruct (Z.eqb_spec n m) as [->|Hne]; [apply of_int_eqb|].
  destruct (PrimFloat.eqb (Js.of_int n) (Js.of_int m)) eqn:He; [|reflexivity].
  apply eqb_truncate in He. rewrite !of_int_exact in He by assumption.
  contradiction.
Qed.


(** [++] on a counter below [2^53] adds one. *)
Lemma increment_exact (n : N) : (n < 2 ^ 53)%N -> Js.increment n = N.succ n.
Proof.
  intros Hn. unfold Js.increment. destruct n as [|p]; [vm_compute; reflexivity|].
  cbn [Z.of_N].
  destruct (Z.eq_dec (Z.pos p) (2 ^ 53 - 1)) as [Hp|Hp].
  - injection Hp as ->. vm_compute. reflexivity.
  - rewrite add_one_exact, of_int_exact_below by lia. lia.
Qed.

End Numbers.

(** ** Running the methods *)

Section Running.

Context {R : Type} `{!Host R}.

Lemma call_renderer_run {A} (this : CameraSensor) (ss : nat)
    (method : R -> SceneState -> RenderTarget -> Camera -> A * R)
    (ev : nat -> SceneState -> RenderTarget -> nat -> event) (W : World R) :
  let st := scenes W ss in
  let out := method (renderers W (renderer this)) st (target_of st)
               (cameras W (camera this)) in
  call_renderer this ss method ev W
  = Ok out.1
      (with_renderers (<[renderer this := out.2]> (renderers W))
         (with_trace
            (trace W ++ [ev (renderer this) st (target_of st) (camera this)])
            W)).
Proof.
  unfold call_renderer, bind, read_scene, read_renderer, read_camera, emit,
    write_renderer, ret.
  cbn. destruct (method _ _ _ _) as [a r']. reflexivity.
Qed.

Lemma is_string_other (e s : string) : e <> s -> is_string (VStr e) s = false.
Proof. intros Hne. cbn. now apply String.eqb_neq. Qed.

Lemma get_absent (o : obj) (k : string) : o !! k = None -> get o k = VUndefined.
Proof. intros Hk. unfold get. now rewrite Hk. Qed.

Lemma capture_returns (this : CameraSensor) (ss : nat) (W : World R) :
  returns (__getFrame this ss W) (capture_frame this ss W).
Proof.
  unfold __getFrame, bind, ret, read_scene, get_prop, read_object,
    read_renderer, emit.
  cbn -[get is_string Gray.pack String.append call_renderer].
  repeat match goal with
         | |- context [if is_string ?v ?s then _ else _] =>
             destruct (is_string v s)
         end;
    rewrite ?call_renderer_run; cbn -[get Gray.pack String.append];
    repeat split;
    first
      [ solve [intros l Hl; try reflexivity; now apply fn_lookup_insert_ne]
      | solve [eexists; split; [reflexivity|];
               intros e st He Hst; apply list_elem_of_singleton in He;
               subst e; cbn in Hst; congruence]
      | solve [eexists; reflexivity] ].
Qed.

Lemma override_run (this : CameraSensor) (ss : nat) (W : World R) :
  overrideDebugNode this ss W = Ok (saved_visibility ss W) (overridden this ss W).
Proof.
  unfold overrideDebugNode, saved_visibility, overridden, bind, read_scene.
  destruct (debugNode (scenes W ss)); reflexivity.
Qed.

Lemma restore_run (ss : nat) (v : value) (W : World R) :
  restoreDebugNode ss v W = Ok tt (restored ss v W).
Proof.
  unfold restoreDebugNode, restored, bind, read_scene.
  destruct (debugNode (scenes W ss)); reflexivity.
Qed.

(** [getFrame] is the capture run between the two conditionals, with the
    counter advanced. *)
Lemma getFrame_run (this : CameraSensor) (ss : nat) (W : World R) :
  returns (__getFrame this ss (overridden this ss W)) (fun f W2 =>
    capture_frame this ss (overridden this ss W) f W2
    /\ getFrame this ss W
       = Ok (f, count_frame this) (restored ss (saved_visibility ss W) W2)).
Proof.
  pose proof (capture_returns this ss (overridden this ss W)) as Hc.
  unfold getFrame, bind. rewrite override_run.
  destruct (__getFrame this ss (overridden this ss W)) as [f W2|e W2];
    [|contradiction].
  rewrite restore_run. split; [exact Hc | reflexivity].
Qed.

(** The capture for an encoding none of the six cases matches. *)
Lemma capture_invalid (this : CameraSensor) (ss : nat) (W : World R) (e : string) :
  get (objects W (config this)) "encoding" = VStr e ->
  e ∉ ["rgba"; "gray"; "pngbuf"; "pngfile"; "pngseq"; "screen"] ->
  __getFrame this ss W
  = Ok {| type := "color"; data := Other VNull; encoding := VStr e;
          shape := [width (renderers W (renderer this));
                    height (renderers W (renderer this)); 4] |}
       (with_trace (trace W ++ [ConsoleError ("Invalid encoding: " +:+ e)]) W).
Proof.
  intros Henc Hnot.
  rewrite !not_elem_of_cons in Hnot.
  destruct Hnot as (H1 & H2 & H3 & H4 & H5 & H6 & _).
  unfold __getFrame, bind, ret, read_scene, get_prop, read_object,
    read_renderer, emit.
  cbn -[get is_string String.append call_renderer].
  rewrite Henc, !is_string_other by assumption.
  reflexivity.
Qed.

Lemma ToString_of_int (z : Z) :
  Js.safe z = true -> ToString (VNum (Js.of_int z)) = Js.int_numeral z.
Proof.
  intros Hz. cbn [ToString]. unfold NumberToString.
  now rewrite as_integer_of_int.
Qed.

Lemma counter_numeral (n : N) :
  (n <= 2 ^ 53)%N -> CounterToString n = Js.numeral n.
Proof.
  intros Hn. unfold CounterToString, NumberToString.
  rewrite as_integer_of_int by (unfold Js.safe; apply Z.leb_le; lia).
  now destruct n.
Qed.

Lemma capture_pngseq (this : CameraSensor) (ss : nat) (W : World R) :
  get (objects W (config this)) "encoding" = VStr "pngseq" ->
  let st := scenes W ss in
  let out := renderToPng (renderers W (renderer this)) st (target_of st)
               (cameras W (camera this)) (sequence_file this st) in
  __getFrame this ss W
  = Ok {| type := "color"; data := Other out.1; encoding := VStr "pngseq";
          shape := [width out.2; height out.2; 4] |}
       (with_renderers (<[renderer this := out.2]> (renderers W))
          (with_trace
             (trace W ++ [RenderToPng (renderer this) st (target_of st)
                            (camera this) (sequence_file this st)])
             W)).
Proof.
  intros Henc st out.
  unfold __getFrame, bind, ret, read_scene, get_prop, read_object,
    read_renderer, emit.
  cbn -[get is_string String.append call_renderer Util.padStart].
  rewrite Henc. cbn -[get String.append call_renderer Util.padStart].
  rewrite call_renderer_run.
  cbn -[get String.append Util.padStart].
  rewrite fn_lookup_insert. reflexivity.
Qed.

Lemma capture_gray (this : CameraSensor) (ss : nat) (W : World R) :
  get (objects W (config this)) "encoding" = VStr "gray" ->
  let st := scenes W ss in
  let out := renderToRawPixels (renderers W (renderer this)) st (target_of st)
               (cameras W (camera this)) in
  __getFrame this ss W
  = Ok {| type := "color";
          data := Bytes (Gray.pack (TypedArray.elements out.1));
          encoding := VStr "gray";
          shape := [width out.2; height out.2; 1] |}
       (with_renderers (<[renderer this := out.2]> (renderers W))
          (with_trace
             (trace W ++ [RenderToRawPixels (renderer this) st (target_of st)
                            (camera this)])
             W)).
Proof.
  intros Henc st out.
  unfold __getFrame, bind, ret, read_scene, get_prop, read_object,
    read_renderer, emit.
  cbn -[get is_string String.append call_renderer Gray.pack].
  rewrite Henc. cbn -[get String.append call_renderer Gray.pack].
  rewrite call_renderer_run.
  cbn -[get String.append Gray.pack].
  rewrite fn_lookup_insert. reflexivity.
Qed.

Lemma objects_overridden (this : CameraSensor) (ss : nat) (W : World R) :
  objects (overridden this ss W) = objects W.
Proof. unfold overridden. now destruct (debugNode (scenes W ss)). Qed.

Lemma cameras_overridden (this : CameraSensor) (ss : nat) (W : World R) :
  cameras (overridden this ss W) = cameras W.
Proof. unfold overridden. now destruct (debugNode (scenes W ss)). Qed.

Lemma renderers_overridden (this : CameraSensor) (ss : nat) (W : World R) :
  renderers (overridden this ss W) = renderers W.
Proof. unfold overridden. now destruct (debugNode (scenes W ss)). Qed.

Lemma trace_overridden (this : CameraSensor) (ss : nat) (W : World R) :
  trace (overridden this ss W) = trace W.
Proof. unfold overridden. now destruct (debugNode (scenes W ss)). Qed.

Lemma target_overridden (this : CameraSensor) (ss : nat) (W : World R) :
  let st := scenes (overridden this ss W) ss in
  target_of st = target_of (scenes W ss)
  /\ target_name st (target_of st)
     = target_name (scenes W ss) (target_of (scenes W ss)).
Proof.
  unfold overridden. destruct (debugNode (scenes W ss)); cbn; [|easy].
  now rewrite fn_lookup_insert.
Qed.

Lemma objects_restored (ss : nat) (v : value) (W : World R) :
  objects (restored ss v W) = objects W.
Proof. unfold restored. now destruct (debugNode (scenes W ss)). Qed.

Lemma cameras_restored (ss : nat) (v : value) (W : World R) :
  cameras (restored ss v W) = cameras W.
Proof. unfold restored. now destruct (debugNode (scenes W ss)). Qed.

Lemma renderers_restored (ss : nat) (v : value) (W : World R) :
  renderers (restored ss v W) = renderers W.
Proof. unfold restored. now destruct (debugNode (scenes W ss)). Qed.

Lemma trace_restored (ss : nat) (v : value) (W : World R) :
  trace (restored ss v W) = trace W.
Proof. unfold restored. now destruct (debugNode (scenes W ss)). Qed.

End Running.

(** ** Frame capture *)

Section FrameCapture.

Context {R : Type} `{!Host R}.

(** C1. When the configured encoding is a string other than "rgba",
    "gray", "pngbuf", "pngfile", "pngseq" and "screen", [getFrame] returns
    (it does not throw) the record with type "color", data [null], the
    requested encoding and shape [renderer.width, renderer.height, 4];
    the error is only logged: the one event of the call is a
    [console.error], and the renderer is not called. *)
Theorem getFrame_invalid_encoding
    (this : CameraSensor) (ss : nat) (W : World R) (e : string) :
  get (objects W (config this)) "encoding" = VStr e ->
  e ∉ ["rgba"; "gray"; "pngbuf"; "pngfile"; "pngseq"; "screen"] ->
  returns (getFrame this ss W) (fun '(f, _) W' =>
    f = {| type := "color"; data := Other VNull; encoding := VStr e;
           shape := [width (renderers W (renderer this));
                     height (renderers W (renderer this)); 4] |}
    /\ added W W' [ConsoleError ("Invalid encoding: " +:+ e)]
    /\ renderers W' = renderers W).
Proof.
  intros Henc Hnot.
  pose proof (getFrame_run this ss W) as Hrun.
  rewrite capture_invalid with (e := e) in Hrun
    by (rewrite ?objects_overridden; assumption).
  destruct Hrun as [_ ->]. cbn. unfold added.
  rewrite renderers_restored, trace_restored. cbn.
  rewrite renderers_overridden, trace_overridden. auto.
Qed.


(** C10. [getFrame] assigns no field of the sensor but the frame counter:
    name, configuration, debug flag, camera and renderer are the same
    references afterwards, and the configuration object and the cameras
    are as they were; and when the scene state carries no debug node, no
    scene state is written at all. *)
Theorem getFrame_writes (this : CameraSensor) (ss : nat) (W : World R) :
  returns (getFrame this ss W) (fun '(_, this') W' =>
    (debugNode (scenes W ss) = None -> scenes W' = scenes W)
    /\ name this' = name this
    /\ config this' = config this
    /\ showDebugNode this' = showDebugNode this
    /\ camera this' = camera this
    /\ renderer this' = renderer this
    /\ numFramesRendered this' = Js.increment (numFramesRendered this)
    /\ objects W' = objects W
    /\ cameras W' = cameras W).
Proof.
  pose proof (getFrame_run this ss W) as Hrun.
  destruct (__getFrame this ss (overridden this ss W)) as [f W2|];
    [|contradiction].
  destruct Hrun as [Hcap ->]. cbn.
  destruct Hcap as (Hsc & Hob & Hcam & _).
  repeat split.
  - intros Hnone. unfold restored. rewrite Hsc.
    unfold overridden. rewrite Hnone. cbn. rewrite Hnone.
    rewrite Hsc. unfold overridden. now rewrite Hnone.
  - now rewrite objects_restored, Hob, objects_overridden.
  - now rewrite cameras_restored, Hcam, cameras_overridden.
Qed.

(** C8. [getShape] is [renderer.width, renderer.height, 4] for every
    sensor and store, so whatever the encoding; [getDataRange] is
    [0, 255]; [getMetadata] reports the data type "uint8" when the
    configuration has no [datatype]; and for the "gray" encoding the frame
    [getFrame] returns has the same width and height in its shape but 1
    as channel count, where [getShape] right after has 4. *)
Theorem getShape_and_metadata (this : CameraSensor) (W : World R) :
  getShape this W
  = Ok [width (renderers W (renderer this));
        height (renderers W (renderer this)); 4] W
  /\ getDataRange this = [0; 255]
  /\ (objects W (config this) !! "datatype" = None ->
      returns (getMetadata this W) (fun md _ => md_dataType md = VStr "uint8"))
  /\ (forall ss,
        get (objects W (config this)) "encoding" = VStr "gray" ->
        returns (getFrame this ss W) (fun '(f, this') W' =>
          exists w h,
            shape f = [w; h; 1]
            /\ getShape this' W' = Ok [w; h; 4] W')).
Proof.
  split; [reflexivity|]. split; [reflexivity|]. split.
  - intros Habsent. unfold getMetadata, getShape, bind, read_object,
      read_renderer, ret. cbn -[get].
    now rewrite (get_absent _ _ Habsent).
  - intros ss Henc.
    pose proof (getFrame_run this ss W) as Hrun.
    rewrite capture_gray in Hrun by (rewrite objects_overridden; assumption).
    destruct Hrun as [_ ->]. cbn -[Gray.pack].
    eexists _, _. split; [reflexivity|].
    unfold getShape, bind, read_renderer, ret. cbn.
    rewrite renderers_restored. cbn. now rewrite fn_lookup_insert.
Qed.

End FrameCapture.

(** ** Resizing *)

Section Resize.

Context {R : Type} `{!Host R}.

Lemma setSize_run (this : CameraSensor) (w h : value) (W : World R) :
  setSize this w h W = Ok tt (resized this w h W).
Proof.
  unfold setSize, resized, resize_events, bind, ret, emit, read_camera,
    write_camera, read_renderer, write_renderer.
  cbn -[String.append ToString ToNumber differs_from].
  destruct (isArrayCamera (cameras W (camera this)));
    cbn -[String.append ToString ToNumber differs_from];
    destruct (differs_from (width (renderers W (renderer this))) w
              || differs_from (height (renderers W (renderer this))) h);
    cbn -[String.append ToString ToNumber differs_from];
    rewrite <- ?app_assoc; reflexivity.
Qed.

(** C7. For any two values as width and height, [setSize(width, height)]
    returns nothing; it sets the camera's aspect to width / height, the
    quotient of the two as numbers, and then recomputes its projection,
    for an array camera it also hands the two values to the sub-cameras,
    and it calls the renderer's [setSize] exactly when the renderer's
    width or height is not ([!==]) the requested one.  The renderer's own
    width and height do not differ from themselves: called with them,
    [setSize] leaves every renderer as it is and still updates the
    camera.  For integers up to 2^53 on both sides, [!==] is inequality
    of the integers, the log line shows them in decimal and the aspect
    is their quotient. *)
Theorem setSize_effects (this : CameraSensor) (w h : value) (W : World R) :
  let r := renderers W (renderer this) in
  let cam := cameras W (camera this) in
  let a := (ToNumber w / ToNumber h)%float in
  let log := ConsoleLog ("resize sensor " +:+ ToString (name this) +:+ " to "
                         +:+ ToString w +:+ "x" +:+ ToString h) in
  let differs := differs_from (width r) w = true
                 \/ differs_from (height r) h = true in
  returns (setSize this w h W) (fun (_ : unit) W' =>
    aspect (cameras W' (camera this)) = a
    /\ isArrayCamera (cameras W' (camera this)) = isArrayCamera cam
    /\ (exists evs,
          added W W' ([log; UpdateProjectionMatrix (camera this) a] ++ evs)
          /\ (ResizeCameras (camera this) w h ∈ evs
              <-> isArrayCamera cam = true)
          /\ (RendererSetSize (renderer this) w h ∈ evs <-> differs)
          /\ forall e, e ∈ evs ->
               e = ResizeCameras (camera this) w h
               \/ e = RendererSetSize (renderer this) w h)
    /\ (differs -> renderers W' (renderer this) = rendererSetSize r w h)
    /\ (~ differs -> renderers W' = renderers W))
  /\ differs_from (width r) (width_of r) = false
  /\ differs_from (height r) (height_of r) = false
  /\ returns (setSize this (width_of r) (height_of r) W) (fun (_ : unit) W' =>
       renderers W' = renderers W
       /\ aspect (cameras W' (camera this))
          = (Js.of_int (width r) / Js.of_int (height r))%float
       /\ exists msg evs,
            added W W'
              ([ConsoleLog msg;
                UpdateProjectionMatrix (camera this)
                  (Js.of_int (width r) / Js.of_int (height r))%float] ++ evs)
            /\ forall rr w' h', RendererSetSize rr w' h' ∉ evs)
  /\ (forall wz hz : Z,
        w = VNum (Js.of_int wz) -> h = VNum (Js.of_int hz) ->
        Js.safe wz = true -> Js.safe hz = true ->
        Js.safe (width r) = true -> Js.safe (height r) = true ->
        (differs <-> width r <> wz \/ height r <> hz)
        /\ log = ConsoleLog ("resize sensor " +:+ ToString (name this)
                             +:+ " to " +:+ Js.int_numeral wz
                             +:+ "x" +:+ Js.int_numeral hz)
        /\ a = (Js.of_int wz / Js.of_int hz)%float).
Proof.
  intros r cam a log differs.
  split; [|split; [apply differs_from_own|split; [apply differs_from_own|]]];
    [| split].
  3:{ intros wz hz Hw Hh Sw Sh Srw Srh. unfold differs, log, a.
      rewrite Hw, Hh. rewrite !differs_from_integer by assumption.
      rewrite !ToString_of_int by assumption.
      rewrite !negb_true_iff, !Z.eqb_neq. now repeat split. }
  - rewrite setSize_run. cbv beta iota delta [returns].
    unfold resized, resize_events. fold r cam a log.
    assert (Hiff : differs_from (width r) w || differs_from (height r) h = true
                   <-> differs).
    { unfold differs. apply orb_true_iff. }
    destruct (differs_from (width r) w || differs_from (height r) h) eqn:Hre;
      cbn [cameras renderers trace with_cameras with_renderers with_trace];
      rewrite fn_lookup_insert;
      (split; [reflexivity|]); (split; [reflexivity|]); split.
    + eexists. split; [reflexivity|].
      destruct (isArrayCamera cam); cbn [app]; repeat split; intros;
        rewrite ?elem_of_cons, ?elem_of_nil in *; destruct Hiff;
        intuition congruence.
    + split; [intros _; apply fn_lookup_insert|].
      intros Hno. destruct Hiff as [Hiff _]. now destruct (Hno (Hiff eq_refl)).
    + eexists. split; [reflexivity|].
      destruct (isArrayCamera cam); cbn [app]; repeat split; intros;
        rewrite ?elem_of_cons, ?elem_of_nil in *; destruct Hiff;
        intuition congruence.
    + split; [|reflexivity].
      intros Hd. destruct Hiff as [_ Hiff]. now specialize (Hiff Hd).
  - rewrite setSize_run. cbv beta iota delta [returns].
    unfold resized, resize_events. fold r cam.
    unfold width_of, height_of. fold r.
    rewrite !differs_from_own.
    cbn [orb cameras renderers trace with_cameras with_renderers with_trace
         ToNumber].
    rewrite fn_lookup_insert.
    split; [reflexivity|]. split; [reflexivity|].
    eexists _, _. split; [reflexivity|].
    intros rr w' h' Hin.
    destruct (isArrayCamera cam); cbn [app] in Hin;
      rewrite ?elem_of_cons, ?elem_of_nil in Hin; intuition congruence.
Qed.

End Resize.

(** ** Construction *)

Section Stepping.

Context {R : Type} `{!Host R}.

Lemma run_bind_ret {A B} (a : A) (k : A -> M R B) (W : World R) :
  bind (ret a) k W = k a W.
Proof. reflexivity. Qed.

Lemma run_bind_bind {A B C} (m : M R A) (k1 : A -> M R B) (k2 : B -> M R C)
    (W : World R) :
  bind (bind m k1) k2 W = bind m (fun a => bind (k1 a) k2) W.
Proof. unfold bind. now destruct (m W). Qed.

Lemma run_get_prop {B} (l : nat) (key : string) (k : value -> M R B)
    (W : World R) :
  bind (get_prop l key) k W = k (get (objects W l) key) W.
Proof. reflexivity. Qed.

Lemma run_set_prop {B} (l : nat) (key : string) (v : value)
    (k : unit -> M R B) (W : World R) :
  bind (set_prop l key v) k W
  = k tt (with_objects (<[l := <[key := v]> (objects W l)]> (objects W)) W).
Proof. reflexivity. Qed.

Lemma run_delete_prop {B} (l : nat) (key : string) (k : unit -> M R B)
    (W : World R) :
  bind (delete_prop l key) k W
  = k tt (with_objects (<[l := delete key (objects W l)]> (objects W)) W).
Proof. reflexivity. Qed.

Lemma run_read_object {B} (l : nat) (k : obj -> M R B) (W : World R) :
  bind (read_object l) k W = k (objects W l) W.
Proof. reflexivity. Qed.

Lemma run_write_object {B} (l : nat) (o : obj) (k : unit -> M R B)
    (W : World R) :
  bind (write_object l o) k W
  = k tt (with_objects (<[l := o]> (objects W)) W).
Proof. reflexivity. Qed.

Lemma run_read_camera {B} (l : nat) (k : Camera -> M R B) (W : World R) :
  bind (read_camera l) k W = k (cameras W l) W.
Proof. reflexivity. Qed.

Lemma run_write_camera {B} (l : nat) (c : Camera) (k : unit -> M R B)
    (W : World R) :
  bind (write_camera l c) k W
  = k tt (with_cameras (<[l := c]> (cameras W)) W).
Proof. reflexivity. Qed.

Lemma run_read_renderer {B} (l : nat) (k : R -> M R B) (W : World R) :
  bind (read_renderer l) k W = k (renderers W l) W.
Proof. reflexivity. Qed.

Lemma run_write_renderer {B} (l : nat) (r : R) (k : unit -> M R B)
    (W : World R) :
  bind (write_renderer l r) k W
  = k tt (with_renderers (<[l := r]> (renderers W)) W).
Proof. reflexivity. Qed.

Lemma run_fresh {B} (k : nat -> M R B) (W : World R) :
  bind fresh k W = k (next W) (with_next (S (next W)) W).
Proof. reflexivity. Qed.

Lemma run_emit {B} (e : event) (k : unit -> M R B) (W : World R) :
  bind (emit e) k W = k tt (with_trace (trace W ++ [e]) W).
Proof. reflexivity. Qed.

Lemma run_lift_inr {A B} (a : A) (k : A -> M R B) (W : World R) :
  bind (lift (inr a)) k W = k a W.
Proof. reflexivity. Qed.

Lemma run_lift_inl {A B} (e : exn) (k : A -> M R B) (W : World R) :
  bind (lift (inl e)) k W = Throw e W.
Proof. reflexivity. Qed.

Lemma get_insert (o : obj) (k : string) (v : value) : get (<[k := v]> o) k = v.
Proof. unfold get. now rewrite lookup_insert_eq. Qed.

Lemma get_insert_ne (o : obj) (k k' : string) (v : value) :
  k <> k' -> get (<[k := v]> o) k' = get o k'.
Proof. intros Hne. unfold get. now rewrite lookup_insert_ne. Qed.

Lemma get_delete_ne (o : obj) (k k' : string) :
  k <> k' -> get (delete k o) k' = get o k'.
Proof. intros Hne. unfold get. now rewrite lookup_delete_ne. Qed.

Lemma get_empty (k : string) : get ∅ k = VUndefined.
Proof. reflexivity. Qed.

Lemma is_undefined_eq (v : value) : is_undefined v = true -> v = VUndefined.
Proof. now destruct v. Qed.

(** A property filled in by [_.defaults] is the destination's unless that
    is [undefined], and then the source's. *)
Lemma get_defaults (dest src : obj) (k : string) :
  get (Util.defaults dest src) k
  = if is_undefined (get dest k) then get src k else get dest k.
Proof.
  unfold get, Util.defaults. rewrite lookup_merge.
  destruct (dest !! k) as [v|], (src !! k) as [sv|]; cbn;
    try destruct (is_undefined v) eqn:Hv; cbn; try reflexivity.
  now apply is_undefined_eq in Hv.
Qed.

End Stepping.

Ltac run :=
  repeat (first
    [ rewrite run_bind_ret | rewrite run_get_prop | rewrite run_set_prop
    | rewrite run_delete_prop | rewrite run_read_object
    | rewrite run_write_object | rewrite run_read_camera
    | rewrite run_write_camera | rewrite run_read_renderer
    | rewrite run_write_renderer | rewrite run_fresh | rewrite run_emit
    | rewrite run_lift_inr | rewrite run_lift_inl | rewrite run_bind_bind ];
    cbv beta delta [with_objects with_cameras with_renderers with_scenes
                    with_next with_trace];
    cbn [objects cameras renderers scenes next trace];
    rewrite ?fn_lookup_insert).

Section Construction.

Context {R : Type} `{!Host R}.

Lemma index_throws (v : value) (i : nat) (e : exn) :
  index v i = inl e -> v = VUndefined \/ v = VNull.
Proof. destruct v; cbn; intros Hi; try discriminate; auto. Qed.

Lemma index_returns (v : value) (i j : nat) (x : value) :
  index v i = inr x -> exists y, index v j = inr y.
Proof. destruct v; cbn; intros Hi; try discriminate; eauto. Qed.

Lemma length_exceeds_throws (v : value) (n : nat) (e : exn) :
  length_exceeds v n = inl e -> v = VUndefined \/ v = VNull.
Proof. destruct v; cbn; intros Hi; try discriminate; auto. Qed.

Lemma length_exceeds_index (v : value) (n i : nat) (b : bool) :
  length_exceeds v n = inr b -> exists y, index v i = inr y.
Proof. destruct v; cbn; intros Hi; try discriminate; eauto. Qed.

Lemma truthy_index (v : value) (i : nat) :
  ToBoolean v = true -> exists y, index v i = inr y.
Proof. destruct v; cbn; intros Hi; try discriminate; eauto. Qed.

Lemma get_filled (cfg : obj) (k : string) :
  get (Util.defaults (Util.defaults ∅ cfg) camera_defaults) k
  = with_default (get cfg k) (get camera_defaults k).
Proof. now rewrite !get_defaults, get_empty. Qed.

Lemma with_default_undefined (v : value) : with_default v VUndefined = v.
Proof. unfold with_default. destruct v; reflexivity. Qed.

Lemma cameraConfigFor_run (config : nat) (W : World R) :
  let cfg := objects W config in
  let res := get cfg "resolution" in
  match cameraConfigFor config W with
  | Ok c W1 =>
      c = next W
      /\ (exists w h,
            index res 0 = inr w /\ index res 1 = inr h
            /\ objects W1 c = working_copy cfg w h)
      /\ only_object (next W) W W1
  | Throw e W1 =>
      (res = VUndefined \/ res = VNull) /\ only_object (next W) W W1
  end.
Proof.
  intros cfg res. unfold cameraConfigFor. run.
  rewrite !get_insert_ne by discriminate.
  rewrite (get_filled _ "resolution"). change (get camera_defaults "resolution")
    with VUndefined. rewrite with_default_undefined. fold cfg res.
  assert (Hframe : forall f : nat -> obj,
            (forall l, l <> next W -> f l = objects W l) ->
            only_object (next W) W
              {| objects := f; cameras := cameras W; renderers := renderers W;
                 scenes := scenes W; next := S (next W); trace := trace W |}).
  { intros f Hf. repeat split. exact Hf. }
  destruct (index res 0) as [e|w] eqn:Hw.
  - rewrite run_lift_inl. split; [now apply index_throws in Hw|].
    apply Hframe. intros l Hl. now rewrite !fn_lookup_insert_ne by congruence.
  - destruct (index_returns res 0 1 w Hw) as [h Hh].
    run. rewrite !get_insert_ne by discriminate.
    rewrite (get_filled _ "resolution"). change (get camera_defaults "resolution")
      with VUndefined. rewrite with_default_undefined. fold cfg res.
    rewrite Hh. run. unfold ret.
    split; [reflexivity|]. split.
    + exists w, h. repeat split. cbn [objects]. now rewrite fn_lookup_insert.
    + apply Hframe. intros l Hl.
      now rewrite !fn_lookup_insert_ne by congruence.
Qed.

Lemma arrayCameraFor_run (config cameraConfig : nat) (W : World R) :
  let cam := createArrayCamera (objects W cameraConfig) in
  exists W1,
    arrayCameraFor config cameraConfig W = Ok (next W, S (next W)) W1
    /\ cameras W1 (next W) = cam
    /\ (forall l, l <> next W -> cameras W1 l = cameras W l)
    /\ objects W1 (S (next W)) = renderer_copy (objects W config) cam
    /\ (forall l, l <> S (next W) -> objects W1 l = objects W l)
    /\ renderers W1 = renderers W
    /\ scenes W1 = scenes W
    /\ trace W1 = trace W ++ [CreateArrayCamera (objects W cameraConfig)]
    /\ next W1 = S (S (next W)).
Proof.
  intros cam. unfold arrayCameraFor. run.
  rewrite !get_insert_ne by discriminate. unfold renderer_copy, Util.clone.
  fold cam.
  destruct (negb isBrowser && is_string (get (objects W config) "renderer") "main");
    run; unfold ret; eexists; (split; [reflexivity|]); cbn;
    rewrite ?fn_lookup_insert; repeat split;
    intros l Hl; now rewrite !fn_lookup_insert_ne by congruence.
Qed.

Lemma singleCameraFor_run (config cameraConfig : nat) (W : World R) :
  let o := objects W cameraConfig in
  match singleCameraFor config cameraConfig W with
  | Ok (cam, rc) W1 =>
      cam = next W /\ rc = config
      /\ (exists camPos evs,
            index (get o "position") 0 = inr camPos
            /\ cameras W1 cam = single_camera o camPos
            /\ trace W1
               = trace W
                 ++ NewCamera (get o "fov")
                      (ToNumber (get o "width") / ToNumber (get o "height"))%float
                      (get o "near") (get o "far") :: evs
            /\ forall e, e ∈ evs -> forall rc' props, e <> GetRenderer rc' props)
      /\ only_camera (next W) W W1
  | Throw e W1 =>
      (get o "position" = VUndefined \/ get o "position" = VNull)
      /\ only_camera (next W) W W1
  end.
Proof.
  intros o. unfold singleCameraFor. run. fold o.
  assert (Hframe : forall (f : nat -> Camera) t,
            (forall l, l <> next W -> f l = cameras W l) ->
            only_camera (next W) W
              {| objects := objects W; cameras := f; renderers := renderers W;
                 scenes := scenes W; next := S (next W); trace := t |}).
  { intros f t Hf. repeat split. exact Hf. }
  destruct (index (get o "position") 0) as [e|camPos] eqn:Hpos.
  - rewrite run_lift_inl. split; [now apply index_throws in Hpos|].
    apply Hframe. intros l Hl. now rewrite !fn_lookup_insert_ne by congruence.
  - run. fold o.
    destruct (ToBoolean (get o "orientation")) eqn:Hori.
    + destruct (truthy_index _ 0 Hori) as [o0 Ho0].
      run. fold o. rewrite Ho0. run. unfold ret.
      split; [reflexivity|]. split; [reflexivity|]. split.
      * exists camPos. eexists. split; [reflexivity|]. cbn [cameras trace].
        rewrite fn_lookup_insert. split; [reflexivity|].
        rewrite <- !app_assoc. split; [reflexivity|].
        intros e He rc' props. cbn [app] in He.
        rewrite !elem_of_cons, elem_of_nil in He. intuition congruence.
      * apply Hframe. intros l Hl.
        now rewrite !fn_lookup_insert_ne by congruence.
    + run. unfold ret.
      split; [reflexivity|]. split; [reflexivity|]. split.
      * exists camPos. eexists. split; [reflexivity|]. cbn [cameras trace].
        rewrite fn_lookup_insert. split; [reflexivity|].
        rewrite <- !app_assoc. split; [reflexivity|].
        intros e He rc' props. cbn [app] in He.
        rewrite !elem_of_cons, elem_of_nil in He. intuition congruence.
      * apply Hframe. intros l Hl.
        now rewrite !fn_lookup_insert_ne by congruence.
Qed.

Lemma obtainRenderer_run (rendererConfig : nat) (opts : Opts) (W : World R) :
  exists W1,
    obtainRenderer rendererConfig opts W = Ok (next W) W1
    /\ renderers W1 (next W) = getRenderer (objects W rendererConfig) opts
    /\ (forall l, l <> next W -> renderers W1 l = renderers W l)
    /\ objects W1 = objects W
    /\ cameras W1 = cameras W
    /\ scenes W1 = scenes W
    /\ trace W1
       = trace W ++ [GetRenderer rendererConfig (objects W rendererConfig)]
    /\ next W1 = S (next W).
Proof.
  unfold obtainRenderer. run. unfold ret. eexists. split; [reflexivity|].
  cbn. rewrite fn_lookup_insert. repeat split.
  intros l Hl. now rewrite fn_lookup_insert_ne by congruence.
Qed.

Lemma reconcileSize_run (this : CameraSensor) (rendererConfig : nat)
    (W : World R) :
  let r := renderers W (renderer this) in
  reconcileSize this rendererConfig W
  = if size_differs r (objects W rendererConfig)
    then setSize this (width_of r) (height_of r) W
    else Ok tt W.
Proof.
  intros r. unfold reconcileSize, size_differs. run. fold r.
  destruct (differs_from (width r) (get (objects W rendererConfig) "width")
            || differs_from (height r) (get (objects W rendererConfig) "height"));
    [|reflexivity].
  unfold bind, read_renderer. reflexivity.
Qed.

Lemma get_working_copy (cfg : obj) (w h : value) (k : string) :
  k <> "height" -> k <> "width" -> k <> "far" -> k <> "near" ->
  get (working_copy cfg w h) k
  = with_default (get cfg k) (get camera_defaults k).
Proof.
  intros H1 H2 H3 H4. unfold working_copy.
  rewrite !get_insert_ne by congruence. apply get_filled.
Qed.

Lemma get_working_copy_plain (cfg : obj) (w h : value) (k : string) :
  k <> "height" -> k <> "width" -> k <> "far" -> k <> "near" ->
  get camera_defaults k = VUndefined ->
  get (working_copy cfg w h) k = get cfg k.
Proof.
  intros H1 H2 H3 H4 Hk. rewrite get_working_copy by assumption.
  rewrite Hk. apply with_default_undefined.
Qed.

End Construction.

Section Built.

Context {R : Type} `{!Host R}.

Lemma kept_resized (this : CameraSensor) (w h : value) (W W1 : World R) :
  (next W <= camera this)%nat -> (next W <= renderer this)%nat ->
  kept W W1 -> kept W (resized this w h W1).
Proof.
  intros Hc Hr (Hn & Hl & Hs). unfold resized.
  destruct (differs_from (width (renderers W1 (renderer this))) w
            || differs_from (height (renderers W1 (renderer this))) h);
    repeat split; cbn; try assumption; try apply Hl; try assumption;
    rewrite fn_lookup_insert_ne by lia; now apply Hl.
Qed.

Lemma construction_run (config : nat) (opts : Opts) (W : World R) :
  (config < next W)%nat ->
  let cfg := objects W config in
  match CameraSensor_new config opts W with
  | Ok this W' => constructed config opts W this W'
  | Throw e W' =>
      (get cfg "resolution" = VUndefined \/ get cfg "resolution" = VNull
       \/ get cfg "position" = VUndefined \/ get cfg "position" = VNull)
      /\ kept W W'
  end.
Proof.
  intros Hlt cfg.
  unfold CameraSensor_new, Sensor_call. run. fold cfg.
  unfold bind at 1.
  pose proof (cameraConfigFor_run config W) as H1. cbv zeta in H1. fold cfg in H1.
  destruct (cameraConfigFor config W) as [c W1|e W1].
  2:{ destruct H1 as (Hres & Hobj & Hcam & Hren & Hsc & Htr & Hnx).
      split; [tauto|].
      repeat split; try lia; try congruence. apply Hobj. lia. }
  destruct H1 as (-> & (w & h & Hw & Hh & Hwc) & Hobj & Hcam & Hren & Hsc & Htr & Hnx).
  assert (Hcfg1 : objects W1 config = cfg) by (apply Hobj; lia).
  run. rewrite Hwc.
  rewrite get_working_copy_plain by (discriminate || reflexivity). fold cfg.
  destruct (length_exceeds (get cfg "position") 1) as [e|isArray] eqn:Hpos.
  { rewrite run_lift_inl. split; [apply length_exceeds_throws in Hpos; tauto|].
    repeat split; try lia; try congruence. apply Hobj. lia. }
  run.
  destruct isArray.
  - unfold bind at 1.
    destruct (arrayCameraFor_run config (next W) W1)
      as (W2 & -> & Hc2 & Hcs2 & Ho2 & Hos2 & Hr2 & Hs2 & Ht2 & Hn2).
    rewrite Hwc, Hcfg1, Hnx in *.
    assert (Hcfg2 : objects W2 config = cfg)
      by (rewrite Hos2 by lia; exact Hcfg1).
    assert (Hwc2 : objects W2 (next W) = working_copy cfg w h)
      by (rewrite Hos2 by lia; exact Hwc).
    run. rewrite Hcfg2, Hwc2.
    rewrite get_working_copy_plain by (discriminate || reflexivity).
    fold cfg.
    unfold bind at 1.
    match goal with
    | |- context [obtainRenderer ?rc ?o ?W3] =>
        destruct (obtainRenderer_run rc o W3)
          as (W4 & -> & Hr4 & Hrs4 & Ho4 & Hc4 & Hs4 & Ht4 & Hn4)
    end.
    cbn [objects cameras renderers scenes next trace] in *.
    unfold bind at 1. rewrite reconcileSize_run. cbn [renderer].
    rewrite Hn2 in *.
    assert (Hk : kept W W4).
    { repeat split; try lia; try congruence.
      - rewrite Ho4, Hos2 by lia. apply Hobj. lia.
      - rewrite Hc4, fn_lookup_insert_ne, Hcs2 by lia. congruence.
      - rewrite Hrs4 by lia. congruence. }
    assert (Hbuilt : forall W',
      W' = (if size_differs (renderers W4 (S (S (S (next W)))))
                 (objects W4 (S (S (next W))))
            then resized
                   {| name := get cfg "name"; config := config;
                      showDebugNode := ToBoolean (opt_showDebugNode opts);
                      camera := S (next W); renderer := S (S (S (next W)));
                      numFramesRendered := 0 |}
                   (width_of (renderers W4 (S (S (S (next W))))))
                   (height_of (renderers W4 (S (S (S (next W)))))) W4
            else W4) ->
      constructed config opts W
        {| name := get cfg "name"; config := config;
           showDebugNode := ToBoolean (opt_showDebugNode opts);
           camera := S (next W); renderer := S (S (S (next W)));
           numFramesRendered := 0 |} W').
    { intros W' HW'. exists w, h, true, W4, (S (S (next W))).
      exists [CreateArrayCamera (working_copy cfg w h)].
      cbn [renderer]. fold cfg.
      split; [assumption|]. split; [assumption|]. split; [assumption|].
      split; [reflexivity|].
      split; [rewrite Ho4; exact Hwc2|].
      split.
      { split; [reflexivity|]. split; [rewrite Ho4; exact Ho2|].
        split; [|reflexivity].
        rewrite Hc4, fn_lookup_insert, Hc2. reflexivity. }
      split.
      { intros e He rc' props. apply list_elem_of_singleton in He.
        now subst e. }
      split; [rewrite Ht4, Ht2, Htr, Ho4, <- app_assoc; reflexivity|].
      split; [rewrite Hr4, Ho4; reflexivity|].
      split; [exact Hk | exact HW']. }
    destruct (size_differs _ _).
    + rewrite setSize_run. now apply Hbuilt.
    + now apply Hbuilt.
  - unfold bind at 1.
    pose proof (singleCameraFor_run config (next W) W1) as H2.
    cbv zeta in H2. rewrite Hwc in H2.
    rewrite (get_working_copy_plain _ _ _ "position") in H2
      by (discriminate || reflexivity). fold cfg in H2.
    destruct (singleCameraFor config (next W) W1) as [[cam rc] W2|e W2].
    2:{ destruct H2 as (Hp & Ho2 & Hcs2 & Hr2 & Hs2 & Hn2).
        split; [tauto|].
        repeat split; try lia; try congruence.
        - rewrite Ho2. apply Hobj. lia.
        - rewrite Hcs2 by lia. congruence. }
    destruct H2 as (-> & -> & (camPos & evs' & Hp & Hc2 & Ht2 & Hev)
                    & Ho2 & Hcs2 & Hr2 & Hs2 & Hn2).
    rewrite Hnx in *.
    run. rewrite Ho2, Hcfg1, Hwc.
    rewrite get_working_copy_plain by (discriminate || reflexivity).
    fold cfg.
    unfold bind at 1.
    match goal with
    | |- context [obtainRenderer ?rc ?o ?W3] =>
        destruct (obtainRenderer_run rc o W3)
          as (W4 & -> & Hr4 & Hrs4 & Ho4 & Hc4 & Hs4 & Ht4 & Hn4)
    end.
    cbn [objects cameras renderers scenes next trace] in *.
    unfold bind at 1. rewrite reconcileSize_run. cbn [renderer].
    rewrite Hn2 in *.
    assert (Hk : kept W W4).
    { repeat split; try lia; try congruence.
      - rewrite Ho4, ?Ho2. apply Hobj. lia.
      - rewrite Hc4, fn_lookup_insert_ne, Hcs2 by lia. congruence.
      - rewrite Hrs4 by lia. congruence. }
    assert (Hbuilt : forall W',
      W' = (if size_differs (renderers W4 (S (S (next W))))
                 (objects W4 config)
            then resized
                   {| name := get cfg "name"; config := config;
                      showDebugNode := ToBoolean (opt_showDebugNode opts);
                      camera := S (next W); renderer := S (S (next W));
                      numFramesRendered := 0 |}
                   (width_of (renderers W4 (S (S (next W)))))
                   (height_of (renderers W4 (S (S (next W))))) W4
            else W4) ->
      constructed config opts W
        {| name := get cfg "name"; config := config;
           showDebugNode := ToBoolean (opt_showDebugNode opts);
           camera := S (next W); renderer := S (S (next W));
           numFramesRendered := 0 |} W').
    { intros W' HW'. exists w, h, false, W4, config. eexists.
      cbn [renderer]. fold cfg.
      split; [assumption|]. split; [assumption|]. split; [assumption|].
      split; [reflexivity|].
      split; [rewrite Ho4, ?Ho2; exact Hwc|].
      split; [split; [reflexivity|]; exists camPos, evs';
              split; [assumption|]; split; [|reflexivity];
              rewrite Hc4, fn_lookup_insert, Hc2; reflexivity|].
      split.
      { intros e He rc' props. apply elem_of_cons in He as [->|He];
          [discriminate | now apply Hev]. }
      split; [rewrite Ht4, Ht2, Htr, Ho4; cbn; now rewrite <- app_assoc|].
      split; [rewrite Hr4, Ho4; reflexivity|].
      split; [exact Hk | exact HW']. }
    destruct (size_differs _ _).
    + rewrite setSize_run. now apply Hbuilt.
    + now apply Hbuilt.
Qed.

End Built.

Section ConstructionClaims.

Context {R : Type} `{!Host R}.

Lemma construction_returns (config : nat) (opts : Opts) (W : World R) :
  (config < next W)%nat ->
  has_properties (get (objects W config) "resolution") ->
  has_properties (get (objects W config) "position") ->
  returns (CameraSensor_new config opts W) (constructed config opts W).
Proof.
  intros Hlt [Hr1 Hr2] [Hp1 Hp2].
  pose proof (construction_run config opts W Hlt) as Hrun. cbv zeta in Hrun.
  destruct (CameraSensor_new config opts W) as [this W'|e W']; [exact Hrun|].
  destruct Hrun as [Hthrow _]. cbn. tauto.
Qed.

Lemma objects_resized (this : CameraSensor) (w h : value) (W : World R) :
  objects (resized this w h W) = objects W.
Proof.
  unfold resized.
  now destruct (differs_from (width (renderers W (renderer this))) w
                || differs_from (height (renderers W (renderer this))) h).
Qed.

Lemma resized_same_size (this : CameraSensor) (W : World R) :
  let r := renderers W (renderer this) in
  renderers (resized this (width_of r) (height_of r) W) = renderers W.
Proof.
  intros r. unfold resized, width_of, height_of. fold r.
  now rewrite !differs_from_own.
Qed.

(** C9. Constructing a sensor leaves the caller's configuration object as
    it was, whether the constructor returns or throws.  When it returns
    (the resolution and the position can be read), the camera was built
    from a working copy that is a new object: there fov is 45 and near and
    far are 0.001 and 20 where the configuration leaves them undefined,
    near and far are then multiplied by [metersToVirtualUnit], and the
    first call of the constructor hands these values to the camera (the
    perspective camera's arguments, or the working copy itself for the
    array camera). *)
Theorem construction_keeps_config (config : nat) (opts : Opts) (W : World R) :
  (config < next W)%nat ->
  let cfg := objects W config in
  objects (world_of (CameraSensor_new config opts W)) config = cfg
  /\ (has_properties (get cfg "resolution") ->
      has_properties (get cfg "position") ->
      returns (CameraSensor_new config opts W) (fun this W' =>
        let wc := objects W' (next W) in
        next W <> config
        /\ get wc "fov" = with_default (get cfg "fov") (VNum 45)
        /\ get wc "near"
           = VNum (ToNumber (with_default (get cfg "near") (VNum 0.001))
                   * metersToVirtualUnit)%float
        /\ get wc "far"
           = VNum (ToNumber (with_default (get cfg "far") (VNum 20))
                   * metersToVirtualUnit)%float
        /\ exists e evs,
             added W W' (e :: evs)
             /\ (e = CreateArrayCamera wc
                 \/ exists asp,
                      e = NewCamera (get wc "fov") asp (get wc "near")
                            (get wc "far")))).
Proof.
  intros Hlt cfg. split.
  - pose proof (construction_run config opts W Hlt) as Hrun. cbv zeta in Hrun.
    destruct (CameraSensor_new config opts W) as [this W'|e W']; cbn.
    + destruct Hrun as (w & h & isArray & W1 & rc & evs & _ & _ & _ & _ & _
                        & _ & _ & _ & _ & (_ & Hkept & _) & ->).
      destruct (size_differs _ _); rewrite ?objects_resized;
        now apply Hkept.
    + destruct Hrun as (_ & _ & Hkept & _). now apply Hkept.
  - intros Hres Hpos.
    pose proof (construction_returns config opts W Hlt Hres Hpos) as Hrun.
    destruct (CameraSensor_new config opts W) as [this W'|e W'];
      [|contradiction].
    cbn in *.
    destruct Hrun as (w & h & isArray & W1 & rc & evs & _ & _ & _ & _ & Hwc
                      & Hbranch & _ & Htr & _ & _ & ->).
    assert (Hobj : objects
                     (if size_differs (renderers W1 (renderer this))
                           (objects W1 rc)
                      then resized this
                             (width_of (renderers W1 (renderer this)))
                             (height_of (renderers W1 (renderer this))) W1
                      else W1) (next W)
                   = working_copy (objects W config) w h).
    { destruct (size_differs _ _); rewrite ?objects_resized; exact Hwc. }
    rewrite Hobj. fold cfg.
    split; [lia|].
    split; [now rewrite get_working_copy by discriminate|].
    split.
    { unfold working_copy. rewrite get_insert_ne, get_insert_ne, get_insert_ne,
        get_insert by discriminate. now rewrite get_filled. }
    split.
    { unfold working_copy. rewrite get_insert_ne, get_insert_ne,
        get_insert by discriminate. now rewrite get_filled. }
    assert (Hadd : exists evs', trace
                     (if size_differs (renderers W1 (renderer this))
                           (objects W1 rc)
                      then resized this
                             (width_of (renderers W1 (renderer this)))
                             (height_of (renderers W1 (renderer this))) W1
                      else W1)
                   = trace W ++ evs ++ evs').
    { destruct (size_differs _ _).
      - unfold resized. eexists.
        destruct (differs_from _ _ || differs_from _ _); cbn [trace]; rewrite Htr;
          rewrite <- !app_assoc; reflexivity.
      - eexists. exact Htr. }
    destruct Hadd as [evs' Hadd]. unfold added. rewrite Hadd.
    destruct isArray.
    + destruct Hbranch as (_ & _ & _ & ->).
      eexists _, _. split; [reflexivity|]. now left.
    + destruct Hbranch as (_ & camPos & evs2 & _ & _ & ->).
      eexists _, _. split; [reflexivity|]. right. eauto.
Qed.

Lemma trace_resized (this : CameraSensor) (w h : value) (W : World R) :
  trace (resized this w h W) = trace W ++ resize_events this w h W.
Proof.
  unfold resized.
  now destruct (differs_from (width (renderers W (renderer this))) w
                || differs_from (height (renderers W (renderer this))) h).
Qed.

Lemma resize_events_no_factory (this : CameraSensor) (w h : value) (W : World R)
    (e : event) :
  e ∈ resize_events this w h W ->
  forall rc props, e <> GetRenderer rc props.
Proof.
  unfold resize_events. intros He rc props.
  destruct (isArrayCamera _), (differs_from _ _ || differs_from _ _); cbn in He;
    rewrite ?elem_of_cons, ?elem_of_nil in He; intuition congruence.
Qed.

Lemma userData_resized (this : CameraSensor) (w h : value) (W : World R) :
  let c := cameras W (camera this) in
  let c' := cameras (resized this w h W) (camera this) in
  userData_shape c' = userData_shape c
  /\ userData_imageShape c' = userData_imageShape c.
Proof.
  unfold resized.
  destruct (differs_from (width (renderers W (renderer this))) w
            || differs_from (height (renderers W (renderer this))) h);
    cbn; now rewrite fn_lookup_insert.
Qed.

(** C6. A configuration with more than one position: the renderer
    factory is called once; the configuration it receives is a new
    object, not the caller's, which stays as it was; its resolution is the
    array camera's [userData.imageShape] and its [cameraArrayShape] the
    camera's [userData.shape]; outside a browser its [renderer] property
    is absent when the configuration asks for "main"; every other
    property is the caller's. *)
Theorem construction_array_renderer_config
    (config : nat) (opts : Opts) (W : World R) (positions : list value) :
  (config < next W)%nat ->
  let cfg := objects W config in
  get cfg "position" = VArr positions ->
  (1 < length positions)%nat ->
  has_properties (get cfg "resolution") ->
  returns (CameraSensor_new config opts W) (fun this W' =>
    exists rc props before after,
      let cam := cameras W' (camera this) in
      added W W' (before ++ GetRenderer rc props :: after)
      /\ (forall e, e ∈ before ++ after ->
            forall rc' props', e <> GetRenderer rc' props')
      /\ rc <> config
      /\ objects W' config = cfg
      /\ get props "resolution" = userData_imageShape cam
      /\ get props "cameraArrayShape" = userData_shape cam
      /\ (isBrowser = false -> get cfg "renderer" = VStr "main" ->
          props !! "renderer" = None)
      /\ (isBrowser = true \/ is_string (get cfg "renderer") "main" = false ->
          props !! "renderer" = cfg !! "renderer")
      /\ forall k, k <> "resolution" -> k <> "cameraArrayShape" ->
                   k <> "renderer" -> props !! k = cfg !! k).
Proof.
  intros Hlt cfg Hpos Hlen Hres.
  assert (Hp : has_properties (get cfg "position"))
    by (rewrite Hpos; split; discriminate).
  pose proof (construction_returns config opts W Hlt Hres Hp) as Hrun.
  destruct (CameraSensor_new config opts W) as [this W'|e W'];
    [|contradiction].
  cbv beta iota delta [returns] in Hrun |- *.
  destruct Hrun as (w & h & isArray & W1 & rc & evs & _ & _ & Harr & Hthis
                    & Hwc & Hbranch & Hevs & Htr & _ & (_ & Hkept & _) & HW').
  fold cfg in Harr, Hthis, Hwc, Hbranch.
  rewrite Hpos in Harr. cbn [length_exceeds] in Harr.
  assert (isArray = true) as ->.
  { injection Harr as <-. apply Nat.ltb_lt. lia. }
  destruct Hbranch as (-> & Hrc & Hcam & ->).
  set (arr := createArrayCamera (working_copy cfg w h)) in *.
  assert (Hcamera : camera this = S (next W)) by now rewrite Hthis.
  exists (S (S (next W))), (renderer_copy cfg arr),
    [CreateArrayCamera (working_copy cfg w h)].
  assert (Hfinal :
    exists after,
      trace W' = trace W ++ [CreateArrayCamera (working_copy cfg w h)]
                 ++ GetRenderer (S (S (next W))) (renderer_copy cfg arr) :: after
      /\ (forall e, e ∈ after -> forall rc' props', e <> GetRenderer rc' props')
      /\ objects W' = objects W1
      /\ userData_shape (cameras W' (camera this)) = userData_shape arr
      /\ userData_imageShape (cameras W' (camera this))
         = userData_imageShape arr).
  { rewrite HW'. destruct (size_differs _ _).
    - eexists. rewrite trace_resized, Htr, Hrc, objects_resized.
      split; [rewrite <- !app_assoc; reflexivity|].
      split; [intros e He; exact (resize_events_no_factory _ _ _ _ e He)|].
      split; [reflexivity|].
      destruct (userData_resized this
                  (width_of (renderers W1 (renderer this)))
                  (height_of (renderers W1 (renderer this))) W1) as [-> ->].
      now rewrite Hcamera, Hcam.
    - exists []. rewrite Htr, Hrc.
      split; [reflexivity|].
      split; [intros e He; now apply elem_of_nil in He|].
      split; [reflexivity|]. now rewrite Hcamera, Hcam. }
  destruct Hfinal as (after & Htrace & Hafter & Hobjs & Hshape & Himage).
  exists after. unfold added.
  split; [exact Htrace|].
  split.
  { intros e He rc' props'. apply elem_of_app in He as [He|He].
    - apply list_elem_of_singleton in He. now subst e.
    - now apply Hafter. }
  split; [lia|].
  split; [rewrite Hobjs; now apply Hkept|].
  rewrite Hshape, Himage. unfold renderer_copy, Util.clone.
  destruct (negb isBrowser && is_string (get cfg "renderer") "main") eqn:Hdrop.
  - apply andb_true_iff in Hdrop as [Hb Hmain].
    apply negb_true_iff in Hb.
    split; [now rewrite get_delete_ne, get_insert by discriminate|].
    split; [now rewrite get_delete_ne, get_insert_ne, get_insert
              by discriminate|].
    split; [intros _ _; apply lookup_delete_eq|].
    split; [intros [Hb'|Hm]; congruence|].
    intros k H1 H2 H3.
    now rewrite lookup_delete_ne, !lookup_insert_ne by congruence.
  - split; [now rewrite get_insert|].
    split; [now rewrite get_insert_ne, get_insert by discriminate|].
    split.
    { intros Hb Hmain. rewrite Hb, Hmain in Hdrop. discriminate. }
    split; [intros _; now rewrite !lookup_insert_ne by discriminate|].
    intros k H1 H2 H3. now rewrite !lookup_insert_ne by congruence.
Qed.

(** The renderer configuration has no [width] when the caller's has
    none. *)
Lemma requested_width_undefined (config : nat) (W W1 : World R)
    (isArray : bool) (rc : nat) (cam : Camera) :
  (config < next W)%nat ->
  kept W W1 ->
  (if isArray
   then objects W1 rc = renderer_copy (objects W config) cam
   else rc = config) ->
  objects W config !! "width" = None ->
  get (objects W1 rc) "width" = VUndefined.
Proof.
  intros Hlt (_ & Hkept & _) Hbranch Hwidth. destruct isArray.
  - rewrite Hbranch. unfold renderer_copy, Util.clone.
    destruct (negb isBrowser && _);
      rewrite ?get_delete_ne, !get_insert_ne by discriminate;
      now apply get_absent.
  - subst rc. destruct (Hkept config Hlt) as (-> & _). now apply get_absent.
Qed.

(** The size check at the end of the constructor, as it is written.
    When the factory has returned the renderer, its width and height are
    compared with the [width] and [height] properties of the
    configuration the factory was given: if either differs [setSize] is
    called with the renderer's own size, and otherwise nothing more
    happens.  These properties are not the resolution, so a
    configuration without a [width] of its own always gets the call.
    Either way the renderer is left as the factory returned it, and
    [getShape] on the new sensor is the renderer's width and height with
    4, whatever resolution was asked for. *)
Theorem construction_reconciles_size
    (config : nat) (opts : Opts) (W : World R) :
  (config < next W)%nat ->
  has_properties (get (objects W config) "resolution") ->
  has_properties (get (objects W config) "position") ->
  returns (CameraSensor_new config opts W) (fun this W' =>
    exists W1 rc before,
      let r := renderers W1 (renderer this) in
      let requested := objects W1 rc in
      trace W1 = trace W ++ before ++ [GetRenderer rc requested]
      /\ r = getRenderer requested opts
      /\ (if differs_from (width r) (get requested "width")
             || differs_from (height r) (get requested "height")
          then setSize this (width_of r) (height_of r) W1 = Ok tt W'
          else W' = W1)
      /\ (objects W config !! "width" = None ->
          get requested "width" = VUndefined
          /\ setSize this (width_of r) (height_of r) W1 = Ok tt W')
      /\ renderers W' (renderer this) = r
      /\ getShape this W' = Ok [width r; height r; 4] W').
Proof.
  intros Hlt Hres Hpos.
  pose proof (construction_returns config opts W Hlt Hres Hpos) as Hrun.
  destruct (CameraSensor_new config opts W) as [this W'|e W'];
    [|contradiction].
  cbv beta iota delta [returns] in Hrun |- *.
  destruct Hrun as (w & h & isArray & W1 & rc & evs & _ & _ & _ & _
                    & _ & Hbranch & _ & Htr & Hr & Hkept & HW').
  exists W1, rc, evs. cbv zeta.
  split; [exact Htr|]. split; [exact Hr|].
  fold (size_differs (renderers W1 (renderer this)) (objects W1 rc)).
  assert (Hrend : renderers W' (renderer this) = renderers W1 (renderer this)).
  { rewrite HW'. destruct (size_differs _ _); [|reflexivity].
    now rewrite resized_same_size. }
  split.
  { rewrite HW'. destruct (size_differs _ _); [apply setSize_run | reflexivity]. }
  split.
  { intros Hwidth.
    assert (Hundef : get (objects W1 rc) "width" = VUndefined).
    { apply (requested_width_undefined config W W1 isArray rc
               (createArrayCamera (working_copy (objects W config) w h)));
        try assumption.
      destruct isArray; [apply Hbranch | apply Hbranch]. }
    split; [exact Hundef|].
    unfold size_differs in HW'. rewrite Hundef in HW'.
    cbn [differs_from orb] in HW'. rewrite HW'. apply setSize_run. }
  split; [exact Hrend|].
  unfold getShape, bind, read_renderer, ret. now rewrite Hrend.
Qed.

End ConstructionClaims.

(** ** Grayscale frames *)

Section GrayClaims.

(** C2. The packing loop computes the source index as [i << 2], a signed
    32-bit shift, where the comment beside it says [4 * i].  On an
    all-white array of [2^29 + 1] pixels (length [4 * (2^29 + 1)]) the
    last pixel, index [2^29], is read at index [-2^31]: the three
    operands are [undefined], and the element stored is [0], not the
    luma byte [254] of a white pixel. *)
Theorem gray_packing_wraps_at_2_29 :
  let p := replicate (Z.to_nat (4 * (2 ^ 29 + 1))) 255 in
  length p = Z.to_nat (4 * (2 ^ 29 + 1))
  /\ p !! Z.to_nat (4 * 2 ^ 29) = Some 255
  /\ p !! Z.to_nat (4 * 2 ^ 29 + 1) = Some 255
  /\ p !! Z.to_nat (4 * 2 ^ 29 + 2) = Some 255
  /\ Gray.luma_byte 255 255 255 = 254
  /\ Gray.pack p !! Z.to_nat (2 ^ 29) = Some 0.
Proof.
  intros p.
  assert (Hlen : length p = Z.to_nat (4 * (2 ^ 29 + 1)))
    by apply length_replicate.
  split; [exact Hlen|].
  split; [apply lookup_replicate_2; lia|].
  split; [apply lookup_replicate_2; lia|].
  split; [apply lookup_replicate_2; lia|].
  split; [vm_compute; reflexivity|].
  apply pack_wrapped; [lia|]. rewrite Hlen. lia.
Qed.

(** Below [2^31] bytes the packing is what it is meant to be: for a
    rendered array of [4 * n] bytes the output has [n] elements, element
    [i] is the luma byte of the rendered pixel [i], and the operands
    iteration [i] reads are still the rendered ones. *)
Theorem gray_packing_below_two_gigabytes (p : list Z) (n : nat) :
  length p = (4 * n)%nat -> Z.of_nat (4 * n) <= 2 ^ 31 ->
  length (Gray.pack p) = n
  /\ (forall (i : nat) r g b,
        (i < n)%nat ->
        p !! (4 * i)%nat = Some r -> p !! (4 * i + 1)%nat = Some g ->
        p !! (4 * i + 2)%nat = Some b ->
        Gray.pack p !! i = Some (Gray.luma_byte r g b))
  /\ (forall (i : nat) (j : Z),
        (i < n)%nat -> 0 <= j < 3 ->
        let b := Js.shl (Z.of_nat i) 2 in
        b = 4 * Z.of_nat i
        /\ TypedArray.get (Gray.loop i (Z.of_nat (length p)) 0 p) (b + j)
           = TypedArray.get p (b + j)).
Proof.
  intros Hlen Hbound. split; [|split].
  - rewrite pack_length, Hlen.
    replace (Z.of_nat (4 * n)) with (Z.of_nat n * 4) by lia.
    rewrite Z.div_mul by lia. lia.
  - intros i r g b Hi Hr Hg Hb.
    replace i with (Z.to_nat (Z.of_nat i)) at 1 by lia.
    rewrite pack_lookup by lia.
    f_equal. unfold packed, Gray.luma_byte, TypedArray.operand, TypedArray.get.
    replace (4 * Z.of_nat i <? 0) with false by (symmetry; apply Z.ltb_ge; lia).
    replace (4 * Z.of_nat i + 1 <? 0) with false
      by (symmetry; apply Z.ltb_ge; lia).
    replace (4 * Z.of_nat i + 2 <? 0) with false
      by (symmetry; apply Z.ltb_ge; lia).
    replace (Z.to_nat (4 * Z.of_nat i)) with (4 * i)%nat by lia.
    replace (Z.to_nat (4 * Z.of_nat i + 1)) with (4 * i + 1)%nat by lia.
    replace (Z.to_nat (4 * Z.of_nat i + 2)) with (4 * i + 2)%nat by lia.
    now rewrite Hr, Hg, Hb.
  - intros i j Hi Hj b.
    assert (Hb : b = 4 * Z.of_nat i) by (apply shl_two_small; lia).
    split; [exact Hb|]. rewrite Hb.
    destruct i as [|i].
    + reflexivity.
    + pose proof (loop_prefix_inv p (S i) ltac:(lia) 0 p ltac:(lia)
                    ltac:(lia) (inv_init p)) as (_ & _ & Hhigh).
      apply Hhigh. lia.
Qed.

End GrayClaims.

Section MoreFacts.

Context {R : Type} `{!Host R}.

(** The frame of the "gray" encoding: one raw render, whose array is
    packed element by element; the frame's data is the buffer of the
    packed copy, and the shape carries 1 as channel count. *)
Theorem getFrame_gray_frame (this : CameraSensor) (ss : nat) (W : World R) :
  get (objects W (config this)) "encoding" = VStr "gray" ->
  returns (getFrame this ss W) (fun '(f, _) W' =>
    exists st p r',
      renderToRawPixels (renderers W (renderer this)) st (target_of st)
        (cameras W (camera this)) = (p, r')
      /\ f = {| type := "color";
                data := Bytes (Gray.pack (TypedArray.elements p));
                encoding := VStr "gray";
                shape := [width r'; height r'; 1] |}
      /\ added W W'
           [RenderToRawPixels (renderer this) st (target_of st) (camera this)]).
Proof.
  intros Henc.
  pose proof (getFrame_run this ss W) as Hrun.
  rewrite capture_gray in Hrun by (rewrite objects_overridden; assumption).
  destruct Hrun as [_ ->]. cbn -[Gray.pack].
  exists (scenes (overridden this ss W) ss).
  rewrite renderers_overridden, cameras_overridden.
  destruct (renderToRawPixels _ _ _ _) as [p r'] eqn:Hp.
  exists p, r'. split; [reflexivity|]. split; [reflexivity|].
  unfold added. rewrite trace_restored. cbn. now rewrite trace_overridden.
Qed.

End MoreFacts.

(** ** The theorems at the concrete host *)

Section Witnesses.

Lemma getFrame_invalid_encoding_witness :
  get (objects Demo.bogus_world 0) "encoding" = VStr "bogus"
  /\ ("bogus" ∉ ["rgba"; "gray"; "pngbuf"; "pngfile"; "pngseq"; "screen"])
  /\ returns (getFrame (Demo.sensor 7) 0 Demo.bogus_world) (fun '(f, _) W' =>
       f = {| type := "color"; data := Other VNull; encoding := VStr "bogus";
              shape := [640; 480; 4] |}
       /\ added Demo.bogus_world W' [ConsoleError "Invalid encoding: bogus"]
       /\ renderers W' = renderers Demo.bogus_world).
Proof.
  assert (Hnot : "bogus" ∉ ["rgba"; "gray"; "pngbuf"; "pngfile"; "pngseq";
                            "screen"]).
  { rewrite !not_elem_of_cons. repeat split; try discriminate.
    apply not_elem_of_nil. }
  split; [reflexivity|]. split; [exact Hnot|].
  exact (getFrame_invalid_encoding (Demo.sensor 7) 0 Demo.bogus_world "bogus"
           eq_refl Hnot).
Defined.


Lemma getFrame_writes_witness :
  debugNode (scenes Demo.rgba_world 0) = None
  /\ returns (getFrame (Demo.sensor 7) 0 Demo.rgba_world)
       (fun '(_, this') W' =>
          scenes W' = scenes Demo.rgba_world
          /\ this' = Demo.sensor 8
          /\ objects W' = objects Demo.rgba_world
          /\ cameras W' = cameras Demo.rgba_world).
Proof.
  split; [reflexivity|].
  pose proof (getFrame_writes (Demo.sensor 7) 0 Demo.rgba_world) as H.
  destruct (getFrame (Demo.sensor 7) 0 Demo.rgba_world)
    as [[f this'] W'|e W']; [|exact H].
  destruct H as (H0 & H1 & H2 & H3 & H4 & H5 & H6 & H7 & H8).
  split; [exact (H0 eq_refl)|]. split; [|split; assumption].
  destruct this'. cbn in *. now subst.
Defined.

Lemma getShape_and_metadata_witness :
  objects Demo.gray_world 0 !! "datatype" = None
  /\ get (objects Demo.gray_world 0) "encoding" = VStr "gray"
  /\ getShape (Demo.sensor 7) Demo.gray_world
     = Ok [640; 480; 4] Demo.gray_world
  /\ returns (getMetadata (Demo.sensor 7) Demo.gray_world)
       (fun md _ => md_dataType md = VStr "uint8")
  /\ returns (getFrame (Demo.sensor 7) 0 Demo.gray_world)
       (fun '(f, this') W' =>
          exists w h,
            shape f = [w; h; 1] /\ getShape this' W' = Ok [w; h; 4] W').
Proof.
  destruct (getShape_and_metadata (Demo.sensor 7) Demo.gray_world)
    as (H1 & _ & H3 & H4).
  split; [reflexivity|]. split; [reflexivity|]. split; [exact H1|].
  split; [exact (H3 eq_refl) | exact (H4 0%nat eq_refl)].
Defined.

Lemma construction_keeps_config_witness :
  (0 < next Demo.rgba_world)%nat
  /\ objects (world_of (CameraSensor_new 0 Demo.opts Demo.rgba_world)) 0
     = objects Demo.rgba_world 0
  /\ returns (CameraSensor_new 0 Demo.opts Demo.rgba_world) (fun this W' =>
       get (objects W' 1) "fov" = VNum 45
       /\ get (objects W' 1) "near" = VNum (0.001 * 100)
       /\ get (objects W' 1) "far" = VNum (20 * 100)).
Proof.
  assert (Hlt : (0 < next Demo.rgba_world)%nat) by (cbn; lia).
  assert (Hres : has_properties
                   (get (objects Demo.rgba_world 0) "resolution"))
    by (split; intro Hx; vm_compute in Hx; discriminate Hx).
  assert (Hpos : has_properties
                   (get (objects Demo.rgba_world 0) "position"))
    by (split; intro Hx; vm_compute in Hx; discriminate Hx).
  destruct (construction_keeps_config 0 Demo.opts Demo.rgba_world Hlt)
    as [H1 H2].
  split; [exact Hlt|]. split; [exact H1|].
  specialize (H2 Hres Hpos).
  destruct (CameraSensor_new 0 Demo.opts Demo.rgba_world) as [this W'|e W'];
    [|exact H2].
  destruct H2 as (_ & Hfov & Hnear & Hfar & _).
  split; [exact Hfov|]. split; [exact Hnear | exact Hfar].
Defined.

Lemma construction_array_witness :
  (0 < next Demo.array_world)%nat
  /\ get (objects Demo.array_world 0) "position"
     = VArr [Demo.origin; VArr [VNum 1; VNum 0.6; VNum 0]]
  /\ returns (CameraSensor_new 0 Demo.opts Demo.array_world) (fun this W' =>
       exists rc props before after,
         let cam := cameras W' (camera this) in
         let cfg := objects Demo.array_world 0 in
         added Demo.array_world W' (before ++ GetRenderer rc props :: after)
         /\ (forall e, e ∈ before ++ after ->
               forall rc' props', e <> GetRenderer rc' props')
         /\ rc <> 0%nat
         /\ objects W' 0 = cfg
         /\ get props "resolution" = userData_imageShape cam
         /\ get props "cameraArrayShape" = userData_shape cam
         /\ (isBrowser = false -> get cfg "renderer" = VStr "main" ->
             props !! "renderer" = None)
         /\ (isBrowser = true
             \/ is_string (get cfg "renderer") "main" = false ->
             props !! "renderer" = cfg !! "renderer")
         /\ forall k, k <> "resolution" -> k <> "cameraArrayShape" ->
                      k <> "renderer" -> props !! k = cfg !! k).
Proof.
  assert (Hlt : (0 < next Demo.array_world)%nat) by (cbn; lia).
  assert (Hres : has_properties
                   (get (objects Demo.array_world 0) "resolution"))
    by (split; intro Hx; vm_compute in Hx; discriminate Hx).
  split; [exact Hlt|]. split; [reflexivity|].
  exact (construction_array_renderer_config 0 Demo.opts Demo.array_world
           [Demo.origin; VArr [VNum 1; VNum 0.6; VNum 0]]
           Hlt eq_refl ltac:(cbn; lia) Hres).
Defined.

Lemma construction_reconciles_size_witness :
  (0 < next Demo.rgba_world)%nat
  /\ returns (CameraSensor_new 0 Demo.opts Demo.rgba_world) (fun this W' =>
       exists W1 rc before,
         let r := renderers W1 (renderer this) in
         let requested := objects W1 rc in
         trace W1 = trace Demo.rgba_world ++ before
                    ++ [GetRenderer rc requested]
         /\ r = getRenderer requested Demo.opts
         /\ (if differs_from (width r) (get requested "width")
                || differs_from (height r) (get requested "height")
             then setSize this (width_of r) (height_of r) W1 = Ok tt W'
             else W' = W1)
         /\ (objects Demo.rgba_world 0 !! "width" = None ->
             get requested "width" = VUndefined
             /\ setSize this (width_of r) (height_of r) W1 = Ok tt W')
         /\ renderers W' (renderer this) = r
         /\ getShape this W' = Ok [width r; height r; 4] W').
Proof.
  assert (Hlt : (0 < next Demo.rgba_world)%nat) by (cbn; lia).
  assert (Hres : has_properties
                   (get (objects Demo.rgba_world 0) "resolution"))
    by (split; intro Hx; vm_compute in Hx; discriminate Hx).
  assert (Hpos : has_properties
                   (get (objects Demo.rgba_world 0) "position"))
    by (split; intro Hx; vm_compute in Hx; discriminate Hx).
  split; [exact Hlt|].
  exact (construction_reconciles_size 0 Demo.opts Demo.rgba_world
           Hlt Hres Hpos).
Defined.

Lemma gray_packing_witness :
  let p := [255; 255; 255; 255; 10; 200; 30; 0] in
  length p = (4 * 2)%nat
  /\ Z.of_nat (4 * 2) <= 2 ^ 31
  /\ length (Gray.pack p) = 2%nat
  /\ Gray.pack p !! 0%nat = Some (Gray.luma_byte 255 255 255)
  /\ Gray.pack p !! 1%nat = Some (Gray.luma_byte 10 200 30).
Proof.
  intros p.
  assert (Hb : Z.of_nat (4 * 2) <= 2 ^ 31) by (cbn; lia).
  destruct (gray_packing_below_two_gigabytes p 2 eq_refl Hb)
    as (Hlen & Hpix & _).
  split; [reflexivity|]. split; [exact Hb|]. split; [exact Hlen|].
  split.
  - exact (Hpix 0%nat 255 255 255 ltac:(lia) eq_refl eq_refl eq_refl).
  - exact (Hpix 1%nat 10 200 30 ltac:(lia) eq_refl eq_refl eq_refl).
Defined.

Lemma getFrame_gray_frame_witness :
  get (objects Demo.gray_world 0) "encoding" = VStr "gray"
  /\ returns (getFrame (Demo.sensor 7) 0 Demo.gray_world) (fun '(f, _) W' =>
       exists st p r',
         renderToRawPixels (renderers Demo.gray_world 0) st (target_of st)
           (cameras Demo.gray_world 0) = (p, r')
         /\ f = {| type := "color";
                   data := Bytes (Gray.pack (TypedArray.elements p));
                   encoding := VStr "gray";
                   shape := [width r'; height r'; 1] |}
         /\ added Demo.gray_world W' [RenderToRawPixels 0 st (target_of st) 0]).
Proof.
  split; [reflexivity|].
  exact (getFrame_gray_frame (Demo.sensor 7) 0 Demo.gray_world eq_refl).
Defined.

End Witnesses.


(** C5. The rule that nothing is resized at construction when the sizes
    agree fails on the code.  On the concrete host the configuration asks
    for 640 by 480 by its resolution and has no [width] or [height] of
    its own, the renderer the factory returns reports 640 by 480, and the
    constructor still calls [setSize].  The requested size is stored as
    [cameraConfig.width] and [cameraConfig.height], and the check reads
    [rendererConfig.width] and [rendererConfig.height]: the renderer
    configuration is here the caller's object, and 640 is compared with
    [undefined]. *)
Lemma construction_resizes_at_agreeing_size :
  get (objects Demo.rgba_world 0) "resolution" = VArr [VNum 640; VNum 480]
  /\ get (objects Demo.rgba_world 0) "width" = VUndefined
  /\ get (objects Demo.rgba_world 0) "height" = VUndefined
  /\ getRenderer (objects Demo.rgba_world 0) Demo.opts
     = {| Demo.r_width := 640; Demo.r_height := 480; Demo.r_frames := 0 |}
  /\ ~ spec_resize_rule 0 Demo.opts Demo.rgba_world.
Proof.
  split; [reflexivity|]. split; [reflexivity|]. split; [reflexivity|].
  split; [reflexivity|].
  unfold spec_resize_rule. intros Hrule.
  assert (Hlt : (0 < next Demo.rgba_world)%nat) by (cbn; lia).
  assert (Hres : has_properties
                   (get (objects Demo.rgba_world 0) "resolution"))
    by (split; intro Hx; vm_compute in Hx; discriminate Hx).
  assert (Hpos : has_properties
                   (get (objects Demo.rgba_world 0) "position"))
    by (split; intro Hx; vm_compute in Hx; discriminate Hx).
  pose proof (construction_returns 0 Demo.opts Demo.rgba_world Hlt Hres Hpos)
    as Hrun.
  destruct (CameraSensor_new 0 Demo.opts Demo.rgba_world) as [this W'|e W'];
    [|contradiction].
  cbv beta iota delta [returns] in Hrun, Hrule.
  destruct Hrun as (w & h & isArray & W1 & rc & evs & Hw & Hh & Harr & Hthis
                    & _ & Hbranch & _ & Htr & Hr & (_ & Hkept & _) & HW').
  assert (isArray = false) as -> by (vm_compute in Harr; congruence).
  destruct Hbranch as (-> & _).
  destruct (Hkept 0%nat Hlt) as (Hcfg & _).
  rewrite Hcfg in Hr, HW', Htr.
  assert (Hsize : width (renderers W1 (renderer this)) = 640
                  /\ height (renderers W1 (renderer this)) = 480)
    by (rewrite Hr; split; reflexivity).
  destruct Hsize as [Hwd Hht].
  assert (Hdiff : size_differs (renderers W1 (renderer this))
                    (objects Demo.rgba_world 0) = true)
    by (rewrite Hr; reflexivity).
  rewrite Hdiff in HW'.
  assert (Hrend : renderers W' (renderer this) = renderers W1 (renderer this))
    by (rewrite HW'; now rewrite resized_same_size).
  assert (Hadded : trace W' = trace Demo.rgba_world
                   ++ (evs ++ [GetRenderer 0 (objects Demo.rgba_world 0)])
                   ++ resize_events this
                        (width_of (renderers W1 (renderer this)))
                        (height_of (renderers W1 (renderer this))) W1).
  { rewrite HW', trace_resized, Htr. now rewrite <- !app_assoc. }
  eapply (Hrule w h _ Hw Hh).
  - rewrite Hrend, Hwd. vm_compute in Hw. injection Hw as <-. reflexivity.
  - rewrite Hrend, Hht. vm_compute in Hh. injection Hh as <-. reflexivity.
  - exact Hadded.
  - apply elem_of_app. right. unfold resize_events. apply elem_of_cons.
    now left.
Qed.

(** What the constructor does on the concrete host: a single camera
    whose renderer reports the resolution asked for is still resized
    (the configuration has no [width]), and an array configuration gets
    a renderer configuration of its own. *)
Example construction_single_trace :
  match CameraSensor_new 0 Demo.opts Demo.rgba_world with
  | Ok this W' => Some (drop 5 (trace W'), Demo.r_width (renderers W' 3))
  | Throw _ _ => None
  end
  = Some ([GetRenderer 0 (Demo.configuration "rgba" [Demo.origin]);
           ConsoleLog "resize sensor cam0 to 640x480";
           UpdateProjectionMatrix 2 (640 / 480)%float], 640).
Proof. vm_compute. reflexivity. Qed.

Example construction_array_config :
  match CameraSensor_new 0 Demo.opts Demo.array_world with
  | Ok this W' =>
      Some (get (objects W' 3) "resolution",
            get (objects W' 3) "cameraArrayShape",
            objects W' 3 !! "renderer",
            objects W' 0 !! "renderer",
            Demo.r_width (renderers W' (renderer this)))
  | Throw _ _ => None
  end
  = Some (VArr [VNum 1280; VNum 480], VArr [VNum 2; VNum 1], None,
          Some (VStr "main"), 1024).
Proof. vm_compute. reflexivity. Qed.

(** ** More on frame capture *)

Section CaptureCases.

Context {R : Type} `{!Host R}.

Lemma is_string_not_string (v : value) (s : string) :
  (forall t, v <> VStr t) -> is_string v s = false.
Proof. intros Hv. destruct v; try reflexivity. now destruct (Hv s0). Qed.

Lemma getFrame_of_capture (this : CameraSensor) (ss : nat) (W W2 : World R)
    (f : Frame) :
  __getFrame this ss (overridden this ss W) = Ok f W2 ->
  getFrame this ss W
  = Ok (f, count_frame this) (restored ss (saved_visibility ss W) W2).
Proof.
  intros Hcap. unfold getFrame, bind.
  now rewrite override_run, Hcap, restore_run.
Qed.

(** The capture for an encoding that is not a string at all. *)
Lemma capture_not_string (this : CameraSensor) (ss : nat) (W : World R) :
  let enc := get (objects W (config this)) "encoding" in
  (forall t, enc <> VStr t) ->
  __getFrame this ss W
  = Ok {| type := "color"; data := Other VNull; encoding := enc;
          shape := [width (renderers W (renderer this));
                    height (renderers W (renderer this)); 4] |}
       (with_trace
          (trace W ++ [ConsoleError ("Invalid encoding: " +:+ ToString enc)]) W).
Proof.
  intros enc Hnot.
  unfold __getFrame, bind, ret, read_scene, get_prop, read_object,
    read_renderer, emit.
  cbn -[get is_string String.append call_renderer ToString].
  fold enc. rewrite !is_string_not_string by assumption.
  reflexivity.
Qed.

Lemma capture_rgba (this : CameraSensor) (ss : nat) (W : World R) :
  get (objects W (config this)) "encoding" = VStr "rgba" ->
  let st := scenes W ss in
  let out := renderToRawPixels (renderers W (renderer this)) st (target_of st)
               (cameras W (camera this)) in
  __getFrame this ss W
  = Ok {| type := "color"; data := Bytes (TypedArray.buffer out.1);
          encoding := VStr "rgba";
          shape := [width out.2; height out.2; 4] |}
       (with_renderers (<[renderer this := out.2]> (renderers W))
          (with_trace
             (trace W ++ [RenderToRawPixels (renderer this) st (target_of st)
                            (camera this)])
             W)).
Proof.
  intros Henc st out.
  unfold __getFrame, bind, ret, read_scene, get_prop, read_object,
    read_renderer, emit.
  cbn -[get is_string String.append call_renderer].
  rewrite Henc. cbn -[get String.append call_renderer].
  rewrite call_renderer_run.
  cbn -[get String.append].
  rewrite fn_lookup_insert. reflexivity.
Qed.

Lemma capture_pngbuf (this : CameraSensor) (ss : nat) (W : World R) :
  get (objects W (config this)) "encoding" = VStr "pngbuf" ->
  let st := scenes W ss in
  let out := renderToBuffer (renderers W (renderer this)) st (target_of st)
               (cameras W (camera this)) in
  __getFrame this ss W
  = Ok {| type := "color"; data := Other out.1; encoding := VStr "pngbuf";
          shape := [width out.2; height out.2; 4] |}
       (with_renderers (<[renderer this := out.2]> (renderers W))
          (with_trace
             (trace W ++ [RenderToBuffer (renderer this) st (target_of st)
                            (camera this)])
             W)).
Proof.
  intros Henc st out.
  unfold __getFrame, bind, ret, read_scene, get_prop, read_object,
    read_renderer, emit.
  cbn -[get is_string String.append call_renderer].
  rewrite Henc. cbn -[get String.append call_renderer].
  rewrite call_renderer_run.
  cbn -[get String.append].
  rewrite fn_lookup_insert. reflexivity.
Qed.

Lemma capture_screen (this : CameraSensor) (ss : nat) (W : World R) :
  get (objects W (config this)) "encoding" = VStr "screen" ->
  let st := scenes W ss in
  let out := render (renderers W (renderer this)) st (target_of st)
               (cameras W (camera this)) in
  __getFrame this ss W
  = Ok {| type := "color"; data := Other out.1; encoding := VStr "screen";
          shape := [width out.2; height out.2; 4] |}
       (with_renderers (<[renderer this := out.2]> (renderers W))
          (with_trace
             (trace W ++ [Render (renderer this) st (target_of st)
                            (camera this)])
             W)).
Proof.
  intros Henc st out.
  unfold __getFrame, bind, ret, read_scene, get_prop, read_object,
    read_renderer, emit.
  cbn -[get is_string String.append call_renderer].
  rewrite Henc. cbn -[get String.append call_renderer].
  rewrite call_renderer_run.
  cbn -[get String.append].
  rewrite fn_lookup_insert. reflexivity.
Qed.

Lemma capture_pngfile (this : CameraSensor) (ss : nat) (W : World R) :
  get (objects W (config this)) "encoding" = VStr "pngfile" ->
  let st := scenes W ss in
  let out := renderToPng (renderers W (renderer this)) st (target_of st)
               (cameras W (camera this)) (single_file this st) in
  __getFrame this ss W
  = Ok {| type := "color"; data := Other out.1; encoding := VStr "pngfile";
          shape := [width out.2; height out.2; 4] |}
       (with_renderers (<[renderer this := out.2]> (renderers W))
          (with_trace
             (trace W ++ [RenderToPng (renderer this) st (target_of st)
                            (camera this) (single_file this st)])
             W)).
Proof.
  intros Henc st out.
  unfold __getFrame, bind, ret, read_scene, get_prop, read_object,
    read_renderer, emit.
  cbn -[get is_string String.append call_renderer].
  rewrite Henc. cbn -[get String.append call_renderer].
  rewrite call_renderer_run.
  cbn -[get String.append].
  rewrite fn_lookup_insert. reflexivity.
Qed.

End CaptureCases.

Section FrameFacts.

Context {R : Type} `{!Host R}.

Lemma scene_overridden (this : CameraSensor) (ss : nat) (W : World R) :
  scenes (overridden this ss W) ss
  = set_visible (VBool (showDebugNode this)) (scenes W ss).
Proof.
  unfold overridden. destruct (debugNode (scenes W ss)) eqn:Hd; cbn.
  - now rewrite fn_lookup_insert.
  - unfold set_visible. rewrite Hd.
    destruct (scenes W ss) as [dn fs nm]. cbn in Hd. now subst dn.
Qed.

Lemma set_visible_twice (v v' : value) (st : SceneState) :
  set_visible v (set_visible v' st) = set_visible v st.
Proof. unfold set_visible. cbn. now destruct (debugNode st). Qed.

Lemma set_visible_own (st : SceneState) (d : DebugNode) :
  debugNode st = Some d -> set_visible (visible d) st = st.
Proof.
  intros Hd. unfold set_visible. rewrite Hd.
  destruct st as [dn fs nm]. cbn in Hd |- *. subst dn. now destruct d.
Qed.

Lemma debugNode_set_visible (v : value) (st : SceneState) :
  debugNode (set_visible v st)
  = match debugNode st with Some _ => Some {| visible := v |} | None => None end.
Proof. reflexivity. Qed.

Lemma scenes_getFrame (this : CameraSensor) (ss : nat) (W : World R) :
  returns (getFrame this ss W) (fun _ W' => forall l, scenes W' l = scenes W l).
Proof.
  pose proof (getFrame_run this ss W) as Hrun.
  destruct (__getFrame this ss (overridden this ss W)) as [f W2|];
    [|contradiction].
  destruct Hrun as [Hcap ->]. cbn.
  destruct Hcap as (Hsc & _).
  intros l. unfold restored. rewrite Hsc, scene_overridden.
  rewrite debugNode_set_visible, set_visible_twice. unfold saved_visibility.
  destruct (debugNode (scenes W ss)) as [d|] eqn:Hd.
  - rewrite (set_visible_own _ d Hd). cbn [scenes with_scenes].
    destruct (decide (l = ss)) as [->|Hne].
    + now rewrite fn_lookup_insert.
    + rewrite fn_lookup_insert_ne by congruence.
      unfold overridden. rewrite Hd. cbn [scenes with_scenes].
      now rewrite fn_lookup_insert_ne by congruence.
  - rewrite Hsc. unfold overridden. now rewrite Hd.
Qed.
(** An encoding that is not a string, in particular a configuration
    without [encoding]: no case of the switch matches, so nothing is
    rendered; the frame has [null] data, the encoding as found and four
    channels, and the one event is the error line, ending in "undefined"
    when the property is missing. *)
Theorem getFrame_encoding_not_a_string
    (this : CameraSensor) (ss : nat) (W : World R) :
  let enc := get (objects W (config this)) "encoding" in
  (forall t, enc <> VStr t) ->
  returns (getFrame this ss W) (fun '(f, this') W' =>
    f = {| type := "color"; data := Other VNull; encoding := enc;
           shape := [width (renderers W (renderer this));
                     height (renderers W (renderer this)); 4] |}
    /\ added W W' [ConsoleError ("Invalid encoding: " +:+ ToString enc)]
    /\ (objects W (config this) !! "encoding" = None ->
        added W W' [ConsoleError "Invalid encoding: undefined"])
    /\ renderers W' = renderers W
    /\ numFramesRendered this' = Js.increment (numFramesRendered this)).
Proof.
  intros enc Hnot.
  assert (Hcap := capture_not_string this ss (overridden this ss W)).
  cbv zeta in Hcap. rewrite objects_overridden in Hcap. fold enc in Hcap.
  specialize (Hcap Hnot).
  rewrite (getFrame_of_capture _ _ _ _ _ Hcap).
  cbn -[String.append ToString]. unfold added.
  rewrite renderers_restored, trace_restored.
  cbn -[String.append ToString].
  rewrite renderers_overridden, trace_overridden.
  repeat split.
  intros Habsent. unfold enc. now rewrite (get_absent _ _ Habsent).
Qed.

(** The "rgba" encoding: one call of [renderToRawPixels], on
    [sceneState.fullScene || sceneState] with the sensor's camera, seeing
    the debug node as forced.  The frame's data is the [buffer] of the
    array the renderer returned, that is the whole buffer the array is a
    view on: the array's elements together with whatever bytes the buffer
    holds before and after them, and exactly the elements when the array
    spans its buffer.  The frame has four channels and the size the
    renderer reports after the call; no other renderer is touched. *)
Theorem getFrame_rgba_frame (this : CameraSensor) (ss : nat) (W : World R) :
  get (objects W (config this)) "encoding" = VStr "rgba" ->
  let st := scenes (overridden this ss W) ss in
  let out := renderToRawPixels (renderers W (renderer this)) st
               (target_of (scenes W ss)) (cameras W (camera this)) in
  returns (getFrame this ss W) (fun '(f, _) W' =>
    f = {| type := "color";
           data := Bytes (TypedArray.before out.1
                          ++ TypedArray.elements out.1
                          ++ TypedArray.after out.1);
           encoding := VStr "rgba";
           shape := [width out.2; height out.2; 4] |}
    /\ (TypedArray.before out.1 = [] -> TypedArray.after out.1 = [] ->
        data f = Bytes (TypedArray.elements out.1))
    /\ added W W' [RenderToRawPixels (renderer this) st
                     (target_of (scenes W ss)) (camera this)]
    /\ renderers W' (renderer this) = out.2
    /\ forall l, l <> renderer this -> renderers W' l = renderers W l).
Proof.
  intros Henc st out.
  assert (Hcap := capture_rgba this ss (overridden this ss W)).
  cbv zeta in Hcap.
  rewrite objects_overridden, renderers_overridden, cameras_overridden,
    trace_overridden in Hcap.
  destruct (target_overridden this ss W) as [Ht _]. rewrite Ht in Hcap.
  specialize (Hcap Henc). fold st out in Hcap.
  rewrite (getFrame_of_capture _ _ _ _ _ Hcap).
  cbn. unfold added. rewrite renderers_restored, trace_restored. cbn.
  rewrite fn_lookup_insert. repeat split.
  - intros Hb Ha. unfold TypedArray.buffer. now rewrite Hb, Ha, app_nil_r.
  - intros l Hl. now rewrite fn_lookup_insert_ne by congruence.
Qed.

(** The "pngbuf" and "screen" encodings: one call of
    [renderToBuffer], respectively [render], and the frame's data is
    whatever that call returned. *)
Theorem getFrame_buffer_and_screen_frames
    (this : CameraSensor) (ss : nat) (W : World R) (e : string) :
  get (objects W (config this)) "encoding" = VStr e ->
  e = "pngbuf" \/ e = "screen" ->
  let st := scenes (overridden this ss W) ss in
  let t := target_of (scenes W ss) in
  let r := renderers W (renderer this) in
  let cam := cameras W (camera this) in
  let out := if String.eqb e "pngbuf" then renderToBuffer r st t cam
             else render r st t cam in
  let ev := if String.eqb e "pngbuf"
            then RenderToBuffer (renderer this) st t (camera this)
            else Render (renderer this) st t (camera this) in
  returns (getFrame this ss W) (fun '(f, _) W' =>
    f = {| type := "color"; data := Other out.1; encoding := VStr e;
           shape := [width out.2; height out.2; 4] |}
    /\ added W W' [ev]
    /\ renderers W' (renderer this) = out.2
    /\ forall l, l <> renderer this -> renderers W' l = renderers W l).
Proof.
  intros Henc [-> | ->] st t r cam; cbn [String.eqb Ascii.eqb Bool.eqb].
  - assert (Hcap := capture_pngbuf this ss (overridden this ss W)).
    cbv zeta in Hcap.
    rewrite objects_overridden, renderers_overridden, cameras_overridden,
      trace_overridden in Hcap.
    destruct (target_overridden this ss W) as [Ht _]. rewrite Ht in Hcap.
    specialize (Hcap Henc). fold st t r cam in Hcap.
    rewrite (getFrame_of_capture _ _ _ _ _ Hcap).
    cbn. unfold added. rewrite renderers_restored, trace_restored. cbn.
    rewrite fn_lookup_insert. repeat split.
    intros l Hl. now rewrite fn_lookup_insert_ne by congruence.
  - assert (Hcap := capture_screen this ss (overridden this ss W)).
    cbv zeta in Hcap.
    rewrite objects_overridden, renderers_overridden, cameras_overridden,
      trace_overridden in Hcap.
    destruct (target_overridden this ss W) as [Ht _]. rewrite Ht in Hcap.
    specialize (Hcap Henc). fold st t r cam in Hcap.
    rewrite (getFrame_of_capture _ _ _ _ _ Hcap).
    cbn. unfold added. rewrite renderers_restored, trace_restored. cbn.
    rewrite fn_lookup_insert. repeat split.
    intros l Hl. now rewrite fn_lookup_insert_ne by congruence.
Qed.

Lemma single_file_overridden (this : CameraSensor) (ss : nat) (W : World R) :
  single_file this (scenes (overridden this ss W) ss)
  = single_file this (scenes W ss).
Proof.
  unfold single_file. now destruct (target_overridden this ss W) as [-> ->].
Qed.

(** The "pngfile" encoding: one call of [renderToPng], to the file
    <sceneName>_<sensorName>.png; the name does not depend on the frame
    counter, so the same sensor on the same scene writes every frame to
    the same file. *)
Theorem getFrame_pngfile_frame (this : CameraSensor) (ss : nat) (W : World R) :
  get (objects W (config this)) "encoding" = VStr "pngfile" ->
  let st := scenes (overridden this ss W) ss in
  let t := target_of (scenes W ss) in
  let file := ToString (target_name (scenes W ss) t) +:+ "_"
              +:+ ToString (name this) +:+ ".png" in
  let out := renderToPng (renderers W (renderer this)) st t
               (cameras W (camera this)) file in
  returns (getFrame this ss W) (fun '(f, this') W' =>
    f = {| type := "color"; data := Other out.1; encoding := VStr "pngfile";
           shape := [width out.2; height out.2; 4] |}
    /\ added W W' [RenderToPng (renderer this) st t (camera this) file]
    /\ renderers W' (renderer this) = out.2
    /\ forall k, single_file (at_frame this' k) (scenes W' ss) = file).
Proof.
  intros Henc st t file out.
  assert (Hcap := capture_pngfile this ss (overridden this ss W)).
  cbv zeta in Hcap.
  rewrite objects_overridden, renderers_overridden, cameras_overridden,
    trace_overridden, single_file_overridden in Hcap.
  destruct (target_overridden this ss W) as [Ht _]. rewrite Ht in Hcap.
  specialize (Hcap Henc). fold st t in Hcap.
  change (single_file this (scenes W ss)) with file in Hcap. fold out in Hcap.
  pose proof (scenes_getFrame this ss W) as Hsc.
  rewrite (getFrame_of_capture _ _ _ _ _ Hcap) in Hsc |- *.
  cbn -[String.append] in Hsc |- *. unfold added.
  rewrite renderers_restored, trace_restored. cbn -[String.append].
  rewrite fn_lookup_insert. repeat split.
  intros k. unfold single_file. now rewrite Hsc.
Qed.

End FrameFacts.

(** ** Numbering the files of a sequence *)

Section Numbering.

Lemma padStart_repeat (s : string) :
  Util.padStart s 5 "0"
  = Util.repeat_string (5 - String.length s) "0" +:+ s.
Proof.
  unfold Util.padStart.
  destruct (Nat.leb_spec 5 (String.length s)) as [Hge|Hlt].
  - now replace (5 - String.length s)%nat with 0%nat by lia.
  - now rewrite take_repeat_zero.
Qed.

Lemma uint_of_zero_first (t : string) :
  NilEmpty.uint_of_string ("0" +:+ t)
  = option_map Decimal.D0 (NilEmpty.uint_of_string t).
Proof.
  change (NilEmpty.uint_of_string ("0" +:+ t))
    with (match NilEmpty.uint_of_string t with
          | Some d => Some (Decimal.D0 d)
          | None => None
          end).
  now destruct (NilEmpty.uint_of_string t).
Qed.

Lemma uint_of_zeros (k : nat) (s : string) :
  NilEmpty.uint_of_string (Util.repeat_string k "0" +:+ s)
  = option_map (Nat.iter k Decimal.D0) (NilEmpty.uint_of_string s).
Proof.
  induction k as [|k IH].
  - change (Util.repeat_string 0 "0" +:+ s) with s.
    now destruct (NilEmpty.uint_of_string s).
  - change (Util.repeat_string (S k) "0" +:+ s)
      with ("0" +:+ (Util.repeat_string k "0" +:+ s)).
    rewrite uint_of_zero_first, IH.
    now destruct (NilEmpty.uint_of_string s).
Qed.

Lemma of_uint_zeros (k : nat) (d : Decimal.uint) :
  N.of_uint (Nat.iter k Decimal.D0 d) = N.of_uint d.
Proof. induction k as [|k IH]; [reflexivity | exact IH]. Qed.

Lemma numeral_digits (n : N) :
  NilEmpty.uint_of_string (Js.numeral n) = Some (N.to_uint n).
Proof.
  unfold Js.numeral.
  assert (Hnn : N.to_uint n <> Decimal.Nil).
  { destruct n as [|p]; [discriminate | apply DecimalPos.Unsigned.to_uint_nonnil]. }
  unfold NilZero.string_of_uint.
  destruct (N.to_uint n) eqn:Hd; try contradiction; rewrite <- Hd;
    apply NilEmpty.usu.
Qed.

(** The counter can be read back from its padded rendering. *)
Lemma frame_number_padStart (n : N) :
  frame_number (Util.padStart (Js.numeral n) 5 "0") = Some n.
Proof.
  unfold frame_number.
  rewrite padStart_repeat, uint_of_zeros, numeral_digits. cbn [option_map].
  now rewrite of_uint_zeros, DecimalN.Unsigned.of_to.
Qed.

Lemma append_inv_head (s a b : string) : s +:+ a = s +:+ b -> a = b.
Proof.
  induction s as [|c s IH]; [easy|].
  change (String c s +:+ a) with (String c (s +:+ a)).
  change (String c s +:+ b) with (String c (s +:+ b)).
  intros [= Hs]. auto.
Qed.

Lemma append_inv_tail (s : string) :
  forall a b, a +:+ s = b +:+ s -> a = b.
Proof.
  induction a as [|c a IH]; intros [|c' b] Heq.
  - reflexivity.
  - apply (f_equal String.length) in Heq.
    rewrite !length_append in Heq. cbn in Heq. lia.
  - apply (f_equal String.length) in Heq.
    rewrite !length_append in Heq. cbn in Heq. lia.
  - change (String c (a +:+ s) = String c' (b +:+ s)) in Heq.
    injection Heq as -> Heq. f_equal. now apply IH.
Qed.

End Numbering.

Section Sequences.

Context {R : Type} `{!Host R}.

(** The files of a PNG sequence, for counters below [2^53] (where the
    counter is an exact integer and is rendered in plain decimal): the
    counter field of a file name decodes to the counter it was made
    from, so two frames of the same sensor on the same scene go to the
    same file only if their counters are equal, also past 99999 where
    the field grows beyond five digits. *)
Theorem sequence_files_are_distinct
    (this : CameraSensor) (st : SceneState) (j k : N) :
  (j < 2 ^ 53)%N -> (k < 2 ^ 53)%N ->
  frame_number (Util.padStart (Js.numeral k) 5 "0") = Some k
  /\ (sequence_file (at_frame this j) st = sequence_file (at_frame this k) st
      <-> j = k).
Proof.
  intros Hj Hk.
  split; [apply frame_number_padStart|]. split; [|now intros ->].
  unfold sequence_file. cbn [name numFramesRendered at_frame].
  rewrite !counter_numeral by lia.
  intros Heq.
  do 4 apply append_inv_head in Heq. apply append_inv_tail in Heq.
  apply (f_equal frame_number) in Heq.
  rewrite !frame_number_padStart in Heq. congruence.
Qed.

End Sequences.

Section FrameEvents.

Context {R : Type} `{!Host R}.

Lemma capture_cases (this : CameraSensor) (ss : nat) (W : World R) :
  let enc := get (objects W (config this)) "encoding" in
  returns (__getFrame this ss W) (fun f W' =>
    exists e,
      trace W' = trace W ++ [e]
      /\ is_render_call e = existsb (is_string enc) encodings
      /\ (is_render_call e = false ->
          e = ConsoleError ("Invalid encoding: " +:+ ToString enc))
      /\ shape f = [width (renderers W' (renderer this));
                    height (renderers W' (renderer this));
                    if is_string enc "gray" then 1 else 4]).
Proof.
  intros enc. assert (Henc : get (objects W (config this)) "encoding" = enc)
    by reflexivity.
  clearbody enc.
  assert (Hother : (forall t, enc <> VStr t) ->
    returns (__getFrame this ss W) (fun f W' =>
      exists e,
        trace W' = trace W ++ [e]
        /\ is_render_call e = existsb (is_string enc) encodings
        /\ (is_render_call e = false ->
            e = ConsoleError ("Invalid encoding: " +:+ ToString enc))
        /\ shape f = [width (renderers W' (renderer this));
                      height (renderers W' (renderer this));
                      if is_string enc "gray" then 1 else 4])).
  { intros Hnot. pose proof (capture_not_string this ss W) as Hc.
    cbv zeta in Hc. rewrite Henc in Hc. rewrite (Hc Hnot).
    cbn -[String.append ToString]. eexists. split; [reflexivity|].
    cbn [existsb encodings]. rewrite !is_string_not_string by assumption.
    now repeat split. }
  destruct enc as [| |b|x|s|l|o]; try (apply Hother; intros t; discriminate).
  clear Hother.
  destruct (decide (s = "rgba")) as [->|H1].
  { rewrite capture_rgba by assumption. cbn. rewrite fn_lookup_insert.
    eexists. now repeat split. }
  destruct (decide (s = "gray")) as [->|H2].
  { rewrite capture_gray by assumption. cbn -[Gray.pack].
    rewrite fn_lookup_insert. eexists. now repeat split. }
  destruct (decide (s = "pngbuf")) as [->|H3].
  { rewrite capture_pngbuf by assumption. cbn. rewrite fn_lookup_insert.
    eexists. now repeat split. }
  destruct (decide (s = "pngfile")) as [->|H4].
  { rewrite capture_pngfile by assumption. cbn -[single_file].
    rewrite fn_lookup_insert. eexists. now repeat split. }
  destruct (decide (s = "pngseq")) as [->|H5].
  { rewrite capture_pngseq by assumption. cbn -[sequence_file].
    rewrite fn_lookup_insert. eexists. now repeat split. }
  destruct (decide (s = "screen")) as [->|H6].
  { rewrite capture_screen by assumption. cbn. rewrite fn_lookup_insert.
    eexists. now repeat split. }
  rewrite capture_invalid with (e := s); [|assumption|].
  2:{ rewrite !not_elem_of_cons. repeat split; try assumption.
      apply not_elem_of_nil. }
  cbn -[String.append is_string existsb]. eexists. split; [reflexivity|].
  cbn [existsb encodings]. rewrite !is_string_other by assumption.
  now repeat split.
Qed.

(** Whatever the configuration holds as encoding, one [getFrame] call
    makes exactly one call on a collaborator: a drawing method of the
    renderer when the encoding is one of the six strings, the error line
    otherwise.  The frame's width and height are those [getShape] gives
    right after the call, and its channel count is 1 for "gray" and 4 in
    every other case. *)
Theorem getFrame_one_event_and_shape
    (this : CameraSensor) (ss : nat) (W : World R) :
  let enc := get (objects W (config this)) "encoding" in
  returns (getFrame this ss W) (fun '(f, this') W' =>
    (exists e,
       added W W' [e]
       /\ is_render_call e = existsb (is_string enc) encodings
       /\ (is_render_call e = false ->
           e = ConsoleError ("Invalid encoding: " +:+ ToString enc)))
    /\ exists w h,
         shape f = [w; h; if is_string enc "gray" then 1 else 4]
         /\ getShape this' W' = Ok [w; h; 4] W').
Proof.
  intros enc.
  pose proof (capture_cases this ss (overridden this ss W)) as Hcap.
  cbv zeta in Hcap. rewrite objects_overridden in Hcap. fold enc in Hcap.
  destruct (__getFrame this ss (overridden this ss W)) as [f W2|] eqn:Hrun;
    [|contradiction].
  rewrite (getFrame_of_capture _ _ _ _ _ Hrun).
  cbn -[String.append ToString existsb] in Hcap |- *.
  destruct Hcap as (e & Htr & Hcall & Herr & Hshape).
  split.
  - exists e. unfold added.
    rewrite trace_restored, Htr, trace_overridden. auto.
  - eexists _, _. split; [exact Hshape|].
    unfold getShape, bind, read_renderer, ret. cbn [renderer count_frame].
    now rewrite renderers_restored.
Qed.

Lemma getFrame_pngseq_step (this : CameraSensor) (ss : nat) (W : World R) :
  get (objects W (config this)) "encoding" = VStr "pngseq" ->
  exists f W1,
    getFrame this ss W = Ok (f, count_frame this) W1
    /\ encoding f = VStr "pngseq"
    /\ trace W1
       = trace W ++ [RenderToPng (renderer this) (scenes (overridden this ss W) ss)
                       (target_of (scenes W ss)) (camera this)
                       (sequence_file this (scenes W ss))]
    /\ objects W1 = objects W
    /\ (forall l, scenes W1 l = scenes W l).
Proof.
  intros Henc.
  assert (Hcap := capture_pngseq this ss (overridden this ss W)).
  cbv zeta in Hcap.
  rewrite objects_overridden, renderers_overridden, cameras_overridden,
    trace_overridden in Hcap.
  specialize (Hcap Henc).
  pose proof (scenes_getFrame this ss W) as Hsc.
  rewrite (getFrame_of_capture _ _ _ _ _ Hcap) in Hsc |- *.
  cbn -[sequence_file] in Hsc.
  eexists _, _. split; [reflexivity|]. split; [reflexivity|].
  split; [|split; [|exact Hsc]].
  - rewrite trace_restored. cbn -[sequence_file]. unfold sequence_file.
    now destruct (target_overridden this ss W) as [-> ->].
  - rewrite objects_restored. cbn -[sequence_file].
    apply objects_overridden.
Qed.

(** [n] successive frames of a PNG sequence that ends at a counter of at
    most 2^53: every call returns; the [k]-th call (counting from 0)
    makes the one renderer call of the sequence, to the file numbered
    with the counter the sensor started at plus [k]; afterwards the
    counter has advanced by [n], and every scene state and plain object
    is as before the first call. *)
Theorem getFrames_sequence (n : nat) :
  forall (this : CameraSensor) (ss : nat) (W : World R),
    (numFramesRendered this + N.of_nat n <= 2 ^ 53)%N ->
    get (objects W (config this)) "encoding" = VStr "pngseq" ->
    returns (getFrames n this ss W) (fun '(fs, this') W' =>
      length fs = n
      /\ this' = at_frame this (numFramesRendered this + N.of_nat n)
      /\ (forall l, scenes W' l = scenes W l)
      /\ objects W' = objects W
      /\ added W W'
           (map (fun k =>
                   RenderToPng (renderer this)
                     (scenes (overridden this ss W) ss)
                     (target_of (scenes W ss)) (camera this)
                     (sequence_file
                        (at_frame this (numFramesRendered this + N.of_nat k))
                        (scenes W ss)))
                (seq 0 n))).
Proof.
  induction n as [|n IH]; intros this ss W Hb Henc.
  - cbn. unfold added. rewrite N.add_0_r, app_nil_r.
    repeat split. now destruct this.
  - cbn [getFrames]. unfold bind at 1.
    destruct (getFrame_pngseq_step this ss W Henc)
      as (f & W1 & -> & _ & Htr & Hob & Hsc).
    unfold bind at 1.
    assert (Hc : count_frame this
                 = at_frame this (N.succ (numFramesRendered this))).
    { unfold count_frame, at_frame. now rewrite increment_exact by lia. }
    rewrite Hc in *.
    assert (Henc1 : get (objects W1 (config (at_frame this
                           (N.succ (numFramesRendered this))))) "encoding"
                    = VStr "pngseq") by (now rewrite Hob).
    assert (Hb1 : (numFramesRendered
                     (at_frame this (N.succ (numFramesRendered this)))
                   + N.of_nat n <= 2 ^ 53)%N)
      by (cbn [numFramesRendered at_frame]; lia).
    specialize (IH _ ss W1 Hb1 Henc1).
    destruct (getFrames n _ ss W1) as [[fs this''] W'|];
      [|contradiction].
    cbn -[sequence_file N.of_nat seq N.pow] in IH |- *.
    destruct IH as (Hlen & Hthis & Hsc' & Hob' & Hadd).
    split; [now rewrite Hlen|].
    split.
    { rewrite Hthis. unfold at_frame. cbn. f_equal. lia. }
    split; [intros l; now rewrite Hsc', Hsc|].
    split; [now rewrite Hob', Hob|].
    unfold added in *. rewrite Hadd, Htr, <- app_assoc. f_equal.
    cbn [app seq map]. rewrite <- seq_shift, map_map.
    f_equal.
    + f_equal. unfold sequence_file, at_frame. cbn.
      now rewrite N.add_0_r.
    + apply map_ext. intros k.
      rewrite !scene_overridden, Hsc. cbn [showDebugNode at_frame].
      unfold sequence_file, at_frame.
      cbn [name numFramesRendered renderer camera].
      replace (N.succ (numFramesRendered this) + N.of_nat k)%N
        with (numFramesRendered this + N.of_nat (S k))%N by lia.
      reflexivity.
Qed.

End FrameEvents.

(** ** The debug node during a capture *)

Section DebugNode.

Context {R : Type} `{!Host R}.

(** C4. With a debug node on the scene state, [getFrame] is the
    override, the capture step and the restore, in this order.  The
    override returns the node's visibility and leaves the node's
    visibility forced to the sensor's flag.  The capture step then runs
    on that store: it leaves the node at the flag and makes exactly one
    call, which for each of the six encodings is a render call that sees
    the scene state with the node at the flag, and for any other
    encoding is no render call.  [getFrame] returns the frame of that
    capture step with that one call added to the trace, and when it has
    returned the scene state, and with it the node's visibility, is what
    it was before the call. *)
Theorem getFrame_debug_node_visibility
    (this : CameraSensor) (ss : nat) (W : World R) (d : DebugNode) :
  let flag := {| visible := VBool (showDebugNode this) |} in
  let enc := get (objects W (config this)) "encoding" in
  debugNode (scenes W ss) = Some d ->
  exists W1,
    overrideDebugNode this ss W = Ok (visible d) W1
    /\ debugNode (scenes W1 ss) = Some flag
    /\ returns (__getFrame this ss W1) (fun f W2 =>
         debugNode (scenes W2 ss) = Some flag
         /\ exists e,
              added W1 W2 [e]
              /\ (existsb (is_string enc) encodings = true ->
                  exists st,
                    rendered_state e = Some st /\ debugNode st = Some flag)
              /\ (existsb (is_string enc) encodings = false ->
                  rendered_state e = None)
              /\ returns (getFrame this ss W) (fun '(f', _) W' =>
                   f' = f
                   /\ added W W' [e]
                   /\ scenes W' ss = scenes W ss
                   /\ debugNode (scenes W' ss) = Some d)).
Proof.
  intros flag enc Hd. exists (overridden this ss W).
  assert (Hforced : debugNode (scenes (overridden this ss W) ss) = Some flag).
  { rewrite scene_overridden, debugNode_set_visible. now rewrite Hd. }
  split.
  { rewrite override_run. unfold saved_visibility. now rewrite Hd. }
  split; [exact Hforced|].
  pose proof (capture_cases this ss (overridden this ss W)) as Hc.
  pose proof (capture_returns this ss (overridden this ss W)) as Hr.
  pose proof (scenes_getFrame this ss W) as Hback.
  cbv zeta in Hc. rewrite objects_overridden in Hc. fold enc in Hc.
  destruct (__getFrame this ss (overridden this ss W)) as [f W2|] eqn:Hcap;
    [|contradiction].
  rewrite (getFrame_of_capture _ _ _ _ _ Hcap) in Hback |- *.
  cbv beta iota delta [returns] in Hc, Hr, Hback |- *.
  destruct Hc as (e & Htr & Hcall & _).
  destruct Hr as (Hsc & _ & _ & _ & _ & (evs & Hadd & Hseen) & _).
  unfold added in Hadd. rewrite Htr in Hadd. apply app_inv_head in Hadd.
  subst evs.
  split; [now rewrite Hsc|].
  exists e. split; [exact Htr|]. unfold is_render_call in Hcall.
  split; [|split].
  - intros Hyes. rewrite Hyes in Hcall.
    destruct (rendered_state e) as [st|] eqn:Hst; [|discriminate].
    exists st. split; [reflexivity|].
    rewrite (Hseen e st); [exact Hforced| |exact Hst].
    now apply list_elem_of_singleton.
  - intros Hno. rewrite Hno in Hcall.
    now destruct (rendered_state e).
  - split; [reflexivity|]. split; [|split].
    + unfold added. now rewrite trace_restored, Htr, trace_overridden.
    + apply Hback.
    + now rewrite Hback.
Qed.

End DebugNode.

(** ** More on construction *)

Section ConstructionSteps.

Context {R : Type} `{!Host R}.

Lemma index_type_error (v : value) (i : nat) (e : exn) :
  index v i = inl e -> exists msg, e = TypeError msg.
Proof. destruct v; cbn; intros [= <-]; eauto. Qed.

Lemma length_exceeds_type_error (v : value) (n : nat) (e : exn) :
  length_exceeds v n = inl e -> exists msg, e = TypeError msg.
Proof. destruct v; cbn; intros [= <-]; eauto. Qed.

Lemma cameraConfigFor_throws (config : nat) (W W1 : World R) (e : exn) :
  cameraConfigFor config W = Throw e W1 -> exists msg, e = TypeError msg.
Proof.
  unfold cameraConfigFor. run.
  destruct (index _ 0) as [e0|w] eqn:Hw.
  - rewrite run_lift_inl. intros [= <- _]. eapply index_type_error, Hw.
  - run. destruct (index _ 1) as [e1|h] eqn:Hh.
    + rewrite run_lift_inl. intros [= <- _]. eapply index_type_error, Hh.
    + run. unfold ret. discriminate.
Qed.

Lemma singleCameraFor_calls (config cameraConfig : nat) (W : World R)
    (camPos : value) :
  let o := objects W cameraConfig in
  index (get o "position") 0 = inr camPos ->
  exists W1,
    singleCameraFor config cameraConfig W = Ok (next W, config) W1
    /\ cameras W1 (next W) = single_camera o camPos
    /\ trace W1 = trace W ++ camera_calls_for o (next W) camPos
    /\ only_camera (next W) W W1.
Proof.
  intros o Hpos. unfold singleCameraFor. run. fold o. rewrite Hpos. run.
  fold o.
  assert (Hframe : forall (f : nat -> Camera) t,
            (forall l, l <> next W -> f l = cameras W l) ->
            only_camera (next W) W
              {| objects := objects W; cameras := f; renderers := renderers W;
                 scenes := scenes W; next := S (next W); trace := t |}).
  { intros f t Hf. repeat split. exact Hf. }
  unfold camera_calls_for, camera_calls.
  destruct (ToBoolean (get o "orientation")) eqn:Hori.
  - destruct (truthy_index _ 0 Hori) as [o0 Ho0].
    run. fold o. rewrite Ho0. run. unfold ret.
    eexists. split; [reflexivity|]. cbn [cameras trace].
    rewrite fn_lookup_insert. split; [reflexivity|].
    split; [now rewrite <- !app_assoc|].
    apply Hframe. intros l Hl. now rewrite !fn_lookup_insert_ne by congruence.
  - run. unfold ret.
    eexists. split; [reflexivity|]. cbn [cameras trace].
    rewrite fn_lookup_insert. split; [reflexivity|].
    split; [now rewrite <- !app_assoc|].
    apply Hframe. intros l Hl. now rewrite !fn_lookup_insert_ne by congruence.
Qed.

End ConstructionSteps.

Section ConstructionRuns.

Context {R : Type} `{!Host R}.

(** The single-position construction, with every collaborator call. *)
Lemma construction_single_run (config : nat) (opts : Opts) (W : World R)
    (w h camPos : value) :
  (config < next W)%nat ->
  let cfg := objects W config in
  let n := next W in
  let wc := working_copy cfg w h in
  let this := {| name := get cfg "name"; config := config;
                 showDebugNode := ToBoolean (opt_showDebugNode opts);
                 camera := S n; renderer := S (S n);
                 numFramesRendered := 0 |} in
  index (get cfg "resolution") 0 = inr w ->
  index (get cfg "resolution") 1 = inr h ->
  length_exceeds (get cfg "position") 1 = inr false ->
  index (get cfg "position") 0 = inr camPos ->
  exists W1,
    let r := renderers W1 (S (S n)) in
    CameraSensor_new config opts W
    = Ok this (if size_differs r cfg
               then resized this (width_of r) (height_of r) W1 else W1)
    /\ trace W1 = trace W ++ camera_calls_for wc (S n) camPos
                  ++ [GetRenderer config cfg]
    /\ r = getRenderer cfg opts
    /\ cameras W1 (S n)
       = set_name_and_flag (get cfg "name") (get cfg "isEquirectangular")
           (single_camera wc camPos)
    /\ objects W1 config = cfg
    /\ scenes W1 = scenes W.
Proof.
  intros Hlt cfg n wc this Hw Hh Hlen Hpos.
  unfold CameraSensor_new, Sensor_call. run. fold cfg.
  unfold bind at 1.
  pose proof (cameraConfigFor_run config W) as H1. cbv zeta in H1. fold cfg in H1.
  destruct (cameraConfigFor config W) as [c W1|e W1].
  2:{ destruct H1 as ([Hres|Hres] & _); rewrite Hres in Hw; discriminate. }
  destruct H1 as (-> & (w' & h' & Hw' & Hh' & Hwc) & Hobj & Hcam & Hren & Hsc & Htr & Hnx).
  assert (w' = w) as -> by congruence. assert (h' = h) as -> by congruence.
  fold wc in Hwc.
  assert (Hcfg1 : objects W1 config = cfg) by (apply Hobj; lia).
  run. rewrite Hwc. unfold wc at 1.
  rewrite get_working_copy_plain by (discriminate || reflexivity). fold cfg.
  rewrite Hlen. run.
  unfold bind at 1.
  destruct (singleCameraFor_calls config (next W) W1 camPos)
    as (W2 & -> & Hc2 & Ht2 & Ho2 & Hcs2 & Hr2 & Hs2 & Hn2).
  { cbv zeta. rewrite Hwc. unfold wc.
    rewrite get_working_copy_plain by (discriminate || reflexivity).
    exact Hpos. }
  rewrite Hnx in *. rewrite Hwc in *.
  run. rewrite Ho2, Hcfg1, Hwc. unfold wc at 1.
  rewrite get_working_copy_plain by (discriminate || reflexivity).
  fold cfg.
  unfold bind at 1.
  match goal with
  | |- context [obtainRenderer ?rc ?o ?W3] =>
      destruct (obtainRenderer_run rc o W3)
        as (W4 & -> & Hr4 & Hrs4 & Ho4 & Hc4 & Hs4 & Ht4 & Hn4)
  end.
  cbn [objects cameras renderers scenes next trace] in *.
  unfold bind at 1. rewrite reconcileSize_run. cbn [renderer].
  rewrite Hn2 in *. fold n in Hr4 |- *. fold this.
  exists W4. cbv zeta.
  assert (Hcfg4 : objects W4 config = cfg)
    by (rewrite Ho4, ?Ho2; exact Hcfg1).
  rewrite Hcfg4.
  split.
  { destruct (size_differs _ _); [now rewrite setSize_run | reflexivity]. }
  split; [rewrite Ht4, Ht2, Htr, ?Ho2, Hcfg1; now rewrite <- app_assoc|].
  split; [now rewrite Hr4, ?Ho2, Hcfg1|].
  split; [now rewrite Hc4, fn_lookup_insert, Hc2|].
  split; [reflexivity|]. congruence.
Qed.

(** When the constructor throws it has called no collaborator. *)
Lemma construction_throw_run (config : nat) (opts : Opts) (W : World R) :
  match CameraSensor_new config opts W with
  | Ok _ _ => True
  | Throw e W' =>
      (exists msg, e = TypeError msg)
      /\ trace W' = trace W
      /\ cameras W' = cameras W
      /\ renderers W' = renderers W
  end.
Proof.
  unfold CameraSensor_new, Sensor_call. run.
  unfold bind at 1.
  pose proof (cameraConfigFor_run config W) as H1. cbv zeta in H1.
  destruct (cameraConfigFor config W) as [c W1|e W1] eqn:Hcc.
  2:{ destruct H1 as (_ & _ & Hcam & Hren & _ & Htr & _).
      split; [exact (cameraConfigFor_throws _ _ _ _ Hcc)|]. auto. }
  destruct H1 as (-> & _ & Hobj & Hcam & Hren & Hsc & Htr & Hnx).
  run.
  destruct (length_exceeds (get (objects W1 (next W)) "position") 1)
    as [e|isArray] eqn:Hpos.
  { rewrite run_lift_inl.
    split; [exact (length_exceeds_type_error _ _ _ Hpos)|]. auto. }
  run. destruct isArray.
  - unfold bind at 1.
    destruct (arrayCameraFor_run config (next W) W1) as (W2 & -> & _).
    run. unfold bind at 1.
    match goal with
    | |- context [obtainRenderer ?rc ?o ?W3] =>
        destruct (obtainRenderer_run rc o W3) as (W4 & -> & _)
    end.
    unfold bind at 1. rewrite reconcileSize_run.
    destruct (size_differs _ _); [now rewrite setSize_run | exact I].
  - destruct (length_exceeds_index _ 1 0 false Hpos) as [camPos Hcp].
    unfold bind at 1.
    destruct (singleCameraFor_calls config (next W) W1 camPos Hcp)
      as (W2 & -> & _).
    run. unfold bind at 1.
    match goal with
    | |- context [obtainRenderer ?rc ?o ?W3] =>
        destruct (obtainRenderer_run rc o W3) as (W4 & -> & _)
    end.
    unfold bind at 1. rewrite reconcileSize_run.
    destruct (size_differs _ _); [now rewrite setSize_run | exact I].
Qed.

End ConstructionRuns.

Section SingleCamera.

Context {R : Type} `{!Host R}.

Lemma has_properties_index (v : value) (i : nat) :
  has_properties v -> exists x, index v i = inr x.
Proof. intros [H1 H2]. destruct v; cbn; eauto; contradiction. Qed.

Lemma has_properties_length (v : value) (n : nat) :
  has_properties v -> exists b, length_exceeds v n = inr b.
Proof. intros [H1 H2]. destruct v; cbn; eauto; contradiction. Qed.

Lemma index_has_properties (v : value) (i : nat) (x : value) :
  index v i = inr x -> has_properties v.
Proof. destruct v; cbn; intros Hi; try discriminate; split; discriminate. Qed.

Lemma length_has_properties (v : value) (n : nat) (b : bool) :
  length_exceeds v n = inr b -> has_properties v.
Proof. destruct v; cbn; intros Hi; try discriminate; split; discriminate. Qed.

Lemma working_copy_size (cfg : obj) (w h : value) :
  get (working_copy cfg w h) "width" = w
  /\ get (working_copy cfg w h) "height" = h.
Proof.
  unfold working_copy. split.
  - rewrite get_insert_ne by discriminate. apply get_insert.
  - apply get_insert.
Qed.

Lemma working_copy_planes (cfg : obj) (w h : value) :
  get (working_copy cfg w h) "near"
  = VNum (ToNumber (with_default (get cfg "near") (VNum 0.001))
          * metersToVirtualUnit)%float
  /\ get (working_copy cfg w h) "far"
     = VNum (ToNumber (with_default (get cfg "far") (VNum 20))
             * metersToVirtualUnit)%float.
Proof.
  unfold working_copy. split.
  - rewrite !get_insert_ne by discriminate. rewrite get_insert.
    now rewrite get_filled.
  - rewrite !get_insert_ne by discriminate. rewrite get_insert.
    now rewrite get_filled.
Qed.

(** The calls of a resize to the renderer's own size: the renderer's
    [setSize] is not among them. *)
Lemma resize_events_own_size (this : CameraSensor) (W : World R) :
  let r := renderers W (renderer this) in
  resize_events this (width_of r) (height_of r) W
  = [ConsoleLog ("resize sensor " +:+ ToString (name this) +:+ " to "
                 +:+ ToString (width_of r) +:+ "x"
                 +:+ ToString (height_of r));
     UpdateProjectionMatrix (camera this)
       (Js.of_int (width r) / Js.of_int (height r))%float]
    ++ (if isArrayCamera (cameras W (camera this))
        then [ResizeCameras (camera this) (width_of r) (height_of r)]
        else []).
Proof.
  intros r. unfold resize_events. fold r.
  unfold width_of at 3 6, height_of at 3 6. rewrite !differs_from_own.
  cbn [orb]. now rewrite app_nil_r.
Qed.

Lemma scenes_resized (this : CameraSensor) (w h : value) (W : World R) :
  scenes (resized this w h W) = scenes W.
Proof.
  unfold resized.
  now destruct (differs_from (width (renderers W (renderer this))) w
                || differs_from (height (renderers W (renderer this))) h).
Qed.

Lemma camera_resized (this : CameraSensor) (w h : value) (W : World R) :
  cameras (resized this w h W) (camera this)
  = set_aspect (ToNumber w / ToNumber h)%float (cameras W (camera this)).
Proof.
  unfold resized.
  destruct (differs_from (width (renderers W (renderer this))) w
            || differs_from (height (renderers W (renderer this))) h);
    cbn; now rewrite fn_lookup_insert.
Qed.

(** One position (a position list of at most one entry): the calls
    the constructor makes, in order.  A perspective camera is made with
    the field of view, the aspect resolution[0] / resolution[1], and near
    and far in virtual units; its position is copied from position[0];
    [lookAt] is called exactly when the configuration has a truthy
    orientation; the camera's matrices are updated; then the factory is
    called with the caller's own configuration object; and a resize to
    the renderer's size follows when that differs from the
    configuration's [width] and [height].  The camera ends up at
    position[0], named after the configuration. *)
Theorem construction_single_camera_calls
    (config : nat) (opts : Opts) (W : World R) :
  (config < next W)%nat ->
  let cfg := objects W config in
  has_properties (get cfg "resolution") ->
  length_exceeds (get cfg "position") 1 = inr false ->
  returns (CameraSensor_new config opts W) (fun this W' =>
    exists w h camPos,
      let cam := cameras W' (camera this) in
      let r := renderers W' (renderer this) in
      index (get cfg "resolution") 0 = inr w
      /\ index (get cfg "resolution") 1 = inr h
      /\ index (get cfg "position") 0 = inr camPos
      /\ added W W'
           (camera_calls (with_default (get cfg "fov") (VNum 45))
              (ToNumber w / ToNumber h)%float
              (VNum (ToNumber (with_default (get cfg "near") (VNum 0.001))
                     * metersToVirtualUnit)%float)
              (VNum (ToNumber (with_default (get cfg "far") (VNum 20))
                     * metersToVirtualUnit)%float)
              (get cfg "orientation") (camera this) camPos
            ++ [GetRenderer config cfg]
            ++ (if size_differs r cfg
                then [ConsoleLog ("resize sensor " +:+ ToString (get cfg "name")
                                  +:+ " to " +:+ ToString (width_of r)
                                  +:+ "x" +:+ ToString (height_of r));
                      UpdateProjectionMatrix (camera this)
                        (Js.of_int (width r) / Js.of_int (height r))%float]
                else []))
      /\ position cam = camPos
      /\ cam_name cam = get cfg "name"
      /\ isEquirectangular cam = get cfg "isEquirectangular"
      /\ isArrayCamera cam = false).
Proof.
  intros Hlt cfg Hres Hlen.
  destruct (has_properties_index _ 0 Hres) as [w Hw].
  destruct (has_properties_index _ 1 Hres) as [h Hh].
  destruct (length_exceeds_index _ 1 0 false Hlen) as [camPos Hpos].
  destruct (construction_single_run config opts W w h camPos Hlt Hw Hh Hlen Hpos)
    as (W1 & -> & Htr & Hr & Hcam & Hcfg & Hsc).
  cbv beta iota delta [returns]. fold cfg in Htr, Hr, Hcam, Hcfg |- *.
  exists w, h, camPos. cbv zeta.
  split; [exact Hw|]. split; [exact Hh|]. split; [exact Hpos|].
  cbn [camera renderer name].
  set (this := {| name := get cfg "name"; config := config;
                  showDebugNode := ToBoolean (opt_showDebugNode opts);
                  camera := S (next W); renderer := S (S (next W));
                  numFramesRendered := 0 |}) in *.
  assert (Hcalls : camera_calls_for (working_copy cfg w h) (S (next W)) camPos
                   = camera_calls (with_default (get cfg "fov") (VNum 45))
                       (ToNumber w / ToNumber h)%float
                       (VNum (ToNumber (with_default (get cfg "near") (VNum 0.001))
                              * metersToVirtualUnit)%float)
                       (VNum (ToNumber (with_default (get cfg "far") (VNum 20))
                              * metersToVirtualUnit)%float)
                       (get cfg "orientation") (S (next W)) camPos).
  { unfold camera_calls_for.
    destruct (working_copy_size cfg w h) as [-> ->].
    destruct (working_copy_planes cfg w h) as [-> ->].
    rewrite (get_working_copy _ _ _ "fov") by discriminate.
    rewrite (get_working_copy_plain _ _ _ "orientation")
      by (discriminate || reflexivity).
    reflexivity. }
  rewrite Hcalls in Htr.
  destruct (size_differs (renderers W1 (S (S (next W)))) cfg) eqn:Hdiff.
  - change (S (S (next W))) with (renderer this) in Hdiff |- *.
    rewrite resized_same_size, Hdiff.
    change (S (next W)) with (camera this) at 3 4 5 6.
    rewrite camera_resized. cbn [position cam_name isEquirectangular
                                 isArrayCamera set_aspect].
    change (camera this) with (S (next W)). rewrite Hcam.
    split; [|now repeat split].
    unfold added. rewrite trace_resized, Htr, resize_events_own_size.
    change (cameras W1 (camera this)) with (cameras W1 (S (next W))).
    rewrite Hcam. cbn [isArrayCamera set_name_and_flag single_camera
                       set_position Camera_new].
    now rewrite ?app_nil_r, <- ?app_assoc.
  - rewrite Hdiff, Hcam. split; [|now repeat split].
    unfold added. now rewrite Htr, ?app_nil_r, <- ?app_assoc.
Qed.

End SingleCamera.

Section ConstructionOutcomes.

Context {R : Type} `{!Host R}.

Lemma camera_calls_quiet (fov : value) (asp : float) (near far : value)
    (orientation : value) (cam : nat) (camPos : value) (e : event) :
  e ∈ camera_calls fov asp near far orientation cam camPos ->
  is_renderer_method e = false /\ is_factory_call e = false.
Proof.
  unfold camera_calls. destruct (ToBoolean orientation); cbn [app];
    rewrite !elem_of_cons, elem_of_nil; intuition (subst; reflexivity).
Qed.

Lemma resize_events_quiet (this : CameraSensor) (W : World R) (e : event) :
  let r := renderers W (renderer this) in
  e ∈ resize_events this (width_of r) (height_of r) W ->
  is_renderer_method e = false /\ is_factory_call e = false.
Proof.
  intros r. unfold r. rewrite resize_events_own_size.
  destruct (isArrayCamera _); cbn [app];
    rewrite !elem_of_cons, elem_of_nil; intuition (subst; reflexivity).
Qed.

Lemma filter_quiet (evs : list event) :
  (forall e, e ∈ evs -> is_renderer_method e = false /\ is_factory_call e = false) ->
  List.filter is_factory_call evs = [].
Proof.
  induction evs as [|e evs IH]; intros Hq; [reflexivity|].
  cbn. destruct (Hq e) as [_ ->]; [now left|].
  apply IH. intros e' He'. apply Hq. now right.
Qed.

(** The events of a successful construction. *)
Lemma construction_events (config : nat) (opts : Opts) (W : World R) :
  (config < next W)%nat ->
  has_properties (get (objects W config) "resolution") ->
  has_properties (get (objects W config) "position") ->
  returns (CameraSensor_new config opts W) (fun this W' =>
    exists before rc props after,
      trace W' = trace W ++ before ++ [GetRenderer rc props] ++ after
      /\ (forall e, e ∈ before ++ after ->
            is_renderer_method e = false /\ is_factory_call e = false)).
Proof.
  intros Hlt Hres Hpos.
  assert (Hshape : forall this (W1 W' : World R) before rc props,
    trace W1 = trace W ++ before ++ [GetRenderer rc props] ->
    (forall e, e ∈ before ->
       is_renderer_method e = false /\ is_factory_call e = false) ->
    W' = (if size_differs (renderers W1 (renderer this)) (objects W1 rc)
          then resized this (width_of (renderers W1 (renderer this)))
                 (height_of (renderers W1 (renderer this))) W1
          else W1) ->
    exists before rc props after,
      trace W' = trace W ++ before ++ [GetRenderer rc props] ++ after
      /\ (forall e, e ∈ before ++ after ->
            is_renderer_method e = false /\ is_factory_call e = false)).
  { intros this W1 W' before rc props Htr Hq ->.
    exists before, rc, props. destruct (size_differs _ _).
    - exists (resize_events this (width_of (renderers W1 (renderer this)))
                (height_of (renderers W1 (renderer this))) W1).
      split; [rewrite trace_resized, Htr; now rewrite <- !app_assoc|].
      intros e He. apply elem_of_app in He as [He|He];
        [now apply Hq | now apply resize_events_quiet in He].
    - exists []. split; [now rewrite Htr, app_nil_r|].
      intros e He. rewrite app_nil_r in He. now apply Hq. }
  destruct (has_properties_length _ 1 Hpos) as [[|] Hlen].
  - pose proof (construction_returns config opts W Hlt Hres Hpos) as Hrun.
    destruct (CameraSensor_new config opts W) as [this W'|e W'];
      [|contradiction].
    cbv beta iota delta [returns] in Hrun |- *.
    destruct Hrun as (w & h & isArray & W1 & rc & evs & _ & _ & Harr & _
                      & _ & Hbranch & _ & Htr & _ & _ & HW').
    assert (isArray = true) as -> by congruence.
    destruct Hbranch as (_ & _ & _ & ->).
    apply (Hshape this W1 W' _ rc (objects W1 rc) Htr); [|exact HW'].
    intros e He. apply list_elem_of_singleton in He. now subst e.
  - destruct (has_properties_index _ 0 Hres) as [w Hw].
    destruct (has_properties_index _ 1 Hres) as [h Hh].
    destruct (length_exceeds_index _ 1 0 false Hlen) as [camPos Hcp].
    destruct (construction_single_run config opts W w h camPos Hlt Hw Hh Hlen Hcp)
      as (W1 & -> & Htr & _ & _ & Hcfg & _).
    cbv beta iota delta [returns].
    match goal with
    | |- context [trace (if _ then resized ?t _ _ _ else _)] =>
        apply (Hshape t W1 _ _ config (objects W config) Htr)
    end.
    + intros e He. now apply camera_calls_quiet in He.
    + cbn [renderer]. now rewrite Hcfg.
Qed.

(** At construction the renderer is obtained and then left alone:
    whenever the constructor returns, the factory has been called exactly
    once, and no method of any renderer, neither a drawing method nor
    [setSize], has been called; the renderer the sensor holds is the one
    the factory returned. *)
Theorem construction_leaves_renderer_alone
    (config : nat) (opts : Opts) (W : World R) :
  (config < next W)%nat ->
  has_properties (get (objects W config) "resolution") ->
  has_properties (get (objects W config) "position") ->
  returns (CameraSensor_new config opts W) (fun this W' =>
    forall evs,
      added W W' evs ->
      (forall e, e ∈ evs -> is_renderer_method e = false)
      /\ length (List.filter is_factory_call evs) = 1%nat
      /\ exists l props,
           GetRenderer l props ∈ evs
           /\ renderers W' (renderer this) = getRenderer props opts).
Proof.
  intros Hlt Hres Hpos.
  pose proof (construction_events config opts W Hlt Hres Hpos) as Hev.
  pose proof (construction_returns config opts W Hlt Hres Hpos) as Hrun.
  destruct (CameraSensor_new config opts W) as [this W'|e W'];
    [|contradiction].
  cbv beta iota delta [returns] in Hev, Hrun |- *.
  destruct Hev as (before & rc & props & after & Htr & Hquiet).
  intros evs Hadd. unfold added in Hadd. rewrite Htr in Hadd.
  apply app_inv_head in Hadd. subst evs.
  split; [|split].
  - intros e He. rewrite !elem_of_app in He.
    destruct He as [He|[He|He]].
    + apply Hquiet. apply elem_of_app. now left.
    + apply list_elem_of_singleton in He. now subst e.
    + apply Hquiet. apply elem_of_app. now right.
  - rewrite !List.filter_app.
    rewrite (filter_quiet before), (filter_quiet after); [reflexivity| |].
    + intros e He. apply Hquiet, elem_of_app. now right.
    + intros e He. apply Hquiet, elem_of_app. now left.
  - destruct Hrun as (w & h & isArray & W1 & rc' & evs & _ & _ & _ & _
                      & _ & _ & Hno & Htr1 & Hr & _ & HW').
    exists rc', (objects W1 rc'). split.
    + assert (Htr' : trace W' = trace W ++ evs ++ [GetRenderer rc' (objects W1 rc')]
                       ++ (if size_differs (renderers W1 (renderer this)) (objects W1 rc')
                           then resize_events this
                                  (width_of (renderers W1 (renderer this)))
                                  (height_of (renderers W1 (renderer this))) W1
                           else [])).
      { rewrite HW'. destruct (size_differs _ _).
        - now rewrite trace_resized, Htr1, <- ?app_assoc.
        - now rewrite Htr1, ?app_nil_r, <- ?app_assoc. }
      rewrite Htr in Htr'. apply app_inv_head in Htr'. rewrite Htr'.
      rewrite !elem_of_app. right. left. now apply list_elem_of_singleton.
    + rewrite <- Hr, HW'. destruct (size_differs _ _); [|reflexivity].
      now rewrite resized_same_size.
Qed.

(** With the calls on collaborators taken to return, the constructor
    throws exactly when the configuration's [resolution] or [position] is
    [undefined] or [null]; what it throws is a TypeError, and it throws
    before any collaborator is called: no camera has been made and no
    renderer requested, and the caller's configuration is as it was. *)
Theorem construction_throws_exactly
    (config : nat) (opts : Opts) (W : World R) :
  (config < next W)%nat ->
  let cfg := objects W config in
  match CameraSensor_new config opts W with
  | Ok _ _ =>
      has_properties (get cfg "resolution")
      /\ has_properties (get cfg "position")
  | Throw e W' =>
      (get cfg "resolution" = VUndefined \/ get cfg "resolution" = VNull
       \/ get cfg "position" = VUndefined \/ get cfg "position" = VNull)
      /\ (exists msg, e = TypeError msg)
      /\ added W W' []
      /\ cameras W' = cameras W
      /\ renderers W' = renderers W
      /\ objects W' config = cfg
  end.
Proof.
  intros Hlt cfg.
  pose proof (construction_run config opts W Hlt) as Hrun.
  pose proof (construction_throw_run config opts W) as Hthrow.
  cbv zeta in Hrun. fold cfg in Hrun.
  destruct (CameraSensor_new config opts W) as [this W'|e W'].
  - destruct Hrun as (w & h & isArray & W1 & rc & evs & Hw & _ & Harr & _).
    split.
    + exact (index_has_properties _ _ _ Hw).
    + exact (length_has_properties _ _ _ Harr).
  - destruct Hrun as (Hwhy & _ & Hkept & _).
    destruct Hthrow as (Hty & Htr & Hcam & Hren).
    split; [exact Hwhy|]. split; [exact Hty|].
    split; [unfold added; now rewrite app_nil_r|].
    split; [exact Hcam|]. split; [exact Hren|].
    now destruct (Hkept config Hlt).
Qed.

(** Construction followed by the first frame of a PNG sequence: the
    new sensor's counter starts at 0, so the first file is
    <sceneName>_<config.name>_00000.png, written by the last call of the
    two steps, and the counter is 1 afterwards. *)
Theorem first_sequence_frame
    (conf : nat) (opts : Opts) (ss : nat) (W : World R) :
  (conf < next W)%nat ->
  let cfg := objects W conf in
  has_properties (get cfg "resolution") ->
  has_properties (get cfg "position") ->
  get cfg "encoding" = VStr "pngseq" ->
  returns (bind (CameraSensor_new conf opts) (fun this => getFrame this ss) W)
    (fun '(f, this') W' =>
       numFramesRendered this' = 1%N
       /\ encoding f = VStr "pngseq"
       /\ exists before st,
            added W W'
              (before ++
               [RenderToPng (renderer this') st (target_of (scenes W ss))
                  (camera this')
                  (ToString (target_name (scenes W ss)
                               (target_of (scenes W ss)))
                   +:+ "_" +:+ ToString (get cfg "name") +:+ "_00000.png")])).
Proof.
  intros Hlt cfg Hres Hpos Henc.
  pose proof (construction_returns conf opts W Hlt Hres Hpos) as Hrun.
  pose proof (construction_events conf opts W Hlt Hres Hpos) as Hev.
  unfold bind.
  destruct (CameraSensor_new conf opts W) as [this W1|e W1];
    [|contradiction].
  cbv beta iota delta [returns] in Hrun, Hev.
  destruct Hrun as (w & h & isArray & W0 & rc & evs & _ & _ & _ & Hthis
                    & _ & _ & _ & _ & _ & (Hnext & Hkept & Hsc) & HW1).
  destruct Hev as (before & rc' & props & after & Htr1 & _).
  assert (Hobj : objects W1 conf = cfg).
  { rewrite HW1. destruct (size_differs _ _); rewrite ?objects_resized;
      now destruct (Hkept conf Hlt). }
  assert (Hscn : scenes W1 = scenes W).
  { rewrite HW1. destruct (size_differs _ _); rewrite ?scenes_resized;
      exact Hsc. }
  assert (Hname : name this = get cfg "name") by (now rewrite Hthis).
  assert (Hcount : numFramesRendered this = 0%N) by (now rewrite Hthis).
  assert (Henc1 : get (objects W1 (config this)) "encoding"
                  = VStr "pngseq").
  { replace (config this) with conf by (now rewrite Hthis).
    now rewrite Hobj. }
  destruct (getFrame_pngseq_step this ss W1 Henc1)
    as (f & W' & -> & Hf & Htr & _ & _).
  cbv beta iota delta [returns].
  split; [cbn; now rewrite Hcount|]. split; [exact Hf|].
  exists (before ++ [GetRenderer rc' props] ++ after),
    (scenes (overridden this ss W1) ss).
  unfold added. rewrite Htr, Htr1, Hscn, <- !app_assoc.
  unfold sequence_file. rewrite Hname, Hcount. reflexivity.
Qed.

End ConstructionOutcomes.

(** ** Gray levels, sizes, buffers and metadata *)

Section GrayInputs.

Lemma packed_agree (p q : list Z) (k : Z) :
  0 <= k ->
  (forall j : nat, (j < 3)%nat ->
     p !! (Z.to_nat (4 * k) + j)%nat = q !! (Z.to_nat (4 * k) + j)%nat) ->
  packed p k = packed q k.
Proof.
  intros Hk Hj. unfold packed, TypedArray.operand, TypedArray.get.
  replace (4 * k <? 0) with false by (symmetry; apply Z.ltb_ge; lia).
  replace (4 * k + 1 <? 0) with false by (symmetry; apply Z.ltb_ge; lia).
  replace (4 * k + 2 <? 0) with false by (symmetry; apply Z.ltb_ge; lia).
  replace (Z.to_nat (4 * k + 1)) with (Z.to_nat (4 * k) + 1)%nat by lia.
  replace (Z.to_nat (4 * k + 2)) with (Z.to_nat (4 * k) + 2)%nat by lia.
  rewrite <- (Hj 1%nat), <- (Hj 2%nat) by lia.
  specialize (Hj 0%nat ltac:(lia)). rewrite Nat.add_0_r in Hj.
  now rewrite Hj.
Qed.

(** What the packing reads: the red, green and blue bytes of the
    complete pixels and nothing else.  Two rendered arrays (of at most
    [2^31] bytes) with the same number of complete pixels that agree on
    those bytes are packed to the same data, whatever their alpha bytes
    and whatever follows the last complete pixel. *)
Theorem gray_packing_reads_rgb_only (p q : list Z) :
  Z.of_nat (length p) <= 2 ^ 31 -> Z.of_nat (length q) <= 2 ^ 31 ->
  (length p / 4 = length q / 4)%nat ->
  (forall k : nat,
     (k < 4 * (length p / 4))%nat -> (k mod 4 <> 3)%nat -> p !! k = q !! k) ->
  Gray.pack p = Gray.pack q.
Proof.
  intros Hp Hq Hn Hrgb.
  assert (Hdiv : forall l : list Z,
            Z.to_nat (Z.of_nat (length l) / 4) = (length l / 4)%nat).
  { intros l. rewrite <- (Nat2Z.id (length l / 4)). f_equal.
    now rewrite Nat2Z.inj_div. }
  apply list_eq. intros i.
  destruct (Nat.lt_ge_cases i (length p / 4)) as [Hlt|Hge].
  - assert (Hip : (4 * i + 3 < length p)%nat).
    { pose proof (Nat.div_mod_eq (length p) 4). lia. }
    assert (Hiq : (4 * i + 3 < length q)%nat).
    { pose proof (Nat.div_mod_eq (length q) 4). lia. }
    replace i with (Z.to_nat (Z.of_nat i)) by lia.
    rewrite !pack_lookup by lia. f_equal.
    apply packed_agree; [lia|]. intros j Hj.
    replace (Z.to_nat (4 * Z.of_nat i) + j)%nat with (4 * i + j)%nat by lia.
    apply Hrgb; [lia|].
    replace (4 * i + j)%nat with (j + i * 4)%nat by lia.
    rewrite Nat.Div0.mod_add. rewrite Nat.mod_small by lia. lia.
  - rewrite !lookup_ge_None_2; [reflexivity| |];
      rewrite pack_length, Hdiv; lia.
Qed.

(** Packing an already gray pixel: a pixel whose three colour bytes
    are all [v] is packed to [v] or to [v - 1], never to anything else:
    the three products are rounded in double precision, and their sum can
    fall just below [v]. *)
Theorem gray_level_loses_at_most_one (v : Z) :
  0 <= v <= 255 ->
  Gray.luma_byte v v v = v \/ Gray.luma_byte v v v = v - 1.
Proof.
  intros Hv.
  assert (Hall : forallb (fun v => (Gray.luma_byte v v v =? v)
                                   || (Gray.luma_byte v v v =? v - 1)) levels
                 = true) by (vm_compute; reflexivity).
  rewrite forallb_forall in Hall.
  specialize (Hall v).
  assert (Hin : In v levels).
  { unfold levels. apply in_map_iff. exists (Z.to_nat v).
    split; [lia|]. apply in_seq. lia. }
  apply Hall in Hin. apply orb_true_iff in Hin as [Hin|Hin];
    apply Z.eqb_eq in Hin; auto.
Qed.

End GrayInputs.

Section Sizes.

Context {R : Type} `{!Host R}.

(** [setSize] followed by [getShape], for integer sizes up to 2^53 and
    a renderer that takes the size it is given: the shape is the
    requested width and height with 4, and a second [setSize] with the
    same size calls no method of the renderer and changes neither the
    renderers nor the camera. *)
Theorem setSize_then_getShape (this : CameraSensor) (w h : Z) (W : World R) :
  let r := renderers W (renderer this) in
  let wv := VNum (Js.of_int w) in
  let hv := VNum (Js.of_int h) in
  Js.safe w = true -> Js.safe h = true ->
  Js.safe (width r) = true -> Js.safe (height r) = true ->
  width (rendererSetSize r wv hv) = w ->
  height (rendererSetSize r wv hv) = h ->
  returns (setSize this wv hv W) (fun _ W1 =>
    getShape this W1 = Ok [w; h; 4] W1
    /\ returns (setSize this wv hv W1) (fun _ W2 =>
         renderers W2 = renderers W1
         /\ cameras W2 (camera this) = cameras W1 (camera this)
         /\ forall evs, added W1 W2 evs ->
              forall e, e ∈ evs -> is_renderer_method e = false)).
Proof.
  intros r wv hv Sw Sh Srw Srh Hw Hh.
  rewrite setSize_run. cbv beta iota delta [returns].
  assert (Hsize : width (renderers (resized this wv hv W) (renderer this)) = w
                  /\ height (renderers (resized this wv hv W) (renderer this))
                     = h).
  { assert (Hb : differs_from (width r) wv || differs_from (height r) hv
                 = negb (width r =? w) || negb (height r =? h))
      by (unfold wv, hv; now rewrite !differs_from_integer).
    unfold resized. fold r. rewrite Hb.
    destruct (negb (width r =? w) || negb (height r =? h)) eqn:Hd;
      cbn [renderers with_renderers with_cameras with_trace].
    - now rewrite fn_lookup_insert.
    - apply orb_false_iff in Hd as [Hd1 Hd2].
      apply negb_false_iff, Z.eqb_eq in Hd1, Hd2. now fold r. }
  destruct Hsize as [Hw1 Hh1].
  split.
  - unfold getShape, bind, read_renderer, ret. now rewrite Hw1, Hh1.
  - rewrite setSize_run. cbv beta iota delta [returns].
    assert (Hsame : differs_from (width (renderers (resized this wv hv W)
                                           (renderer this))) wv
                    || differs_from (height (renderers (resized this wv hv W)
                                               (renderer this))) hv
                    = false) by (now rewrite Hw1, Hh1, !differs_from_own).
    split; [|split].
    + unfold resized at 1. now rewrite Hsame.
    + now rewrite !camera_resized.
    + intros evs Hadd e He. unfold added in Hadd.
      rewrite trace_resized in Hadd. apply app_inv_head in Hadd. subst evs.
      unfold resize_events in He. rewrite Hsame, app_nil_r in He.
      destruct (isArrayCamera _); cbn [app] in He;
        rewrite !elem_of_cons, elem_of_nil in He;
        intuition (subst e; reflexivity).
Qed.

(** [createPixelBuffer]: for a renderer reporting a non-negative
    area (of less than [2^30] bytes) the buffer is all zeros and has as
    many bytes as the entries of [getShape] multiply to, and the store
    is untouched; for a negative product it throws a RangeError. *)
Theorem createPixelBuffer_matches_shape (this : CameraSensor) (W : World R) :
  let r := renderers W (renderer this) in
  (0 <= 4 * width r * height r < 2 ^ 30 ->
   exists buf sh,
     createPixelBuffer this W = Ok buf W
     /\ getShape this W = Ok sh W
     /\ Z.of_nat (length buf) = fold_right Z.mul 1 sh
     /\ forall i x, buf !! i = Some x -> x = 0)
  /\ (4 * width r * height r < 0 ->
      exists msg, createPixelBuffer this W = Throw (RangeError msg) W).
Proof.
  intros r. unfold createPixelBuffer, getShape, bind, read_renderer, ret.
  fold r. split.
  - intros Hn.
    replace (4 * width r * height r <? 0) with false
      by (symmetry; apply Z.ltb_ge; lia).
    eexists _, _. split; [reflexivity|]. split; [reflexivity|]. split.
    + rewrite length_replicate. cbn [fold_right]. lia.
    + intros i x Hx. now apply lookup_replicate in Hx.
  - intros Hn.
    replace (4 * width r * height r <? 0) with true
      by (symmetry; apply Z.ltb_lt; lia).
    eauto.
Qed.

(** [getMetadata] returns without touching the store; its shape is
    what [getShape] gives (four channels, whatever the encoding), its
    name and type are the sensor's name and the configuration's [type],
    and its data type is never falsy: it is the configuration's
    [datatype] when that is truthy and "uint8" otherwise, also when
    [datatype] is present but empty, zero, false or null. *)
Theorem getMetadata_report (this : CameraSensor) (W : World R) :
  let cfg := objects W (config this) in
  exists md,
    getMetadata this W = Ok md W
    /\ md_name md = name this
    /\ md_type md = get cfg "type"
    /\ getShape this W = Ok (md_shape md) W
    /\ md_dataRange md = [0; 255]
    /\ ToBoolean (md_dataType md) = true
    /\ md_dataType md
       = (if ToBoolean (get cfg "datatype") then get cfg "datatype"
          else VStr "uint8").
Proof.
  intros cfg. unfold getMetadata, getShape, bind, read_object, read_renderer,
    ret. fold cfg.
  eexists. split; [reflexivity|]. cbn -[get ToBoolean].
  repeat split.
  destruct (ToBoolean (get cfg "datatype")) eqn:Hd; [exact Hd | reflexivity].
Qed.

End Sizes.


(** ** Construction and the first frame *)

Section Together.

Context {R : Type} `{!Host R}.

Lemma quiet_not_rendering (e : event) :
  is_renderer_method e = false -> rendered_state e = None.
Proof. destruct e; cbn; congruence. Qed.

(** Several positions and a configuration without a [width] of its own,
    with a factory for array cameras that does return array cameras: the
    constructor makes five calls.  It creates the array camera from the
    working copy, requests the renderer with the copied configuration,
    and then always resizes: it logs, recomputes the projection for the
    renderer's aspect and hands the renderer's size, not the resolution
    asked for, to the sub-cameras. *)
Theorem construction_array_resizes_sub_cameras
    (config : nat) (opts : Opts) (W : World R) (positions : list value) :
  (config < next W)%nat ->
  let cfg := objects W config in
  get cfg "position" = VArr positions ->
  (1 < length positions)%nat ->
  has_properties (get cfg "resolution") ->
  cfg !! "width" = None ->
  (forall cc, isArrayCamera (createArrayCamera cc) = true) ->
  returns (CameraSensor_new config opts W) (fun this W' =>
    exists wc rc props,
      let r := renderers W' (renderer this) in
      let a := (Js.of_int (width r) / Js.of_int (height r))%float in
      added W W'
        [CreateArrayCamera wc; GetRenderer rc props;
         ConsoleLog ("resize sensor " +:+ ToString (get cfg "name") +:+ " to "
                     +:+ ToString (width_of r) +:+ "x"
                     +:+ ToString (height_of r));
         UpdateProjectionMatrix (camera this) a;
         ResizeCameras (camera this) (width_of r) (height_of r)]
      /\ r = getRenderer props opts
      /\ cameras W' (camera this)
         = set_aspect a
             (set_name_and_flag (get cfg "name") (get cfg "isEquirectangular")
                (createArrayCamera wc))).
Proof.
  intros Hlt cfg Hposv Hlen Hres Hwidth Harray.
  assert (Hpos : has_properties (get cfg "position"))
    by (rewrite Hposv; split; discriminate).
  pose proof (construction_returns config opts W Hlt Hres Hpos) as Hrun.
  destruct (CameraSensor_new config opts W) as [this W'|e W'];
    [|contradiction].
  cbv beta iota delta [returns] in Hrun |- *.
  destruct Hrun as (w & h & isArray & W1 & rc & evs & _ & _ & Harr & Hthis
                    & _ & Hbranch & _ & Htr & Hr & Hkept & HW').
  fold cfg in Harr, Hbranch, Hthis.
  rewrite Hposv in Harr. cbn [length_exceeds] in Harr.
  assert (isArray = true) as ->.
  { injection Harr as <-. apply Nat.ltb_lt. exact Hlen. }
  destruct Hbranch as (Hrc & Hcopy & Hcam & ->).
  assert (Hundef : get (objects W1 rc) "width" = VUndefined).
  { apply (requested_width_undefined config W W1 true rc
             (createArrayCamera (working_copy cfg w h)));
      assumption. }
  unfold size_differs in HW'. rewrite Hundef in HW'.
  cbn [differs_from orb] in HW'.
  assert (Hcamera : camera this = S (next W)) by (now rewrite Hthis).
  assert (Hname : name this = get cfg "name") by (now rewrite Hthis).
  exists (working_copy cfg w h), rc, (objects W1 rc). cbv zeta.
  assert (Hrend : renderers W' (renderer this) = renderers W1 (renderer this))
    by (rewrite HW'; now rewrite resized_same_size).
  rewrite Hrend. split; [|split].
  - unfold added. rewrite HW', trace_resized, Htr, resize_events_own_size.
    rewrite Hcamera, Hcam. cbn [isArrayCamera set_name_and_flag].
    rewrite Harray, Hname. now rewrite <- !app_assoc.
  - exact Hr.
  - rewrite HW', camera_resized, Hcamera, Hcam. reflexivity.
Qed.

(** Construction followed by a frame, on a scene state with a debug
    node: the sensor's flag is [!!opts.showDebugNode]; no call of the
    two steps draws anything before [getFrame], and every drawing call
    sees the node's visibility at that flag; afterwards the scene state
    is as it was before the sensor was made. *)
Theorem constructed_sensor_forces_debug_node
    (conf : nat) (opts : Opts) (ss : nat) (W : World R) (d : DebugNode) :
  (conf < next W)%nat ->
  has_properties (get (objects W conf) "resolution") ->
  has_properties (get (objects W conf) "position") ->
  debugNode (scenes W ss) = Some d ->
  returns (bind (CameraSensor_new conf opts) (fun this => getFrame this ss) W)
    (fun '(_, this') W' =>
       showDebugNode this' = ToBoolean (opt_showDebugNode opts)
       /\ scenes W' ss = scenes W ss
       /\ forall evs,
            added W W' evs ->
            forall e st,
              e ∈ evs -> rendered_state e = Some st ->
              debugNode st
              = Some {| visible := VBool (ToBoolean (opt_showDebugNode opts)) |}).
Proof.
  intros Hlt Hres Hpos Hd.
  pose proof (construction_returns conf opts W Hlt Hres Hpos) as Hrun.
  pose proof (construction_events conf opts W Hlt Hres Hpos) as Hev.
  unfold bind.
  destruct (CameraSensor_new conf opts W) as [this W1|e W1];
    [|contradiction].
  cbv beta iota delta [returns] in Hrun, Hev.
  destruct Hrun as (w & h & isArray & W0 & rc & evs0 & _ & _ & _ & Hthis
                    & _ & _ & _ & _ & _ & (_ & _ & Hsc) & HW1).
  destruct Hev as (before & rc' & props & after & Htr1 & Hquiet).
  assert (Hscn : scenes W1 = scenes W).
  { rewrite HW1. destruct (size_differs _ _); rewrite ?scenes_resized;
      exact Hsc. }
  assert (Hflag : showDebugNode this = ToBoolean (opt_showDebugNode opts))
    by (now rewrite Hthis).
  pose proof (getFrame_run this ss W1) as Hget.
  pose proof (scenes_getFrame this ss W1) as Hback.
  destruct (__getFrame this ss (overridden this ss W1)) as [f W2|];
    [|contradiction].
  destruct Hget as [Hcap Hget]. rewrite Hget in Hback |- *.
  cbv beta iota delta [returns] in Hback |- *.
  split; [exact Hflag|]. split; [now rewrite Hback, Hscn|].
  destruct Hcap as (_ & _ & _ & _ & _ & (evs2 & Hadd2 & Hseen) & _).
  intros evs Hadd e st He Hst.
  unfold added in Hadd, Hadd2.
  rewrite trace_restored, Hadd2, trace_overridden, Htr1, <- !app_assoc in Hadd.
  apply app_inv_head in Hadd. subst evs.
  rewrite !elem_of_app in He.
  assert (Hq : forall e', e' ∈ before ++ after -> rendered_state e' = None)
    by (intros e' He'; now apply quiet_not_rendering, Hquiet).
  destruct He as [He|[He|[He|He]]].
  - rewrite Hq in Hst by (apply elem_of_app; now left). discriminate.
  - apply list_elem_of_singleton in He. subst e. discriminate.
  - rewrite Hq in Hst by (apply elem_of_app; now right). discriminate.
  - rewrite (Hseen e st He Hst), scene_overridden, Hscn, Hflag.
    unfold set_visible. now rewrite Hd.
Qed.

End Together.


(** ** The rendered buffer after packing *)

Section InPlace.

(** The loop of the "gray" case stores into the array the renderer
    returned.  For an array of [4 * n] bytes (at most [2^31]) that array
    keeps its length, its first [n] elements are overwritten with the
    packed values, and every element from [n] on is left as rendered;
    the frame's data is the copy of those first [n] elements. *)
Theorem gray_loop_overwrites_in_place (p : list Z) (n : nat) :
  length p = (4 * n)%nat -> Z.of_nat (4 * n) <= 2 ^ 31 ->
  let q := Gray.loop (length p) (Z.of_nat (length p)) 0 p in
  length q = length p
  /\ Gray.pack p = take n q
  /\ (forall i : nat, (i < n)%nat -> q !! i = Some (packed p (Z.of_nat i)))
  /\ (forall i : nat, (n <= i)%nat -> q !! i = p !! i).
Proof.
  intros Hlen Hbound q.
  assert (Hq : q = Gray.loop n (Z.of_nat (length p)) 0 p).
  { unfold q. rewrite Hlen at 1.
    replace (4 * n)%nat with (n + 3 * n)%nat by lia.
    apply loop_fuel; lia. }
  pose proof (loop_prefix_inv p n ltac:(lia) 0 p ltac:(lia) ltac:(lia)
                (inv_init p)) as (Hl & Hlow & Hhigh).
  rewrite <- Hq in Hl, Hlow, Hhigh.
  split; [exact Hl|]. split; [|split].
  - unfold Gray.pack, TypedArray.slice0. fold q. f_equal.
    rewrite Hlen. replace (Z.of_nat (4 * n)) with (Z.of_nat n * 4) by lia.
    rewrite Z.div_mul by lia. lia.
  - intros i Hi. replace i with (Z.to_nat (Z.of_nat i)) at 1 by lia.
    apply Hlow. lia.
  - intros i Hi. specialize (Hhigh (Z.of_nat i) ltac:(lia)).
    unfold TypedArray.get in Hhigh.
    replace (Z.of_nat i <? 0) with false in Hhigh
      by (symmetry; apply Z.ltb_ge; lia).
    now rewrite Nat2Z.id in Hhigh.
Qed.

End InPlace.

(** ** The further theorems at the concrete host *)

Section MoreWitnesses.

Lemma getFrame_debug_node_witness :
  debugNode (scenes Demo.gray_world 0) = Some {| visible := VBool true |}
  /\ showDebugNode (Demo.sensor 7) = false
  /\ returns (getFrame (Demo.sensor 7) 0 Demo.gray_world) (fun _ W' =>
       debugNode (scenes W' 0) = Some {| visible := VBool true |}
       /\ exists e st,
            added Demo.gray_world W' [e]
            /\ rendered_state e = Some st
            /\ debugNode st = Some {| visible := VBool false |}).
Proof.
  split; [reflexivity|]. split; [reflexivity|].
  destruct (getFrame_debug_node_visibility (Demo.sensor 7) 0 Demo.gray_world
              {| visible := VBool true |} eq_refl) as (W1 & _ & _ & H).
  destruct (__getFrame (Demo.sensor 7) 0 W1) as [f W2|x W2]; [|destruct H].
  destruct H as (_ & e & _ & Hyes & _ & H).
  destruct (getFrame (Demo.sensor 7) 0 Demo.gray_world)
    as [[f' this'] W'|x W']; [|exact H].
  destruct H as (_ & Hadd & _ & Hd).
  destruct (Hyes eq_refl) as (st & Hst & Hflag).
  split; [exact Hd|]. exists e, st.
  split; [exact Hadd|]. split; [exact Hst | exact Hflag].
Defined.


Lemma getFrame_encoding_not_a_string_witness :
  (forall t, get (objects Demo.unset_world 0) "encoding" <> VStr t)
  /\ objects Demo.unset_world 0 !! "encoding" = None
  /\ returns (getFrame (Demo.sensor 7) 0 Demo.unset_world)
       (fun '(f, this') W' =>
          f = {| type := "color"; data := Other VNull; encoding := VUndefined;
                 shape := [640; 480; 4] |}
          /\ added Demo.unset_world W'
               [ConsoleError "Invalid encoding: undefined"]
          /\ renderers W' = renderers Demo.unset_world
          /\ numFramesRendered this' = 8%N).
Proof.
  assert (Hnot : forall t,
            get (objects Demo.unset_world 0) "encoding" <> VStr t)
    by (intros t Hx; vm_compute in Hx; discriminate Hx).
  assert (Habs : objects Demo.unset_world 0 !! "encoding" = None)
    by reflexivity.
  split; [exact Hnot|]. split; [exact Habs|].
  pose proof (getFrame_encoding_not_a_string (Demo.sensor 7) 0
                Demo.unset_world Hnot) as H.
  destruct (getFrame (Demo.sensor 7) 0 Demo.unset_world)
    as [[f this'] W'|e W']; [|exact H].
  destruct H as (H1 & _ & H3 & H4 & H5).
  split; [exact H1|]. split; [exact (H3 Habs)|]. split; [exact H4 | exact H5].
Defined.

Lemma getFrame_rgba_frame_witness :
  get (objects Demo.rgba_world 0) "encoding" = VStr "rgba"
  /\ returns (getFrame (Demo.sensor 7) 0 Demo.rgba_world) (fun '(f, _) W' =>
       f = {| type := "color";
              data := Bytes [255; 255; 255; 255; 10; 200; 30; 0; 9; 9; 9; 9];
              encoding := VStr "rgba"; shape := [640; 480; 4] |}
       /\ added Demo.rgba_world W'
            [RenderToRawPixels 0 (Demo.scene None)
               (FullScene {| scene_name := VStr "scene1"; scene_graph := 7 |})
               0]
       /\ renderers W' 0
          = {| Demo.r_width := 640; Demo.r_height := 480;
               Demo.r_frames := 1 |}
       /\ forall l, l <> 0%nat -> renderers W' l = renderers Demo.rgba_world l).
Proof.
  split; [reflexivity|].
  pose proof (getFrame_rgba_frame (Demo.sensor 7) 0 Demo.rgba_world eq_refl)
    as H.
  cbv zeta in H.
  destruct (getFrame (Demo.sensor 7) 0 Demo.rgba_world)
    as [[f this'] W'|e W']; [|exact H].
  destruct H as (H1 & _ & H3 & H4 & H5).
  split; [exact H1|]. split; [exact H3|]. split; [exact H4 | exact H5].
Defined.

Lemma getFrame_buffer_frame_witness :
  get (objects (Demo.world "pngbuf" [Demo.origin] None) 0) "encoding"
  = VStr "pngbuf"
  /\ ("pngbuf" = "pngbuf" \/ "pngbuf" = "screen")
  /\ returns (getFrame (Demo.sensor 7) 0 (Demo.world "pngbuf" [Demo.origin] None))
       (fun '(f, _) W' =>
          f = {| type := "color"; data := Other (VRef 900);
                 encoding := VStr "pngbuf"; shape := [640; 480; 4] |}
          /\ added (Demo.world "pngbuf" [Demo.origin] None) W'
               [RenderToBuffer 0 (Demo.scene None)
                  (FullScene {| scene_name := VStr "scene1";
                                scene_graph := 7 |}) 0]
          /\ renderers W' 0
             = {| Demo.r_width := 640; Demo.r_height := 480;
                  Demo.r_frames := 1 |}
          /\ forall l, l <> 0%nat ->
               renderers W' l
               = renderers (Demo.world "pngbuf" [Demo.origin] None) l).
Proof.
  split; [reflexivity|]. split; [now left|].
  exact (getFrame_buffer_and_screen_frames (Demo.sensor 7) 0
           (Demo.world "pngbuf" [Demo.origin] None) "pngbuf" eq_refl
           (or_introl eq_refl)).
Defined.

Lemma getFrame_pngfile_frame_witness :
  get (objects (Demo.world "pngfile" [Demo.origin] None) 0) "encoding"
  = VStr "pngfile"
  /\ returns (getFrame (Demo.sensor 7) 0
                (Demo.world "pngfile" [Demo.origin] None))
       (fun '(f, this') W' =>
          f = {| type := "color"; data := Other (VRef 901);
                 encoding := VStr "pngfile"; shape := [640; 480; 4] |}
          /\ added (Demo.world "pngfile" [Demo.origin] None) W'
               [RenderToPng 0 (Demo.scene None)
                  (FullScene {| scene_name := VStr "scene1";
                                scene_graph := 7 |}) 0 "scene1_cam0.png"]
          /\ single_file this' (scenes W' 0) = "scene1_cam0.png").
Proof.
  split; [reflexivity|].
  pose proof (getFrame_pngfile_frame (Demo.sensor 7) 0
                (Demo.world "pngfile" [Demo.origin] None) eq_refl) as H.
  cbv zeta in H.
  destruct (getFrame (Demo.sensor 7) 0 (Demo.world "pngfile" [Demo.origin] None))
    as [[f this'] W'|e W']; [|exact H].
  destruct H as (H1 & H2 & _ & H4).
  split; [exact H1|]. split; [exact H2|].
  specialize (H4 (numFramesRendered this')).
  destruct this'. exact H4.
Defined.

Lemma getFrames_sequence_witness :
  (numFramesRendered (Demo.sensor 7) + N.of_nat 3 <= 2 ^ 53)%N
  /\ get (objects Demo.pngseq_world 0) "encoding" = VStr "pngseq"
  /\ returns (getFrames 3 (Demo.sensor 7) 0 Demo.pngseq_world)
       (fun '(fs, this') W' =>
          length fs = 3%nat
          /\ this' = Demo.sensor 10
          /\ (forall l, scenes W' l = scenes Demo.pngseq_world l)
          /\ exists st t,
               added Demo.pngseq_world W'
                 [RenderToPng 0 st t 0 "scene1_cam0_00007.png";
                  RenderToPng 0 st t 0 "scene1_cam0_00008.png";
                  RenderToPng 0 st t 0 "scene1_cam0_00009.png"]).
Proof.
  assert (Hb : (numFramesRendered (Demo.sensor 7) + N.of_nat 3 <= 2 ^ 53)%N)
    by (vm_compute; discriminate).
  split; [exact Hb|]. split; [reflexivity|].
  pose proof (getFrames_sequence 3 (Demo.sensor 7) 0 Demo.pngseq_world Hb
                eq_refl) as H.
  destruct (getFrames 3 (Demo.sensor 7) 0 Demo.pngseq_world)
    as [[fs this'] W'|e W']; [|exact H].
  destruct H as (H1 & H2 & H3 & _ & H5).
  split; [exact H1|]. split; [exact H2|]. split; [exact H3|].
  eexists _, _. exact H5.
Defined.

Lemma construction_single_camera_calls_witness :
  (0 < next Demo.rgba_world)%nat
  /\ length_exceeds (get (objects Demo.rgba_world 0) "position") 1 = inr false
  /\ returns (CameraSensor_new 0 Demo.opts Demo.rgba_world) (fun this W' =>
       exists w h camPos,
         let cfg := objects Demo.rgba_world 0 in
         let cam := cameras W' (camera this) in
         let r := renderers W' (renderer this) in
         index (get cfg "resolution") 0 = inr w
         /\ index (get cfg "resolution") 1 = inr h
         /\ index (get cfg "position") 0 = inr camPos
         /\ added Demo.rgba_world W'
              (camera_calls (VNum 45) (ToNumber w / ToNumber h)%float
                 (VNum (0.001 * 100)) (VNum (20 * 100))
                 (VArr [VArr [VNum 0; VNum 0; VNum (-1)]])
                 (camera this) camPos
               ++ [GetRenderer 0 cfg]
               ++ (if size_differs r cfg
                   then [ConsoleLog ("resize sensor cam0 to "
                                     +:+ ToString (width_of r)
                                     +:+ "x" +:+ ToString (height_of r));
                         UpdateProjectionMatrix (camera this)
                           (Js.of_int (width r) / Js.of_int (height r))%float]
                   else []))
         /\ position cam = camPos
         /\ cam_name cam = VStr "cam0"
         /\ isEquirectangular cam = VUndefined
         /\ isArrayCamera cam = false).
Proof.
  assert (Hlt : (0 < next Demo.rgba_world)%nat) by (cbn; lia).
  assert (Hres : has_properties
                   (get (objects Demo.rgba_world 0) "resolution"))
    by (split; intro Hx; vm_compute in Hx; discriminate Hx).
  assert (Hlen : length_exceeds (get (objects Demo.rgba_world 0) "position") 1
                 = inr false) by reflexivity.
  split; [exact Hlt|]. split; [exact Hlen|].
  exact (construction_single_camera_calls 0 Demo.opts Demo.rgba_world
           Hlt Hres Hlen).
Defined.

Lemma construction_leaves_renderer_alone_witness :
  (0 < next Demo.array_world)%nat
  /\ returns (CameraSensor_new 0 Demo.opts Demo.array_world) (fun this W' =>
       forall evs,
         added Demo.array_world W' evs ->
         (forall e, e ∈ evs -> is_renderer_method e = false)
         /\ length (List.filter is_factory_call evs) = 1%nat
         /\ exists l props,
              GetRenderer l props ∈ evs
              /\ renderers W' (renderer this) = getRenderer props Demo.opts).
Proof.
  assert (Hlt : (0 < next Demo.array_world)%nat) by (cbn; lia).
  assert (Hres : has_properties
                   (get (objects Demo.array_world 0) "resolution"))
    by (split; intro Hx; vm_compute in Hx; discriminate Hx).
  assert (Hpos : has_properties
                   (get (objects Demo.array_world 0) "position"))
    by (split; intro Hx; vm_compute in Hx; discriminate Hx).
  split; [exact Hlt|].
  exact (construction_leaves_renderer_alone 0 Demo.opts Demo.array_world
           Hlt Hres Hpos).
Defined.

Lemma construction_throws_exactly_witness :
  (0 < next Demo.blind_world)%nat
  /\ get (objects Demo.blind_world 0) "resolution" = VUndefined
  /\ exists msg W',
       CameraSensor_new 0 Demo.opts Demo.blind_world = Throw (TypeError msg) W'
       /\ added Demo.blind_world W' []
       /\ objects W' 0 = objects Demo.blind_world 0.
Proof.
  assert (Hlt : (0 < next Demo.blind_world)%nat) by (cbn; lia).
  split; [exact Hlt|]. split; [reflexivity|].
  pose proof (construction_throws_exactly 0 Demo.opts Demo.blind_world Hlt)
    as H.
  cbv zeta in H.
  destruct (CameraSensor_new 0 Demo.opts Demo.blind_world) as [this W'|e W'].
  - destruct H as [[Hx _] _]. exfalso. apply Hx. reflexivity.
  - destruct H as (_ & [msg ->] & Hadd & _ & _ & Hobj).
    exists msg, W'. split; [reflexivity|]. split; [exact Hadd | exact Hobj].
Defined.

Lemma first_sequence_frame_witness :
  (0 < next Demo.pngseq_world)%nat
  /\ get (objects Demo.pngseq_world 0) "encoding" = VStr "pngseq"
  /\ returns (bind (CameraSensor_new 0 Demo.opts)
                (fun this => getFrame this 0) Demo.pngseq_world)
       (fun '(f, this') W' =>
          numFramesRendered this' = 1%N
          /\ encoding f = VStr "pngseq"
          /\ exists before st,
               added Demo.pngseq_world W'
                 (before ++
                  [RenderToPng (renderer this') st
                     (FullScene {| scene_name := VStr "scene1";
                                   scene_graph := 7 |})
                     (camera this') "scene1_cam0_00000.png"])).
Proof.
  assert (Hlt : (0 < next Demo.pngseq_world)%nat) by (cbn; lia).
  assert (Hres : has_properties
                   (get (objects Demo.pngseq_world 0) "resolution"))
    by (split; intro Hx; vm_compute in Hx; discriminate Hx).
  assert (Hpos : has_properties
                   (get (objects Demo.pngseq_world 0) "position"))
    by (split; intro Hx; vm_compute in Hx; discriminate Hx).
  split; [exact Hlt|]. split; [reflexivity|].
  exact (first_sequence_frame 0 Demo.opts 0 Demo.pngseq_world
           Hlt Hres Hpos eq_refl).
Defined.

Lemma gray_packing_reads_rgb_only_witness :
  let p := [255; 255; 255; 255; 10; 200; 30; 0] in
  let q := [255; 255; 255; 7; 10; 200; 30; 99; 1; 2] in
  Z.of_nat (length p) <= 2 ^ 31
  /\ Z.of_nat (length q) <= 2 ^ 31
  /\ (length p / 4 = length q / 4)%nat
  /\ Gray.pack p = Gray.pack q.
Proof.
  intros p q.
  assert (Hp : Z.of_nat (length p) <= 2 ^ 31) by (cbn; lia).
  assert (Hq : Z.of_nat (length q) <= 2 ^ 31) by (cbn; lia).
  assert (Hn : (length p / 4 = length q / 4)%nat) by reflexivity.
  split; [exact Hp|]. split; [exact Hq|]. split; [exact Hn|].
  apply (gray_packing_reads_rgb_only p q Hp Hq Hn).
  intros k Hk Hmod.
  do 8 (destruct k as [|k]; [first [reflexivity | now destruct Hmod]|]).
  cbn in Hk. lia.
Defined.

Lemma gray_level_witness :
  0 <= 255 <= 255
  /\ (Gray.luma_byte 255 255 255 = 255 \/ Gray.luma_byte 255 255 255 = 255 - 1).
Proof.
  assert (Hv : 0 <= 255 <= 255) by lia.
  split; [exact Hv|]. exact (gray_level_loses_at_most_one 255 Hv).
Defined.

Lemma setSize_then_getShape_witness :
  let wv := VNum (Js.of_int 320) in
  let hv := VNum (Js.of_int 240) in
  Js.safe 320 = true /\ Js.safe 240 = true
  /\ Js.safe (width (renderers Demo.rgba_world 0)) = true
  /\ Js.safe (height (renderers Demo.rgba_world 0)) = true
  /\ width (rendererSetSize (renderers Demo.rgba_world 0) wv hv) = 320
  /\ height (rendererSetSize (renderers Demo.rgba_world 0) wv hv) = 240
  /\ returns (setSize (Demo.sensor 7) wv hv Demo.rgba_world) (fun _ W1 =>
       getShape (Demo.sensor 7) W1 = Ok [320; 240; 4] W1
       /\ returns (setSize (Demo.sensor 7) wv hv W1) (fun _ W2 =>
            renderers W2 = renderers W1
            /\ cameras W2 0 = cameras W1 0
            /\ forall evs, added W1 W2 evs ->
                 forall e, e ∈ evs -> is_renderer_method e = false)).
Proof.
  intros wv hv.
  do 6 (split; [reflexivity|]).
  exact (setSize_then_getShape (Demo.sensor 7) 320 240 Demo.rgba_world
           eq_refl eq_refl eq_refl eq_refl eq_refl eq_refl).
Defined.

Lemma sequence_files_witness :
  (7 < 2 ^ 53)%N
  /\ (123456 < 2 ^ 53)%N
  /\ frame_number (Util.padStart (Js.numeral 123456) 5 "0") = Some 123456%N
  /\ (sequence_file (at_frame (Demo.sensor 0) 7) (Demo.scene None)
      = sequence_file (at_frame (Demo.sensor 0) 123456) (Demo.scene None)
      <-> 7%N = 123456%N).
Proof.
  assert (Hj : (7 < 2 ^ 53)%N) by reflexivity.
  assert (Hk : (123456 < 2 ^ 53)%N) by reflexivity.
  split; [exact Hj|]. split; [exact Hk|].
  exact (sequence_files_are_distinct (Demo.sensor 0) (Demo.scene None)
           7 123456 Hj Hk).
Defined.

Lemma construction_array_resizes_witness :
  (0 < next Demo.array_world)%nat
  /\ get (objects Demo.array_world 0) "position"
     = VArr [Demo.origin; VArr [VNum 1; VNum 0.6; VNum 0]]
  /\ objects Demo.array_world 0 !! "width" = None
  /\ (forall cc, isArrayCamera (createArrayCamera cc) = true)
  /\ returns (CameraSensor_new 0 Demo.opts Demo.array_world) (fun this W' =>
       exists wc rc props,
         let r := renderers W' (renderer this) in
         let a := (Js.of_int (width r) / Js.of_int (height r))%float in
         added Demo.array_world W'
           [CreateArrayCamera wc; GetRenderer rc props;
            ConsoleLog ("resize sensor cam0 to "
                        +:+ ToString (width_of r) +:+ "x"
                        +:+ ToString (height_of r));
            UpdateProjectionMatrix (camera this) a;
            ResizeCameras (camera this) (width_of r) (height_of r)]
         /\ r = getRenderer props Demo.opts
         /\ cameras W' (camera this)
            = set_aspect a
                (set_name_and_flag (VStr "cam0") VUndefined
                   (createArrayCamera wc))).
Proof.
  assert (Hlt : (0 < next Demo.array_world)%nat) by (cbn; lia).
  assert (Hres : has_properties
                   (get (objects Demo.array_world 0) "resolution"))
    by (split; intro Hx; vm_compute in Hx; discriminate Hx).
  assert (Harray : forall cc, isArrayCamera (createArrayCamera cc) = true)
    by (intros cc; reflexivity).
  split; [exact Hlt|]. split; [reflexivity|]. split; [reflexivity|].
  split; [exact Harray|].
  exact (construction_array_resizes_sub_cameras 0 Demo.opts Demo.array_world
           [Demo.origin; VArr [VNum 1; VNum 0.6; VNum 0]]
           Hlt eq_refl ltac:(cbn; lia) Hres eq_refl Harray).
Defined.

Lemma constructed_sensor_debug_node_witness :
  (0 < next Demo.pngseq_world)%nat
  /\ debugNode (scenes Demo.pngseq_world 0) = Some {| visible := VBool true |}
  /\ returns (bind (CameraSensor_new 0 Demo.opts)
                (fun this => getFrame this 0) Demo.pngseq_world)
       (fun '(_, this') W' =>
          showDebugNode this' = false
          /\ scenes W' 0 = scenes Demo.pngseq_world 0
          /\ forall evs,
               added Demo.pngseq_world W' evs ->
               forall e st,
                 e ∈ evs -> rendered_state e = Some st ->
                 debugNode st = Some {| visible := VBool false |}).
Proof.
  assert (Hlt : (0 < next Demo.pngseq_world)%nat) by (cbn; lia).
  assert (Hres : has_properties
                   (get (objects Demo.pngseq_world 0) "resolution"))
    by (split; intro Hx; vm_compute in Hx; discriminate Hx).
  assert (Hpos : has_properties
                   (get (objects Demo.pngseq_world 0) "position"))
    by (split; intro Hx; vm_compute in Hx; discriminate Hx).
  split; [exact Hlt|]. split; [reflexivity|].
  exact (constructed_sensor_forces_debug_node 0 Demo.opts 0 Demo.pngseq_world
           {| visible := VBool true |} Hlt Hres Hpos eq_refl).
Defined.

Lemma gray_loop_in_place_witness :
  let p := [255; 255; 255; 255; 10; 200; 30; 0] in
  let q := Gray.loop (length p) (Z.of_nat (length p)) 0 p in
  length p = (4 * 2)%nat
  /\ Z.of_nat (4 * 2) <= 2 ^ 31
  /\ length q = length p
  /\ Gray.pack p = take 2 q
  /\ q !! 0%nat = Some (packed p 0)
  /\ q !! 5%nat = p !! 5%nat.
Proof.
  intros p q.
  assert (Hb : Z.of_nat (4 * 2) <= 2 ^ 31) by (cbn; lia).
  destruct (gray_loop_overwrites_in_place p 2 eq_refl Hb)
    as (H1 & H2 & H3 & H4).
  split; [reflexivity|]. split; [exact Hb|]. split; [exact H1|].
  split; [exact H2|]. split.
  - exact (H3 0%nat ltac:(lia)).
  - exact (H4 5%nat ltac:(lia)).
Defined.

End MoreWitnesses.
